(** * fix_html_links.py: link repair over a tree of HTML documents

    A shallow embedding of [src/fix_html_links.py] and the properties of its
    link-resolution engine and of its document rewriting.

    Conventions of the embedding:
    - a Python [str] is a [string] whose characters are code points below 256;
    - the [os.path] functions are the POSIX ones ([posixpath]);
    - the file system is a [World]: the working directory and what [os.stat]
      answers for a path;
    - [print] calls and the mutating calls on the parsed document are recorded,
      in order, in a trace of [event]s;
    - a raised exception is a value of [result];
    - the files are a [disk], the parsed document at each path; reading and
      writing a file can raise, printing cannot. *)

From Stdlib Require Import ZArith Ascii String List Bool Lia.
From stdpp Require Import base tactics option list gmap strings.

Set Warnings "-register-all".

(** ** Python [str] methods *)

Module Str.

(** [c in s] for a one-character [c]. *)
Fixpoint contains (c : ascii) (s : string) : bool :=
  match s with
  | "" => false
  | String a s' => if Ascii.eqb a c then true else contains c s'
  end.

(** [s.startswith(pre)] *)
Definition startswith (s pre : string) : bool := String.prefix pre s.

(** [s.endswith(suf)] *)
Definition endswith (s suf : string) : bool :=
  String.prefix (String.rev suf) (String.rev s).

(** [s.lstrip(chars)]: drops every leading character that occurs in [chars]. *)
Fixpoint lstrip (chars s : string) : string :=
  match s with
  | "" => ""
  | String a s' => if contains a chars then lstrip chars s' else s
  end.

(** [s.rstrip(chars)] *)
Fixpoint rstrip (chars s : string) : string :=
  match s with
  | "" => ""
  | String a s' =>
      match rstrip chars s' with
      | "" => if contains a chars then "" else String a ""
      | r => String a r
      end
  end.

(** [s.split(sep)] for a one-character separator. *)
Fixpoint split (sep : ascii) (s : string) : list string :=
  match s with
  | "" => [""]
  | String a s' =>
      if Ascii.eqb a sep then "" :: split sep s'
      else match split sep s' with
           | w :: ws => String a w :: ws
           | [] => [String a ""]
           end
  end.

(** [sep.join(l)] *)
Definition join (sep : string) (l : list string) : string := String.concat sep l.

Fixpoint rfind_from (c : ascii) (s : string) (i last : Z) : Z :=
  match s with
  | "" => last
  | String a s' => rfind_from c s' (i + 1)%Z (if Ascii.eqb a c then i else last)
  end.

(** [s.rfind(c)]: index of the last occurrence, [-1] when there is none. *)
Definition rfind (c : ascii) (s : string) : Z := rfind_from c s 0%Z (-1)%Z.

(** [s[:n]] and [s[n:]] for [n >= 0]. *)
Fixpoint take (n : nat) (s : string) : string :=
  match n, s with
  | S n', String a s' => String a (take n' s')
  | _, _ => ""
  end.

Fixpoint drop (n : nat) (s : string) : string :=
  match n, s with
  | S n', String _ s' => drop n' s'
  | _, _ => s
  end.

(** [s[i:i+1]] *)
Definition at1 (s : string) (i : nat) : string := take 1 (drop i s).

(** [str.isspace] on one character: the white space below 256. *)
Definition is_space (c : ascii) : bool :=
  let n := N_of_ascii c in
  ((9 <=? n) && (n <=? 13) || (28 <=? n) && (n <=? 32)
   || (n =? 133) || (n =? 160))%N.

(** [str.lower] on one character below 256. *)
Definition lower_char (c : ascii) : ascii :=
  let n := N_of_ascii c in
  if ((65 <=? n) && (n <=? 90)
      || (192 <=? n) && (n <=? 222) && negb (n =? 215))%N
  then ascii_of_N (n + 32) else c.

Fixpoint lower (s : string) : string :=
  match s with
  | "" => ""
  | String a s' => String (lower_char a) (lower s')
  end.

Fixpoint lstrip_ws (s : string) : string :=
  match s with
  | "" => ""
  | String a s' => if is_space a then lstrip_ws s' else s
  end.

Fixpoint rstrip_ws (s : string) : string :=
  match s with
  | "" => ""
  | String a s' =>
      match rstrip_ws s' with
      | "" => if is_space a then "" else String a ""
      | r => String a r
      end
  end.

(** [s.strip()] *)
Definition strip (s : string) : string := rstrip_ws (lstrip_ws s).

(** [s.split()]: the maximal runs of characters that are not white space. *)
Fixpoint split_ws (s : string) : list string :=
  match s with
  | "" => []
  | String a s' =>
      if is_space a then split_ws s'
      else match s' with
           | "" => [String a ""]
           | String b _ =>
               if is_space b then String a "" :: split_ws s'
               else match split_ws s' with
                    | w :: ws => String a w :: ws
                    | [] => [String a ""]
                    end
           end
  end.

(** The white space of [s] removed: what the source's comment calls
    "removing all whitespace". *)
Fixpoint remove_ws (s : string) : string :=
  match s with
  | "" => ""
  | String a s' => if is_space a then remove_ws s' else String a (remove_ws s')
  end.

(** ['/' * n] *)
Fixpoint replicate (n : nat) (c : ascii) : string :=
  match n with
  | 0 => ""
  | S n' => String c (replicate n' c)
  end.

End Str.

(** ** Exceptions *)

Inductive exn := IndexError | ValueError | KeyError.

Inductive result (A : Type) :=
| Ok (a : A)
| Raise (e : exn).
Arguments Ok {A} a.
Arguments Raise {A} e.

Definition result_map {A B : Type} (f : A → B) (r : result A) : result B :=
  match r with
  | Ok a => Ok (f a)
  | Raise e => Raise e
  end.

(** ** [posixpath] *)

Module posixpath.

Definition sep : ascii := "/"%char.

(** [isabs(s)] *)
Definition isabs (s : string) : bool := Str.startswith s "/".

(** One round of the loop of [join(a, *p)]. *)
Definition join_step (path b : string) : string :=
  if Str.startswith b "/" then b
  else if String.eqb path "" || Str.endswith path "/" then path +:+ b
  else path +:+ "/" +:+ b.

Definition join_list (a : string) (p : list string) : string :=
  foldl join_step a p.

(** [join(a, b)] *)
Definition join (a b : string) : string := join_list a [b].

(** [basename(p)]: [i = p.rfind(sep) + 1; return p[i:]] *)
Definition basename (p : string) : string :=
  let i := (Str.rfind sep p + 1)%Z in
  Str.drop (Z.to_nat i) p.

(** [dirname(p)] *)
Definition dirname (p : string) : string :=
  let i := (Str.rfind sep p + 1)%Z in
  let head := Str.take (Z.to_nat i) p in
  if negb (String.eqb head "")
     && negb (String.eqb head (Str.replicate (String.length head) sep))
  then Str.rstrip "/" head
  else head.

(** The [while] loop of [genericpath._splitext], [n] rounds left. *)
Fixpoint splitext_scan (p : string) (dotIndex : nat) (n filenameIndex : nat)
  : string * string :=
  match n with
  | 0 => (p, "")
  | S n' =>
      if negb (String.eqb (Str.at1 p filenameIndex) ".")
      then (Str.take dotIndex p, Str.drop dotIndex p)
      else splitext_scan p dotIndex n' (S filenameIndex)
  end.

(** [splitext(p)] *)
Definition splitext (p : string) : string * string :=
  let sepIndex := Str.rfind sep p in
  let dotIndex := Str.rfind "."%char p in
  if (sepIndex <? dotIndex)%Z then
    let filenameIndex := Z.to_nat (sepIndex + 1) in
    splitext_scan p (Z.to_nat dotIndex)
      (Z.to_nat dotIndex - filenameIndex) filenameIndex
  else (p, "").

(** One round of the loop of [normpath] over the components. *)
Definition normpath_step (initial_slashes : nat) (new_comps : list string)
    (comp : string) : list string :=
  if String.eqb comp "" || String.eqb comp "." then new_comps
  else if negb (String.eqb comp "..")
          || (Nat.eqb initial_slashes 0 && Nat.eqb (length new_comps) 0)
          || (negb (Nat.eqb (length new_comps) 0)
              && bool_decide (last new_comps = Some ".."))
  then new_comps ++ [comp]
  else removelast new_comps.

(** [normpath(path)] *)
Definition normpath (path : string) : string :=
  if String.eqb path "" then "."
  else
    let initial_slashes :=
      if Str.startswith path "/" then
        if Str.startswith path "//" && negb (Str.startswith path "///")
        then 2 else 1
      else 0 in
    let comps := foldl (normpath_step initial_slashes) [] (Str.split sep path) in
    let path' := Str.replicate initial_slashes sep +:+ Str.join "/" comps in
    if String.eqb path' "" then "." else path'.

(** [abspath(path)], in the working directory [cwd]. *)
Definition abspath (cwd path : string) : string :=
  normpath (if isabs path then path else join cwd path).

(** Length of the common prefix of two lists of components. *)
Fixpoint commonprefix_len (l1 l2 : list string) : nat :=
  match l1, l2 with
  | x :: l1', y :: l2' => if String.eqb x y then S (commonprefix_len l1' l2') else 0
  | _, _ => 0
  end.

(** [[x for x in s.split(sep) if x]] *)
Definition nonempty_comps (s : string) : list string :=
  filter (λ x, x ≠ "") (Str.split sep s).

(** [relpath(path, start)] *)
Definition relpath (cwd path start : string) : result string :=
  if String.eqb path "" then Raise ValueError
  else
    let start_list := nonempty_comps (abspath cwd start) in
    let path_list := nonempty_comps (abspath cwd path) in
    let i := commonprefix_len start_list path_list in
    let rel_list := repeat ".." (length start_list - i) ++ List.skipn i path_list in
    match rel_list with
    | [] => Ok "."
    | a :: p => Ok (join_list a p)
    end.

End posixpath.

(** ** The file system *)

Inductive file_kind := RegularFile | Directory | OtherFile.

Record World := {
  cwd : string;                          (* os.getcwd() *)
  stat : string → option file_kind       (* what os.stat finds at a path *)
}.

(** [os.path.exists(path)] *)
Definition path_exists (w : World) (path : string) : bool :=
  match stat w path with
  | Some _ => true
  | None => false
  end.

(** ** The parsed document *)

(** [BeautifulSoup(content, 'html.parser')] is a tree of objects, and the code
    works on it through references: [find_all] returns a list of [Tag]
    objects, and the loops read and change these objects one after the other,
    while the tree changes under them. A [Tag] therefore carries the identity
    of its object: [find_all] returns identities, and every read or change of
    a tag goes through its identity to the place of the tag in the tree. A tag
    that [decompose] destroyed is not found any more and has no text left.

    The attributes of a tag are a [dict]. The value of [class], which bs4 keeps
    as the list of its words, is kept as the string of the source and split
    where it is matched. *)

(** The identity of a [Tag] object. *)
Definition tag_id := nat.

Inductive node :=
| Text (s : string)                      (* a NavigableString *)
| Comment (s : string)                   (* a comment, doctype, ...: no text *)
| Tag (i : tag_id) (name : string) (attrs : gmap string string)
      (contents : list node).

(** ** Effects *)

Inductive event :=
| PrintWarnMultiple (base : string) (candidates : list string)
| PrintUpdatingLink (file_path href new_href : string)
| PrintTargetNotFound (file_path href : string)
| PrintUpdatingImg (file_path src new_src : string)
| PrintRemovingP (file_path text : string)
| PrintUpdatedFile (file_path : string)
| PrintNoChanges (file_path : string)
| SetAttr (tag : tag_id) (key value : string)     (* tag[key] = value *)
| Decompose (tag : tag_id)                        (* tag.decompose() *)
| SetName (tag : tag_id) (name : string)          (* tag.name = name *)
| WriteFile (file_path : string) (soup : list node).

(** ** [build_html_index] *)

(** [index.setdefault(file, []).append(rel_path)] *)
Definition index_append (file rel_path : string) (index : gmap string (list string))
  : gmap string (list string) :=
  <[file := default [] (index !! file) ++ [rel_path]]> index.

(** The body of the inner loop, for one [file] of the directory [root]. *)
Definition index_file (w : World) (project_root root : string)
    (acc : result (gmap string (list string))) (file : string)
  : result (gmap string (list string)) :=
  match acc with
  | Raise e => Raise e
  | Ok index =>
      if Str.endswith (Str.lower file) ".html" then
        let full_path := posixpath.join root file in
        match posixpath.relpath (cwd w) full_path project_root with
        | Ok rel_path => Ok (index_append file rel_path index)
        | Raise e => Raise e
        end
      else Ok index
  end.

(** [walk] is what [os.walk(project_root)] yields: [(root, dirs, files)]. *)
Definition build_html_index (w : World)
    (walk : list (string * list string * list string))
    (project_root : string) : result (gmap string (list string)) :=
  foldl (λ acc '(root, dirs, files), foldl (index_file w project_root root) acc files)
        (Ok ∅) walk.

(** ** [find_target_path] *)

Definition normalized_href (href : string) : string := Str.lstrip "/" href.

Definition find_target_path (w : World) (href : string)
    (index : gmap string (list string)) (project_root : string)
  : list event * result (option string) :=
  let normalized_href := normalized_href href in
  let candidate_path := posixpath.join project_root normalized_href in
  if path_exists w candidate_path then
    ([], result_map Some (posixpath.relpath (cwd w) candidate_path project_root))
  else
    let base := posixpath.basename normalized_href in
    match index !! base with
    | Some targets =>
        (if 1 <? length targets then [PrintWarnMultiple base targets] else [],
         match targets !! 0 with
         | Some t => Ok (Some t)
         | None => Raise IndexError
         end)
    | None => ([], Ok None)
    end.

(** ** Operations of the document tree *)

(** What identifies and describes a tag: its identity, name and attributes. *)
Record tag_info := TagInfo {
  t_id : tag_id;
  t_name : string;
  t_attrs : gmap string string
}.

(** The tags of a node, in document order. *)
Fixpoint tags_of (n : node) : list tag_info :=
  match n with
  | Tag i name attrs contents => TagInfo i name attrs :: flat_map tags_of contents
  | _ => []
  end.

Definition tags (soup : list node) : list tag_info := flat_map tags_of soup.

(** [soup.find_all(...)]: the tags that pass the filter, in document order. *)
Fixpoint find_all_in (p : string → gmap string string → bool) (n : node)
  : list tag_id :=
  match n with
  | Tag i name attrs contents =>
      (if p name attrs then [i] else []) ++ flat_map (find_all_in p) contents
  | _ => []
  end.

Definition find_all (p : string → gmap string string → bool) (soup : list node)
  : list tag_id := flat_map (find_all_in p) soup.

(** The first [Some] of [f] over a list. *)
Definition first_some {A B : Type} (f : A → option B) : list A → option B :=
  fix go l :=
    match l with
    | [] => None
    | x :: l' => match f x with Some b => Some b | None => go l' end
    end.

(** The tag object [i], where it is still part of the tree. *)
Fixpoint lookup_in (i : tag_id) (n : node) : option node :=
  match n with
  | Tag j _ _ contents =>
      if Nat.eqb j i then Some n else first_some (lookup_in i) contents
  | _ => None
  end.

Definition lookup_tag (i : tag_id) (soup : list node) : option node :=
  first_some (lookup_in i) soup.

(** [tag[key]] *)
Definition tag_attr (i : tag_id) (key : string) (soup : list node) : option string :=
  match lookup_tag i soup with
  | Some (Tag _ _ attrs _) => attrs !! key
  | _ => None
  end.

(** [tag[key] = value] *)
Fixpoint set_attr_in (i : tag_id) (key value : string) (n : node) : node :=
  match n with
  | Tag j name attrs contents =>
      Tag j name (if Nat.eqb j i then <[key := value]> attrs else attrs)
          (map (set_attr_in i key value) contents)
  | _ => n
  end.

Definition set_attr (i : tag_id) (key value : string) (soup : list node) : list node :=
  map (set_attr_in i key value) soup.

(** [tag.name = name] *)
Fixpoint set_name_in (i : tag_id) (new_name : string) (n : node) : node :=
  match n with
  | Tag j name attrs contents =>
      Tag j (if Nat.eqb j i then new_name else name) attrs
          (map (set_name_in i new_name) contents)
  | _ => n
  end.

Definition set_name (i : tag_id) (new_name : string) (soup : list node) : list node :=
  map (set_name_in i new_name) soup.

(** [tag.decompose()]: the tag and all it contains leave the tree. *)
Fixpoint decompose_in (i : tag_id) (n : node) : option node :=
  match n with
  | Tag j name attrs contents =>
      if Nat.eqb j i then None
      else Some (Tag j name attrs (omap (decompose_in i) contents))
  | _ => Some n
  end.

Definition decompose (i : tag_id) (soup : list node) : list node :=
  omap (decompose_in i) soup.

(** The strings [get_text] goes through. *)
Fixpoint all_strings (n : node) : list string :=
  match n with
  | Text s => [s]
  | Comment _ => []
  | Tag _ _ _ contents => flat_map all_strings contents
  end.

(** [node.get_text(strip=True)] *)
Definition get_text_strip (n : node) : string :=
  Str.join "" (filter (λ s, s ≠ "") (map Str.strip (all_strings n))).

(** [tag.get_text(strip=True)] through a reference: a decomposed tag has no
    contents left. *)
Definition tag_text (i : tag_id) (soup : list node) : string :=
  match lookup_tag i soup with
  | Some n => get_text_strip n
  | None => ""
  end.

(** ** The state of [fix_links_in_html] *)

Record state := State {
  soup : list node;      (* the parsed document *)
  changed : bool;        (* the local variable [changed] *)
  trace : list event     (* the effects so far *)
}.

Inductive outcome :=
| Done (s : state)
| Aborted (e : exn) (s : state).

Definition final (o : outcome) : state :=
  match o with
  | Done s => s
  | Aborted _ s => s
  end.

Definition emit (out : list event) (s : state) : state :=
  State (soup s) (changed s) (trace s ++ out).

Definition set_changed (s : state) : state :=
  State (soup s) true (trace s).

Definition do_set_attr (i : tag_id) (key value : string) (s : state) : state :=
  State (set_attr i key value (soup s)) (changed s)
        (trace s ++ [SetAttr i key value]).

Definition do_set_name (i : tag_id) (name : string) (s : state) : state :=
  State (set_name i name (soup s)) (changed s) (trace s ++ [SetName i name]).

Definition do_decompose (i : tag_id) (s : state) : state :=
  State (decompose i (soup s)) (changed s) (trace s ++ [Decompose i]).

(** A [for] loop whose body may raise. *)
Definition for_each {X : Type} (body : state → X → outcome)
  : list X → state → outcome :=
  fix go l s :=
    match l with
    | [] => Done s
    | x :: l' =>
        match body s x with
        | Done s' => go l' s'
        | Aborted e s' => Aborted e s'
        end
    end.

(** ** [fix_links_in_html] *)

Definition has_attr (key : string) (attrs : gmap string string) : bool :=
  match attrs !! key with
  | Some _ => true
  | None => false
  end.

(** [find_all('a', href=True)] *)
Definition is_a_href (name : string) (attrs : gmap string string) : bool :=
  String.eqb name "a" && has_attr "href" attrs.

(** [find_all('img', src=True)] *)
Definition is_img_src (name : string) (attrs : gmap string string) : bool :=
  String.eqb name "img" && has_attr "src" attrs.

(** [find_all('span', class_="citation")]: [class] is a list of words. *)
Definition is_citation (name : string) (attrs : gmap string string) : bool :=
  String.eqb name "span"
  && match attrs !! "class" with
     | Some v => bool_decide ("citation" ∈ Str.split_ws v)
     | None => false
     end.

(** [find("h2", id="topics")] *)
Definition is_h2_topics (name : string) (attrs : gmap string string) : bool :=
  String.eqb name "h2" && bool_decide (attrs !! "id" = Some "topics").

Definition is_h3 (name : string) (attrs : gmap string string) : bool :=
  String.eqb name "h3".

Definition is_p (name : string) (attrs : gmap string string) : bool :=
  String.eqb name "p".

(** In-page anchors and external links. *)
Definition is_skipped_href (href : string) : bool :=
  Str.startswith href "#" || Str.startswith href "http://"
  || Str.startswith href "https://".

(** External images. *)
Definition is_external_src (src : string) : bool :=
  Str.startswith src "http://" || Str.startswith src "https://".

(** [if target_rel:] *)
Definition truthy (target_rel : option string) : option string :=
  match target_rel with
  | Some "" => None
  | Some t => Some t
  | None => None
  end.

(** The body of the loop over the [<a>] tags. [a['href']] raises [KeyError]
    for a tag without that attribute; [find_all] selects none such. *)
Definition fix_a (w : World) (file_path project_root : string)
    (index : gmap string (list string)) (s : state) (a : tag_id) : outcome :=
  match tag_attr a "href" (soup s) with
  | None => Aborted KeyError s
  | Some href =>
      if is_skipped_href href then Done s
      else
        let '(out, r) := find_target_path w href index project_root in
        let s := emit out s in
        match r with
        | Raise e => Aborted e s
        | Ok target_rel =>
            match truthy target_rel with
            | Some target_rel =>
                let target_full_path := posixpath.join project_root target_rel in
                match posixpath.relpath (cwd w) target_full_path
                        (posixpath.dirname file_path) with
                | Raise e => Aborted e s
                | Ok new_href =>
                    if negb (String.eqb new_href href) then
                      let s := emit [PrintUpdatingLink file_path href new_href] s in
                      let s := do_set_attr a "href" new_href s in
                      Done (set_changed s)
                    else Done s
                end
            | None => Done (emit [PrintTargetNotFound file_path href] s)
            end
        end
  end.

(** The new value of a bare-filename [src]. *)
Definition asset_src (src : string) : string :=
  let '(base, _) := posixpath.splitext src in
  "../Assets/" +:+ base +:+ "@2x.png".

(** The body of the loop over the [<img>] tags. The test [new_src != src] is
    kept as the source has it, although a [new_src] always has a separator
    and a [src] that gets there has none. *)
Definition fix_img (file_path : string) (s : state) (img : tag_id) : outcome :=
  match tag_attr img "src" (soup s) with
  | None => Aborted KeyError s
  | Some src =>
      if is_external_src src then Done s
      else if negb (Str.contains "/" src) then
        let new_src := asset_src src in
        if negb (String.eqb new_src src) then
          let s := emit [PrintUpdatingImg file_path src new_src] s in
          let s := do_set_attr img "src" new_src s in
          Done (set_changed s)
        else Done s
      else Done s
  end.

Definition book : string := "The-Swift-Programming-Language.html".

Definition unwanted_texts : list string :=
  ["{}"; "(scope:global){(disabled)(disabled)(disabled)}"].

(** [''.join(text.split())] *)
Definition normalize (text : string) : string := Str.join "" (Str.split_ws text).

(** The body of the loop over the citations: [span.decompose()] on a span
    that left the tree with an outer one changes nothing more, and [changed] is
    set all the same. *)
Definition remove_citation (s : state) (span : tag_id) : state :=
  set_changed (do_decompose span s).

Definition remove_citations (s : state) : state :=
  let citations := find_all is_citation (soup s) in
  foldl remove_citation s citations.

Definition remove_topics (s : state) : state :=
  match head (find_all is_h2_topics (soup s)) with
  | Some h2_topics =>
      if String.eqb (tag_text h2_topics (soup s)) "Topics"
      then set_changed (do_decompose h2_topics s)
      else s
  | None => s
  end.

Definition rename_h3 (s : state) (h3 : tag_id) : state :=
  set_changed (do_set_name h3 "h2" s).

Definition rename_h3s (s : state) : state :=
  let h3_tags := find_all is_h3 (soup s) in
  foldl rename_h3 s h3_tags.

(** The body of the loop over the paragraphs: the text is the one the
    paragraph has when its turn comes. *)
Definition remove_paragraph (file_path : string) (s : state) (p : tag_id) : state :=
  let normalized := normalize (tag_text p (soup s)) in
  if bool_decide (normalized ∈ unwanted_texts) then
    let s := emit [PrintRemovingP file_path (tag_text p (soup s))] s in
    set_changed (do_decompose p s)
  else s.

Definition remove_paragraphs (file_path : string) (s : state) : state :=
  let p_tags := find_all is_p (soup s) in
  foldl (remove_paragraph file_path) s p_tags.

(** The additional transformations of the book, up to the paragraphs. *)
Definition book_edits_before_paragraphs (s : state) : state :=
  rename_h3s (remove_topics (remove_citations s)).

Definition book_edits (file_path : string) (s : state) : state :=
  if String.eqb (posixpath.basename file_path) book
  then remove_paragraphs file_path (book_edits_before_paragraphs s)
  else s.

(** The end: the file is written when [changed] is set. The write is taken
    to succeed here; [fix_links_in_html_on_disk] below has the write that can
    raise. *)
Definition write_back (file_path : string) (s : state) : state :=
  if changed s
  then emit [WriteFile file_path (soup s); PrintUpdatedFile file_path] s
  else emit [PrintNoChanges file_path] s.

Definition fix_a_tags (w : World) (file_path project_root : string)
    (index : gmap string (list string)) (s : state) : outcome :=
  for_each (fix_a w file_path project_root index) (find_all is_a_href (soup s)) s.

Definition fix_img_tags (file_path : string) (s : state) : outcome :=
  for_each (fix_img file_path) (find_all is_img_src (soup s)) s.

(** [content] is the document as parsed from the file: this is the function
    from line 69 on, for a file that is read and can be written;
    [fix_links_in_html_on_disk] below is the whole of it, with the opening,
    the reading and the writing of the file and their exceptions. *)
Definition fix_links_in_html (w : World) (file_path project_root : string)
    (index : gmap string (list string)) (content : list node) : outcome :=
  match fix_a_tags w file_path project_root index (State content false []) with
  | Aborted e s => Aborted e s
  | Done s =>
      match fix_img_tags file_path s with
      | Aborted e s => Aborted e s
      | Done s => Done (write_back file_path (book_edits file_path s))
      end
  end.

(** ** Induction over a node and its contents *)

Section node_induction.
Variables (P : node → Prop) (Q : list node → Prop).
Hypothesis HText : ∀ s, P (Text s).
Hypothesis HComment : ∀ s, P (Comment s).
Hypothesis HTag : ∀ i name attrs contents, Q contents → P (Tag i name attrs contents).
Hypothesis Hnil : Q [].
Hypothesis Hcons : ∀ n l, P n → Q l → Q (n :: l).

Fixpoint node_forest_ind (n : node) : P n :=
  match n with
  | Text s => HText s
  | Comment s => HComment s
  | Tag i name attrs contents =>
      HTag i name attrs contents
        ((fix go (l : list node) : Q l :=
            match l with
            | [] => Hnil
            | x :: l' => Hcons x l' (node_forest_ind x) (go l')
            end) contents)
  end.

Definition forest_ind (l : list node) : Q l :=
  (fix go (l : list node) : Q l :=
     match l with
     | [] => Hnil
     | x :: l' => Hcons x l' (node_forest_ind x) (go l')
     end) l.
End node_induction.

(** ** Views of the tags, for the statements *)

Definition passes (p : string → gmap string string → bool) (t : tag_info) : bool :=
  p (t_name t) (t_attrs t).

(** What [tag[key] = value] and [tag.name = name] do to one tag. *)
Definition with_attr (i : tag_id) (key value : string) (t : tag_info) : tag_info :=
  TagInfo (t_id t) (t_name t)
          (if Nat.eqb (t_id t) i then <[key := value]> (t_attrs t) else t_attrs t).

Definition with_name (i : tag_id) (name : string) (t : tag_info) : tag_info :=
  TagInfo (t_id t) (if Nat.eqb (t_id t) i then name else t_name t) (t_attrs t).

(** The first tag with the identity [i]. *)
Definition first_tag (i : tag_id) (ts : list tag_info) : option tag_info :=
  List.find (λ t, Nat.eqb (t_id t) i) ts.

(** [lookup_tag] finds a tag of that identity: the first one. *)
Definition found_first (i : tag_id) (found : option node) (ts : list tag_info) : Prop :=
  match found with
  | Some (Tag j name attrs _) => j = i ∧ first_tag i ts = Some (TagInfo i name attrs)
  | Some _ => False
  | None => first_tag i ts = None
  end.

(** Every tag of identity [i] has the value [v] (or, for [None], no value)
    for the attribute [key]. *)
Definition attr_is (i : tag_id) (key : string) (v : option string)
    (l : list node) : Prop :=
  ∀ t, t ∈ tags l → t_id t = i → t_attrs t !! key = v.

(** Every tag of identity [i] has the name [name]. *)
Definition name_is (i : tag_id) (name : string) (l : list node) : Prop :=
  ∀ t, t ∈ tags l → t_id t = i → t_name t = name.

(** The identities of the tags of a parsed document are distinct. *)
Definition ids_unique (l : list node) : Prop := NoDup (map t_id (tags l)).

(** The value the [<img>] loop is to leave in a [src]. *)
Definition expected_src (src : string) : string :=
  if Str.startswith src "http://" || Str.startswith src "https://" then src
  else if Str.contains "/" src then src
  else "../Assets/" +:+ fst (posixpath.splitext src) +:+ "@2x.png".

(** The events that change the parsed document. *)
Definition is_mutation (e : event) : bool :=
  match e with
  | SetAttr _ _ _ | Decompose _ | SetName _ _ => true
  | _ => false
  end.

Definition is_write (e : event) : bool :=
  match e with
  | WriteFile _ _ => true
  | _ => false
  end.

(** [changed] is set exactly when the document was changed, and nothing was
    written yet. *)
Definition changed_tracks (content : list node) (s : state) : Prop :=
  changed s = existsb is_mutation (trace s)
  ∧ (existsb is_mutation (trace s) = false → soup s = content)
  ∧ existsb is_write (trace s) = false.

(** ** The paragraph rule, as the specification words it *)

(** The text content of a node: all its strings, one after the other. *)
Definition text_content (n : node) : string := Str.join "" (all_strings n).

(** A paragraph whose text content, all white space removed, is one of the
    two literals. *)
Definition is_unwanted_paragraph (n : node) : bool :=
  match n with
  | Tag _ name _ _ =>
      String.eqb name "p"
      && bool_decide (Str.remove_ws (text_content n) ∈ unwanted_texts)
  | _ => false
  end.

(** The document without its unwanted paragraphs. *)
Fixpoint without_unwanted_in (n : node) : option node :=
  match n with
  | Tag i name attrs contents =>
      if is_unwanted_paragraph n then None
      else Some (Tag i name attrs (omap without_unwanted_in contents))
  | _ => Some n
  end.

Definition without_unwanted_paragraphs (soup : list node) : list node :=
  omap without_unwanted_in soup.

(** One round of the paragraph loop, on the document alone. *)
Definition paragraph_round (soup : list node) (p : tag_id) : list node :=
  if bool_decide (normalize (tag_text p soup) ∈ unwanted_texts)
  then decompose p soup else soup.

(** The identities of the tags of a document, in document order. *)
Definition ids (l : list node) : list tag_id := map t_id (tags l).

(** The two loops over the attributes, one after the other. *)
Definition fix_attributes (w : World) (file_path project_root : string)
    (index : gmap string (list string)) (content : list node) : outcome :=
  match fix_a_tags w file_path project_root index (State content false []) with
  | Aborted e s => Aborted e s
  | Done s => fix_img_tags file_path s
  end.

(** ** A second pass *)

(** Every tag of the document satisfies [P]. *)
Definition all_tags (P : tag_info → Prop) (l : list node) : Prop :=
  ∀ t, t ∈ tags l → P t.

(** A src that the [<img>] loop leaves alone. *)
Definition settled_src (src : string) : Prop :=
  is_external_src src = true ∨ Str.contains "/" src = true.

(** A tag that the [<img>] loop leaves alone. *)
Definition settled (t : tag_info) : Prop :=
  is_img_src (t_name t) (t_attrs t) = true →
  ∃ src, t_attrs t !! "src" = Some src ∧ settled_src src.

(** A tag that the filter [p] does not select. *)
Definition fails (p : string → gmap string string → bool) (t : tag_info) : Prop :=
  p (t_name t) (t_attrs t) = false.

(** ** A small site, for the examples *)

Definition site_files : list string :=
  ["/r/a/B.html"; "/r/x/B.html"; "/r/sub/A.html"; "/r/logo.png";
   "/r/The-Swift-Programming-Language.html"].

Definition site_dirs : list string :=
  ["/r"; "/r/"; "/r/a"; "/r/img"; "/r/sub"; "/r/x"].

Definition site : World := {|
  cwd := "/r";
  stat := λ path,
    if bool_decide (path ∈ site_files) then Some RegularFile
    else if bool_decide (path ∈ site_dirs) then Some Directory
    else None
|}.

(** What [os.walk("/r")] yields there. *)
Definition site_walk : list (string * list string * list string) :=
  [("/r", ["a"; "img"; "sub"; "x"],
    ["The-Swift-Programming-Language.html"; "logo.png"]);
   ("/r/a", [], ["B.html"]);
   ("/r/img", [], []);
   ("/r/sub", [], ["A.html"]);
   ("/r/x", [], ["B.html"])].

Definition site_index : gmap string (list string) :=
  {[ "The-Swift-Programming-Language.html" := ["The-Swift-Programming-Language.html"];
     "B.html" := ["a/B.html"; "x/B.html"];
     "A.html" := ["sub/A.html"] ]}.

(** The document of [/r/sub/A.html]. *)
Definition page : list node :=
  [Tag 0 "p" ∅
     [Tag 1 "a" {[ "href" := "x/B.html" ]} [Text "B"];
      Tag 2 "img" {[ "src" := "Foo.png" ]} [];
      Tag 3 "a" {[ "href" := "#top" ]} [Text "top"];
      Tag 4 "a" {[ "href" := "nope.html" ]} [Text "?"];
      Tag 5 "img" {[ "src" := "sub/Foo.png" ]} []]].

(** A document in which every link and image is as the loops leave them. *)
Definition clean_page : list node :=
  [Tag 0 "p" ∅
     [Tag 1 "a" {[ "href" := "../a/B.html" ]} [Text "B"];
      Tag 2 "img" {[ "src" := "../Assets/Foo@2x.png" ]} []]].

(** Documents of the book. *)
Definition book_page : list node :=
  [Tag 0 "h2" {[ "id" := "topics" ]} [Text "Topics"];
   Tag 1 "p" ∅ [Text " { "; Text "
} "];
   Tag 2 "p" ∅ [Text "Swift"; Tag 3 "span" {[ "class" := "citation" ]} [Text "c"]];
   Tag 4 "h3" ∅ [Text "Basics"]].

Definition book_heading : list node :=
  [Tag 0 "h3" {[ "id" := "topics" ]} [Text "Topics"]].

Definition book_nested : list node :=
  [Tag 0 "p" ∅ [Text "{"; Tag 1 "p" ∅ [Text "{}"]; Text "}"]].

(** The mutating events of a trace. *)
Definition mutations (tr : list event) : list event := List.filter is_mutation tr.

(** A second pass over the document that a first pass ends with. *)
Definition second_pass (w : World) (file_path project_root : string)
    (index : gmap string (list string)) (content : list node) : outcome :=
  fix_links_in_html w file_path project_root index
    (soup (final (fix_links_in_html w file_path project_root index content))).

Definition is_done (o : outcome) : bool :=
  match o with
  | Done _ => true
  | Aborted _ _ => false
  end.

Definition book_path : string := "/r/The-Swift-Programming-Language.html".

(** The files that [os.walk] yields, each with its directory, in the order of
    the traversal. *)
Definition walk_files (walk : list (string * list string * list string))
  : list (string * string) :=
  flat_map (λ '(root, dirs, files), map (λ file, (root, file)) files) walk.

(** The files of the traversal that are named [base], in that order. *)
Definition files_named (base : string) (entries : list (string * string))
  : list (string * string) :=
  List.filter (λ '(root, file), String.eqb file base) entries.

(** The path of a file of the traversal relative to the root. *)
Definition entry_relpath (w : World) (project_root : string)
    (entry : string * string) : result string :=
  posixpath.relpath (cwd w) (posixpath.join entry.1 entry.2) project_root.

(** What the index holds for a name after some files of the traversal. *)
Definition index_in_order (w : World) (project_root : string)
    (entries : list (string * string)) (index : gmap string (list string)) : Prop :=
  ∀ base,
    match index !! base with
    | Some targets =>
        map Ok targets
        = map (entry_relpath w project_root) (files_named base entries)
    | None =>
        Str.endswith (Str.lower base) ".html" = true → files_named base entries = []
    end.

(** ** Plain paths *)

(** A plain component of a path: not empty, without separator, and neither
    [.] nor [..]. *)
Definition is_comp (c : string) : Prop :=
  c ≠ "" ∧ Str.contains "/" c = false ∧ c ≠ "." ∧ c ≠ "..".

(** ["/" + b] for every [b], one after the other. *)
Definition tails (p : list string) : string :=
  fold_right (λ b r, "/" +:+ b +:+ r) "" p.

(** No entry of the index is an empty list: what [build_html_index] builds. *)
Definition index_nonempty (index : gmap string (list string)) : Prop :=
  ∀ base targets, index !! base = Some targets → targets ≠ [].

(** Every tag of the list is there, and passes the filter [p]. *)
Definition all_there (p : string → gmap string string → bool)
    (l : list tag_id) (soup : list node) : Prop :=
  ids_unique soup
  ∧ ∀ x, x ∈ l → ∃ t, t ∈ tags soup ∧ t_id t = x ∧ p (t_name t) (t_attrs t) = true.

(** Every assignment of the trace is one of a href or of a src, and comes with
    the print of the value it replaces, which is another one. *)
Definition assignments_real (file_path : string) (tr : list event) : Prop :=
  ∀ i key v, SetAttr i key v ∈ tr →
    ∃ old, old ≠ v
      ∧ (key = "href" ∧ PrintUpdatingLink file_path old v ∈ tr
         ∨ key = "src" ∧ PrintUpdatingImg file_path old v ∈ tr).

(** A file of the traversal in a plain directory under the plain root
    [tails rc], with a plain name. *)
Definition plain_under (rc : list string) (entry : string * string) : Prop :=
  ∃ dc, Forall is_comp dc ∧ entry.1 = tails (rc ++ dc) ∧ is_comp entry.2.

(** The full path of a file of the traversal: [os.path.join(root, file)]. *)
Definition full_path (entry : string * string) : string :=
  posixpath.join entry.1 entry.2.

(** The path [t] is the one of the plain file [entry] relative to the root
    [tails rc]. *)
Definition path_of (rc : list string) (t : string) (entry : string * string) : Prop :=
  ∃ dc, Forall is_comp dc ∧ entry.1 = tails (rc ++ dc) ∧ is_comp entry.2
        ∧ t = Str.join "/" (dc ++ [entry.2]).

(** A segment of a path: not empty and without separator ([.] and [..] are
    segments too). *)
Definition is_seg (c : string) : Prop := c ≠ "" ∧ Str.contains "/" c = false.

(** ** What a pass keeps of the document *)

(** The tag [t'] of the document at the end is the tag [t] of the document
    that was read: the same object, under the same name (in the book an [h3]
    may have become an [h2]), with the same attributes but for the href of
    an [<a>] and the src of an [<img>]. *)
Definition comes_from (in_book : bool) (t t' : tag_info) : Prop :=
  t_id t' = t_id t
  ∧ (t_name t' = t_name t
     ∨ in_book = true ∧ t_name t = "h3" ∧ t_name t' = "h2")
  ∧ ∀ key, (t_name t, key) ≠ ("a", "href") → (t_name t, key) ≠ ("img", "src") →
      t_attrs t' !! key = t_attrs t !! key.

(** The tags of [soup] are tags of [content], in the order they have there;
    outside the book they are all of them. *)
Definition kept_from (in_book : bool) (content soup : list node) : Prop :=
  ∃ sub, sub `sublist_of` tags content
    ∧ Forall2 (comes_from in_book) sub (tags soup)
    ∧ (in_book = false → sub = tags content).

(** The events of the end of a pass: the file written and the last line
    printed. *)
Definition is_report (e : event) : bool :=
  match e with
  | WriteFile _ _ | PrintUpdatedFile _ | PrintNoChanges _ => true
  | _ => false
  end.

(** An index with an empty entry, as [build_html_index] builds none, and a
    document with a link to that name. *)
Definition broken_index : gmap string (list string) := {[ "C.html" := [] ]}.

Definition lone_link : list node :=
  [Tag 0 "a" {[ "href" := "y/B.html" ]} [Text "B"];
   Tag 1 "a" {[ "href" := "C.html" ]} [Text "C"];
   Tag 2 "img" {[ "src" := "Foo.png" ]} []].

(** ** [fix_links_in_html] with its files, and [main] *)

(** What [main] prints and does, in order. *)
Inductive main_event :=
| PrintBuildingIndex (project_root : string)
| PrintIndexBuilt
| PrintIndexEntry (filename : string) (paths : list string)
| PrintProcessing (file_path : string)
| InFile (e : event).                (* what [fix_links_in_html] prints and does *)

(** What stops [fix_links_in_html] and [main]: an exception of the code above,
    one of [open], [read] and the parser at lines 65-68, or one of [open] and
    [write] at lines 139-140. *)
Inductive main_exn :=
| Exn (e : exn)
| ReadError (file_path : string)
| WriteError (file_path : string).

(** The files: the document that the parser makes of what is read at a path,
    and nothing where the file cannot be opened or read. *)
Definition disk := string → option (list node).

(** What [open(file_path, 'w')] and [f.write(str(soup))] come to: the file
    holds [str(soup)], or an exception is raised, which leaves a file that
    reads as [after] (as before when it could not be opened, cut short when the
    writing failed). *)
Inductive write_result :=
| Written
| WriteRaises (after : option (list node)).

(** How a call of [fix_links_in_html] ends: the files, and what was printed
    and done. *)
Inductive pass_outcome :=
| PassDone (d : disk) (tr : list event)
| PassRaised (e : main_exn) (d : disk) (tr : list event).

Definition pass_disk (o : pass_outcome) : disk :=
  match o with
  | PassDone d _ => d
  | PassRaised _ d _ => d
  end.

Definition pass_trace (o : pass_outcome) : list event :=
  match o with
  | PassDone _ tr => tr
  | PassRaised _ _ tr => tr
  end.

Inductive main_outcome :=
| MainDone (d : disk) (tr : list main_event)
| MainRaised (e : main_exn) (d : disk) (tr : list main_event).

Definition main_disk (o : main_outcome) : disk :=
  match o with
  | MainDone d _ => d
  | MainRaised _ d _ => d
  end.

Definition main_trace (o : main_outcome) : list main_event :=
  match o with
  | MainDone _ tr => tr
  | MainRaised _ _ tr => tr
  end.

(** The [.html] files of the traversal, each with its directory. *)
Definition html_entries (walk : list (string * list string * list string))
  : list (string * string) :=
  List.filter (λ '(root, file), Str.endswith (Str.lower file) ".html")
              (walk_files walk).

(** The keys of the index in the order of [index.items()]: a dict keeps its
    keys in the order of their insertion, here that of the first file of each
    name. *)
Definition index_keys (walk : list (string * list string * list string))
  : list string :=
  foldl (λ keys '(root, file),
           if bool_decide (file ∈ keys) then keys else keys ++ [file])
        [] (html_entries walk).

(** The files with [content] at [file_path]. *)
Definition set_file (file_path : string) (content : option (list node)) (d : disk)
  : disk :=
  λ p, if String.eqb p file_path then content else d p.

Section main.
(** [reparse soup] is the document that the parser makes of [str(soup)], which
    is what a file holds once it is written. *)
Variable reparse : list node → list node.
(** [os_walk top] is what [os.walk(top)] yields; the files that [main] writes
    are files it lists, so that it yields the same both times. *)
Variable os_walk : string → list (string * list string * list string).
(** [try_write file_path soup d] is what becomes of writing [str(soup)] to
    [file_path] when the files are [d]. *)
Variable try_write : string → list node → disk → write_result.

(** [f.write(str(soup))] on a file opened for writing. *)
Definition write_file (file_path : string) (soup : list node) (d : disk) : disk :=
  set_file file_path (Some (reparse soup)) d.

(** [fix_links_in_html(file_path, project_root, index)], whole: the file is
    opened, read and parsed (lines 65-68), the loops and the edits of the book
    run on the parsed document ([fix_attributes] and [book_edits] above), and
    the document is written when [changed] is set (lines 138-143). An
    exception leaves the function at once. Printing is taken to succeed. *)
Definition fix_links_in_html_on_disk (w : World) (file_path project_root : string)
    (index : gmap string (list string)) (d : disk) : pass_outcome :=
  match d file_path with
  | None => PassRaised (ReadError file_path) d []
  | Some content =>
      match fix_attributes w file_path project_root index content with
      | Aborted e s => PassRaised (Exn e) d (trace s)
      | Done s =>
          let s := book_edits file_path s in
          if changed s then
            match try_write file_path (soup s) d with
            | Written =>
                PassDone (write_file file_path (soup s) d)
                         (trace s ++ [WriteFile file_path (soup s);
                                      PrintUpdatedFile file_path])
            | WriteRaises after =>
                PassRaised (WriteError file_path) (set_file file_path after d)
                           (trace s)
            end
          else PassDone d (trace s ++ [PrintNoChanges file_path])
      end
  end.

(** The body of the loop over the files, for an [.html] file of the
    traversal. *)
Definition process_file (w : World) (project_root : string)
    (index : gmap string (list string)) (acc : main_outcome)
    (entry : string * string) : main_outcome :=
  match acc with
  | MainRaised _ _ _ => acc
  | MainDone d tr =>
      let file_path := posixpath.join entry.1 entry.2 in
      let tr := tr ++ [PrintProcessing file_path] in
      match fix_links_in_html_on_disk w file_path project_root index d with
      | PassDone d' out => MainDone d' (tr ++ map InFile out)
      | PassRaised e d' out => MainRaised e d' (tr ++ map InFile out)
      end
  end.

(** [project_root]: the working directory, or [sys.argv[1]] made absolute. *)
Definition main_root (w : World) (argv : list string) : string :=
  match argv with
  | _ :: a :: _ => posixpath.abspath (cwd w) a
  | _ => cwd w
  end.

Definition main (w : World) (d : disk) (argv : list string) : main_outcome :=
  let project_root := main_root w argv in
  let walk := os_walk project_root in
  let tr := [PrintBuildingIndex project_root] in
  match build_html_index w walk project_root with
  | Raise e => MainRaised (Exn e) d tr
  | Ok index =>
      let tr := tr ++ [PrintIndexBuilt]
                   ++ map (λ k, PrintIndexEntry k (default [] (index !! k)))
                          (index_keys walk) in
      foldl (process_file w project_root index) (MainDone d tr) (html_entries walk)
  end.

End main.

(** The files that a trace of [main] says are processed, in order. *)
Definition processed (tr : list main_event) : list string :=
  omap (λ e, match e with PrintProcessing f => Some f | _ => None end) tr.

(** The files of the small site, and its traversal. *)
Definition site_disk : disk :=
  λ p, if String.eqb p "/r/sub/A.html" then Some page
       else if String.eqb p book_path then Some book_page
       else if String.eqb p "/r/a/B.html" then Some clean_page
       else if String.eqb p "/r/x/B.html" then Some []
       else None.

Definition site_os_walk (top : string) : list (string * list string * list string) :=
  if String.eqb top "/r" then site_walk else [].

(** Files that can all be written, and files that cannot be opened for
    writing. *)
Definition all_writable : string → list node → disk → write_result :=
  λ _ _ _, Written.

Definition read_only : string → list node → disk → write_result :=
  λ file_path _ d, WriteRaises (d file_path).

(** The entries of the index that a trace of [main] prints, in order. *)
Definition printed_entries (tr : list main_event) : list (string * list string) :=
  omap (λ e, match e with PrintIndexEntry k paths => Some (k, paths) | _ => None end)
       tr.

(** A disk on which only the book can be read. *)
Definition book_only_disk : disk :=
  λ p, if String.eqb p book_path then Some book_page else None.

(** A disk with the document of the broken link alone. *)
Definition lone_disk : disk :=
  λ p, if String.eqb p "/r/sub/A.html" then Some lone_link else None.

(** Paragraphs of the book with citations: one that reads [{1}], the 1 in a
    citation; one that reads [{}], its second brace in a citation; and one that
    reads [{}] with a paragraph inside. *)
Definition brace_around_citation : node :=
  Tag 0 "p" ∅ [Text "{"; Tag 1 "span" {[ "class" := "citation" ]} [Text "1"];
               Text "}"].

Definition brace_in_citation : node :=
  Tag 2 "p" ∅ [Text "{"; Tag 3 "span" {[ "class" := "citation" ]} [Text "}"]].

Definition brace_around_paragraph : node :=
  Tag 4 "p" ∅ [Text "{"; Tag 5 "p" ∅ [Text "}"]].

Definition book_braces : list node :=
  [brace_around_citation; brace_in_citation; brace_around_paragraph].

(** * Properties *)

(** ** Strings *)

Lemma lstrip_replicate (c : ascii) (s : string) :
  ∃ n, s = Str.replicate n c +:+ Str.lstrip (String c "") s.
Proof.
  induction s as [|a s [n IH]].
  - by exists 0.
  - cbn [Str.lstrip Str.contains].
    destruct (Ascii.eqb c a) eqn:E.
    + apply Ascii.eqb_eq in E as <-. exists (S n).
      change (String c s
              = String c (Str.replicate n c +:+ Str.lstrip (String c "") s)).
      by f_equal.
    + by exists 0.
Qed.

Lemma lstrip_no_leading (c : ascii) (s : string) :
  Str.startswith (Str.lstrip (String c "") s) (String c "") = false.
Proof.
  induction s as [|a s IH]; [done|].
  cbn [Str.lstrip Str.contains].
  destruct (Ascii.eqb c a) eqn:E; [done|].
  unfold Str.startswith. simpl.
  destruct (ascii_dec c a) as [->|]; [|done].
  by rewrite Ascii.eqb_refl in E.
Qed.

Lemma lstrip_idemp (chars s : string) :
  Str.lstrip chars (Str.lstrip chars s) = Str.lstrip chars s.
Proof.
  induction s as [|a s IH]; simpl; [done|].
  destruct (Str.contains a chars) eqn:E; [done|]. simpl. by rewrite E.
Qed.

Lemma string_app_cons a s t : String a s +:+ t = String a (s +:+ t).
Proof. done. Qed.

Lemma string_app_nil_r s : s +:+ "" = s.
Proof. induction s as [|a s IH]; [done|]. by rewrite string_app_cons, IH. Qed.

Lemma string_app_assoc a b c : (a +:+ b) +:+ c = a +:+ b +:+ c.
Proof. induction a as [|x a IH]; [done|]. by rewrite !string_app_cons, IH. Qed.

Lemma string_app_nil_inv (a b : string) : a +:+ b = "" → a = "" ∧ b = "".
Proof. destruct a; simpl; [done|discriminate]. Qed.

Lemma join_nonempty (a b : string) : a ≠ "" → posixpath.join a b ≠ "".
Proof.
  intros Ha. unfold posixpath.join, posixpath.join_list, posixpath.join_step; simpl.
  destruct (Str.startswith b "/") eqn:Hb.
  - destruct b; [discriminate|done].
  - destruct (_ || _); intros [? _]%string_app_nil_inv; done.
Qed.

Lemma relpath_ok (cwd path start : string) :
  path ≠ "" → ∃ rel, posixpath.relpath cwd path start = Ok rel.
Proof.
  intros Hp. unfold posixpath.relpath.
  destruct (String.eqb path "") eqn:E; [by apply String.eqb_eq in E|].
  destruct (_ ++ _); eauto.
Qed.

(** ** Plain paths under the root *)

Lemma split_nosep x : Str.contains "/" x = false → Str.split "/" x = [x].
Proof.
  induction x as [|a x IH]; [done|]. simpl.
  destruct (Ascii.eqb a "/"); [done|]. intros H. by rewrite IH.
Qed.

Lemma split_app_sep x s :
  Str.contains "/" x = false →
  Str.split "/" (x +:+ "/" +:+ s) = x :: Str.split "/" s.
Proof.
  induction x as [|a x IH]; [done|]. rewrite string_app_cons. simpl.
  destruct (Ascii.eqb a "/"); [done|]. intros H. by rewrite IH.
Qed.

Lemma tails_cons b p : tails (b :: p) = "/" +:+ b +:+ tails p.
Proof. done. Qed.

Lemma split_sep_cons s : Str.split "/" ("/" +:+ s) = "" :: Str.split "/" s.
Proof. done. Qed.

Lemma join_sep_cons a p : Str.join "/" (a :: p) = a +:+ tails p.
Proof.
  revert a. induction p as [|b p IH]; intros a.
  - simpl. by rewrite string_app_nil_r.
  - rewrite tails_cons, <- IH. done.
Qed.

Lemma tails_app p q : tails (p ++ q) = tails p +:+ tails q.
Proof.
  induction p as [|b p IH]; [done|].
  rewrite <- app_comm_cons, !tails_cons, IH.
  by rewrite !string_app_assoc.
Qed.

Lemma split_comp_tails b p :
  Forall is_comp (b :: p) → Str.split "/" (b +:+ tails p) = b :: p.
Proof.
  revert b. induction p as [|c p IH]; intros b [Hb Hp]%Forall_cons.
  - simpl. rewrite string_app_nil_r. apply split_nosep, Hb.
  - rewrite tails_cons, split_app_sep by apply Hb. f_equal. by apply IH.
Qed.

Lemma split_tails p :
  Forall is_comp p → p ≠ [] → Str.split "/" (tails p) = "" :: p.
Proof.
  destruct p as [|b p]; [done|]. intros Hp _.
  rewrite tails_cons, split_sep_cons. f_equal. by apply split_comp_tails.
Qed.

Lemma filter_comps p : Forall is_comp p → filter (λ x, x ≠ "") p = p.
Proof.
  induction 1 as [|c p Hc Hp IH]; [done|].
  rewrite filter_cons_True by apply Hc. by f_equal.
Qed.

Lemma nonempty_comps_tails p :
  Forall is_comp p → p ≠ [] → posixpath.nonempty_comps (tails p) = p.
Proof.
  intros Hp Hne. unfold posixpath.nonempty_comps, posixpath.sep.
  rewrite split_tails by done. rewrite filter_cons_False by (by intros ?).
  by apply filter_comps.
Qed.

Lemma normpath_steps_plain n acc p :
  Forall is_comp p → foldl (posixpath.normpath_step n) acc p = acc ++ p.
Proof.
  intros Hp. revert acc. induction Hp as [|c p Hc Hp IH]; intros acc.
  - by rewrite app_nil_r.
  - simpl. rewrite IH.
    replace (acc ++ c :: p) with ((acc ++ [c]) ++ p) by (by rewrite <- app_assoc).
    f_equal. destruct Hc as (H1 & _ & H2 & H3). unfold posixpath.normpath_step.
    apply String.eqb_neq in H1, H2, H3. by rewrite H1, H2, H3.
Qed.

Lemma tails_first p : p ≠ [] → Forall is_comp p →
  ∃ a r, tails p = String "/" (String a r) ∧ a ≠ "/"%char.
Proof.
  destruct p as [|b p]; [done|]. intros _ [Hb _]%Forall_cons.
  destruct Hb as (Hne & Hsep & _). destruct b as [|a b]; [done|].
  exists a, (b +:+ tails p). split; [done|].
  intros ->. simpl in Hsep. done.
Qed.

Lemma startswith_cons a s b p :
  Str.startswith (String a s) (String b p)
  = if Ascii.eqb b a then Str.startswith s p else false.
Proof.
  unfold Str.startswith. simpl. destruct (ascii_dec b a) as [->|Hne].
  - by rewrite Ascii.eqb_refl.
  - apply Ascii.eqb_neq in Hne. by rewrite Hne.
Qed.

Lemma startswith_nil s : Str.startswith s "" = true.
Proof. by destruct s. Qed.

(** A plain absolute path is its own normal form. *)
Lemma normpath_tails p :
  Forall is_comp p → p ≠ [] → posixpath.normpath (tails p) = tails p.
Proof.
  intros Hp Hne. destruct (tails_first p Hne Hp) as (a & r & E & Ha).
  assert (H0 : String.eqb (tails p) "" = false) by by rewrite E.
  assert (H1 : Str.startswith (tails p) "/" = true).
  { by rewrite E, startswith_cons, Ascii.eqb_refl, startswith_nil. }
  assert (H2 : Str.startswith (tails p) "//" = false).
  { rewrite E, !startswith_cons, Ascii.eqb_refl.
    destruct (Ascii.eqb "/" a) eqn:Ea; [|done].
    by apply Ascii.eqb_eq in Ea. }
  unfold posixpath.normpath, posixpath.sep.
  rewrite H0, H1, H2, split_tails by done.
  cbn [andb foldl].
  change (posixpath.normpath_step 1 [] "") with (@nil string).
  rewrite normpath_steps_plain by done. cbn [app].
  destruct p as [|b p]; [done|].
  rewrite join_sep_cons.
  change (Str.replicate 1 "/" +:+ b +:+ tails p) with (tails (b :: p)).
  by rewrite H0.
Qed.

Lemma abspath_tails cwd p :
  Forall is_comp p → p ≠ [] → posixpath.abspath cwd (tails p) = tails p.
Proof.
  intros Hp Hne. destruct (tails_first p Hne Hp) as (a & r & E & Ha).
  unfold posixpath.abspath, posixpath.isabs.
  rewrite E at 1. rewrite startswith_cons, Ascii.eqb_refl, startswith_nil.
  by apply normpath_tails.
Qed.

Lemma commonprefix_len_app l1 l2 :
  posixpath.commonprefix_len l1 (l1 ++ l2) = length l1.
Proof.
  induction l1 as [|x l1 IH]; [by destruct l2|].
  simpl. by rewrite String.eqb_refl, IH.
Qed.

Lemma rev_app_app s1 s2 acc :
  String.rev_app (s1 +:+ s2) acc = String.rev_app s2 (String.rev_app s1 acc).
Proof.
  revert acc. induction s1 as [|a s1 IH]; intros acc; [done|].
  rewrite string_app_cons. simpl. apply IH.
Qed.

Lemma rev_app_first s acc :
  s ≠ "" → ∃ a t, String.rev_app s acc = String a t ∧ Str.contains a s = true.
Proof.
  revert acc. induction s as [|x s IH]; intros acc Hne; [done|]. simpl.
  destruct s as [|y s].
  - exists x, acc. by rewrite Ascii.eqb_refl.
  - destruct (IH (String x acc)) as (a & t & E & Hc); [done|].
    exists a, t. split; [done|]. rewrite Hc. by destruct (Ascii.eqb x a).
Qed.

(** A path that ends with a plain component does not end with a separator. *)
Lemma endswith_comp y c : is_comp c → Str.endswith (y +:+ c) "/" = false.
Proof.
  intros (Hne & Hsep & _). unfold Str.endswith, String.rev.
  rewrite rev_app_app.
  destruct (rev_app_first c (String.rev_app y "") Hne) as (a & t & -> & Hc).
  change (String.rev_app "/" "") with "/".
  fold (Str.startswith (String a t) "/"). rewrite startswith_cons.
  destruct (Ascii.eqb "/" a) eqn:E; [|done].
  apply Ascii.eqb_eq in E as <-. congruence.
Qed.

Lemma comp_startswith c s : is_comp c → Str.startswith (c +:+ s) "/" = false.
Proof.
  intros (Hne & Hsep & _). destruct c as [|x c]; [done|].
  rewrite string_app_cons, startswith_cons. simpl in Hsep.
  rewrite Ascii.eqb_sym. by destruct (Ascii.eqb x "/").
Qed.

Lemma app_comp_nonempty y c : is_comp c → String.eqb (y +:+ c) "" = false.
Proof.
  intros (Hne & _). apply String.eqb_neq. intros [_ ?]%string_app_nil_inv. done.
Qed.

Lemma join_step_comp y c b s :
  is_comp c → is_comp b →
  posixpath.join_step (y +:+ c) (b +:+ s) = (y +:+ c) +:+ "/" +:+ b +:+ s.
Proof.
  intros Hc Hb. unfold posixpath.join_step.
  by rewrite comp_startswith, app_comp_nonempty, endswith_comp.
Qed.

Lemma join_list_comps y c p :
  is_comp c → Forall is_comp p →
  posixpath.join_list (y +:+ c) p = (y +:+ c) +:+ tails p.
Proof.
  intros Hc Hp. revert y c Hc. unfold posixpath.join_list.
  induction Hp as [|b p Hb Hp IH]; intros y c Hc.
  - simpl. by rewrite string_app_nil_r.
  - simpl. rewrite <- (string_app_nil_r b) at 1.
    rewrite join_step_comp, string_app_nil_r by done.
    rewrite <- (string_app_assoc (y +:+ c) "/" b), IH by done.
    by rewrite !string_app_assoc.
Qed.

Lemma tails_last p :
  Forall is_comp p → p ≠ [] → ∃ y c, tails p = y +:+ c ∧ is_comp c.
Proof.
  intros Hp Hne. destruct (exists_last Hne) as (p' & c & ->).
  apply Forall_app in Hp as [_ Hc]. apply Forall_cons in Hc as [Hc _].
  exists (tails p' +:+ "/"), c. split; [|done].
  rewrite tails_app. simpl. by rewrite string_app_nil_r, !string_app_assoc.
Qed.

(** Joining a plain relative path to a plain absolute one. *)
Lemma join_tails rc hc :
  Forall is_comp rc → rc ≠ [] → Forall is_comp hc → hc ≠ [] →
  posixpath.join (tails rc) (Str.join "/" hc) = tails (rc ++ hc).
Proof.
  intros Hrc Hrne Hhc Hhne.
  destruct (tails_last rc Hrc Hrne) as (y & c & E & Hc).
  destruct hc as [|h hp]; [done|]. apply Forall_cons in Hhc as [Hh Hhp].
  unfold posixpath.join, posixpath.join_list. cbn [foldl].
  rewrite join_sep_cons, tails_app, tails_cons, E.
  by rewrite join_step_comp.
Qed.

(** The path of a plain path under a plain root, relative to that root, is
    the plain path. *)
Lemma relpath_under_root cwd rc hc :
  Forall is_comp rc → rc ≠ [] → Forall is_comp hc → hc ≠ [] →
  posixpath.relpath cwd (posixpath.join (tails rc) (Str.join "/" hc)) (tails rc)
  = Ok (Str.join "/" hc).
Proof.
  intros Hrc Hrne Hhc Hhne. rewrite join_tails by done.
  assert (Hall : Forall is_comp (rc ++ hc)) by by apply Forall_app.
  assert (Hne : rc ++ hc ≠ []) by by destruct rc.
  unfold posixpath.relpath.
  destruct (tails_first _ Hne Hall) as (a & r & E & _).
  rewrite E at 1. cbn [String.eqb].
  rewrite !abspath_tails, !nonempty_comps_tails by done.
  rewrite commonprefix_len_app, Nat.sub_diag, drop_app_length. simpl.
  destruct hc as [|h hp]; [done|]. apply Forall_cons in Hhc as [Hh Hhp].
  change (posixpath.join_list h hp) with (posixpath.join_list ("" +:+ h) hp).
  rewrite join_list_comps by done. by rewrite join_sep_cons.
Qed.

(** ** The index *)

(** Every key of the index names an HTML file, and no entry is empty. *)
Definition index_html_only (index : gmap string (list string)) : Prop :=
  ∀ base targets, index !! base = Some targets →
    Str.endswith (Str.lower base) ".html" = true ∧ targets ≠ [].

Lemma index_file_html_only w project_root root acc file index' :
  (∀ index, acc = Ok index → index_html_only index) →
  index_file w project_root root acc file = Ok index' →
  index_html_only index'.
Proof.
  intros Hacc. unfold index_file. destruct acc as [index|e]; [|done].
  specialize (Hacc index eq_refl).
  destruct (Str.endswith _ _) eqn:Hsuf; [|by intros [= <-]].
  destruct (posixpath.relpath _ _ _) as [rel|]; [|done].
  intros [= <-] base targets. unfold index_append.
  destruct (decide (file = base)) as [->|Hne].
  - rewrite lookup_insert_eq. intros [= <-]. split; [done|].
    by destruct (default [] (index !! base)).
  - rewrite lookup_insert_ne by done. apply Hacc.
Qed.

Lemma index_files_html_only w project_root root files acc index' :
  (∀ index, acc = Ok index → index_html_only index) →
  foldl (index_file w project_root root) acc files = Ok index' →
  index_html_only index'.
Proof.
  revert acc. induction files as [|file files IH]; intros acc Hacc; simpl.
  - intros ->. by apply Hacc.
  - apply IH. intros index Hi. by eapply index_file_html_only.
Qed.

Lemma build_html_index_html_only w walk project_root index :
  build_html_index w walk project_root = Ok index → index_html_only index.
Proof.
  unfold build_html_index.
  assert (Hacc : ∀ index0 : gmap string (list string),
             Ok (∅ : gmap string (list string)) = Ok index0 → index_html_only index0).
  { intros ? [= <-] base targets. by rewrite lookup_empty. }
  revert Hacc. generalize (Ok (∅ : gmap string (list string))).
  induction walk as [|[[root dirs] files] walk IH]; intros acc Hacc; simpl.
  - intros ->. by apply Hacc.
  - apply IH. intros index0 Hi. by eapply index_files_html_only.
Qed.

(** ** The order of the index *)

Lemma build_html_index_flat w walk project_root :
  build_html_index w walk project_root
  = foldl (λ acc '(root, file), index_file w project_root root acc file)
          (Ok ∅) (walk_files walk).
Proof.
  unfold build_html_index. generalize (Ok (∅ : gmap string (list string))).
  induction walk as [|[[root dirs] files] walk IH]; intros acc; [done|].
  simpl. rewrite foldl_app, IH. f_equal.
  clear. revert acc. induction files as [|file files IH]; intros acc; [done|].
  simpl. apply IH.
Qed.


Lemma files_named_snoc base entries root file :
  files_named base (entries ++ [(root, file)])
  = files_named base entries
    ++ (if String.eqb file base then [(root, file)] else []).
Proof. unfold files_named. by rewrite List.filter_app. Qed.

Lemma index_in_order_step w project_root entries index root file index' :
  index_html_only index →
  index_in_order w project_root entries index →
  index_file w project_root root (Ok index) file = Ok index' →
  index_in_order w project_root (entries ++ [(root, file)]) index'.
Proof.
  intros Hhtml H. unfold index_file.
  destruct (Str.endswith (Str.lower file) ".html") eqn:Hsuf.
  - destruct (posixpath.relpath _ _ _) as [rel|] eqn:Hrel; [|done].
    intros [= <-] base. rewrite files_named_snoc. specialize (H base).
    unfold index_append. destruct (String.eqb file base) eqn:E.
    + apply String.eqb_eq in E as ->. rewrite lookup_insert_eq.
      rewrite !map_app. simpl. unfold entry_relpath at 2. simpl. rewrite Hrel.
      destruct (index !! base) as [targets|]; simpl.
      * by rewrite H.
      * by rewrite H.
    + apply String.eqb_neq in E. rewrite lookup_insert_ne by done.
      by rewrite app_nil_r.
  - intros [= <-] base. rewrite files_named_snoc. specialize (H base).
    destruct (String.eqb file base) eqn:E; [|by rewrite app_nil_r].
    apply String.eqb_eq in E as ->.
    destruct (index !! base) as [targets|] eqn:Hb; [|intros; congruence].
    destruct (Hhtml base targets Hb). congruence.
Qed.

Lemma index_in_order_entries w project_root entries index :
  foldl (λ acc '(root, file), index_file w project_root root acc file)
        (Ok ∅) entries = Ok index →
  index_html_only index ∧ index_in_order w project_root entries index.
Proof.
  revert index. induction entries as [|[root file] entries IH] using rev_ind;
    intros index.
  - intros [= <-]. split.
    + intros base targets. by rewrite lookup_empty.
    + intros base. by rewrite lookup_empty.
  - rewrite foldl_app. simpl.
    destruct (foldl _ _ entries) as [index0|] eqn:E; [|done].
    destruct (IH index0 eq_refl) as [Hhtml Horder]. intros Hstep. split.
    + eapply index_file_html_only; [|done]. by intros ? [= <-].
    + by eapply index_in_order_step.
Qed.

(** The entries of the index for a name are the paths of the files of that
    name, in the order of the traversal. *)
Lemma build_html_index_order w walk project_root index base targets :
  build_html_index w walk project_root = Ok index →
  index !! base = Some targets →
  map Ok targets
  = map (entry_relpath w project_root) (files_named base (walk_files walk)).
Proof.
  rewrite build_html_index_flat. intros [_ H]%index_in_order_entries Hb.
  specialize (H base). by rewrite Hb in H.
Qed.

(** ** [find_target_path] *)

Lemma find_target_path_exists w href index project_root :
  path_exists w (posixpath.join project_root (normalized_href href)) = true →
  find_target_path w href index project_root =
    ([], result_map Some
           (posixpath.relpath (cwd w)
              (posixpath.join project_root (normalized_href href)) project_root)).
Proof. intros H. unfold find_target_path. by rewrite H. Qed.

(** C1: a href that, taken literally under the root (leading separators
    stripped), names something that exists resolves to the path of that
    candidate relative to the root, with no warning, whatever the index holds
    for its basename: also when the basename has several entries. When the
    root and the stripped href are made of plain components, that path is the
    stripped href itself. *)
Theorem find_target_path_exact_match_first w href index project_root :
  path_exists w (posixpath.join project_root (normalized_href href)) = true →
  project_root ≠ "" →
  ∃ rel,
    posixpath.relpath (cwd w)
      (posixpath.join project_root (normalized_href href)) project_root = Ok rel
    ∧ find_target_path w href index project_root = ([], Ok (Some rel))
    ∧ (∀ index', find_target_path w href index' project_root
                 = find_target_path w href index project_root)
    ∧ ∀ rc hc,
        Forall is_comp rc → rc ≠ [] → Forall is_comp hc → hc ≠ [] →
        project_root = tails rc → normalized_href href = Str.join "/" hc →
        rel = normalized_href href.
Proof.
  intros Hex Hroot.
  destruct (relpath_ok (cwd w)
              (posixpath.join project_root (normalized_href href)) project_root)
    as [rel Hrel]; [by apply join_nonempty|].
  exists rel. split; [done|]. split; [|split].
  - by rewrite find_target_path_exists, Hrel.
  - intros index'. by rewrite !find_target_path_exists.
  - intros rc hc Hrc Hrne Hhc Hhne -> Hnh. rewrite Hnh in *.
    rewrite relpath_under_root in Hrel by done. congruence.
Qed.

(** C2: when nothing exists at the literal path and the basename has more than
    one entry in the index, the first entry is returned and one warning is
    printed that names the basename and all of its candidates. In the index
    that [build_html_index] builds the entries are the paths of the files of
    that name in the order of the traversal, so that the first entry is the
    first such file that [os.walk] yields. *)
Theorem find_target_path_ambiguous w href index project_root targets :
  path_exists w (posixpath.join project_root (normalized_href href)) = false →
  index !! posixpath.basename (normalized_href href) = Some targets →
  1 < length targets →
  (∃ first rest,
     targets = first :: rest
     ∧ find_target_path w href index project_root =
         ([PrintWarnMultiple (posixpath.basename (normalized_href href)) targets],
          Ok (Some first)))
  ∧ ∀ walk,
      build_html_index w walk project_root = Ok index →
      map Ok targets
      = map (entry_relpath w project_root)
          (files_named (posixpath.basename (normalized_href href))
             (walk_files walk)).
Proof.
  intros Hex Hidx Hlen. split.
  - unfold find_target_path. rewrite Hex, Hidx.
    destruct targets as [|first rest]; simpl in *; [lia|].
    exists first, rest. split; [done|].
    destruct (1 <? S (length rest)) eqn:E; [done|].
    apply Nat.ltb_ge in E. lia.
  - intros walk Hbuilt. by eapply build_html_index_order.
Qed.

(** C3 as amended: the normalisation strips every leading separator, not just
    one: the href is some number of separators followed by the normalised
    href, which starts with none; the resolution sees the href only through
    it. *)
Theorem normalized_href_strips_all w href index project_root :
  (∃ n, href = Str.replicate n "/" +:+ normalized_href href)
  ∧ Str.startswith (normalized_href href) "/" = false
  ∧ find_target_path w href index project_root
    = find_target_path w (normalized_href href) index project_root.
Proof.
  split; [apply lstrip_replicate|]. split; [apply lstrip_no_leading|].
  unfold find_target_path, normalized_href. by rewrite lstrip_idemp.
Qed.

(** C10: the exact-match branch asks only whether something exists at the
    path: a directory or a file that is not HTML resolves as well, although
    the index that [build_html_index] builds has keys ending in [.html]
    only. *)
Theorem find_target_path_exact_any_kind w href index project_root kind :
  stat w (posixpath.join project_root (normalized_href href)) = Some kind →
  project_root ≠ "" →
  (∃ rel,
     posixpath.relpath (cwd w)
       (posixpath.join project_root (normalized_href href)) project_root = Ok rel
     ∧ find_target_path w href index project_root = ([], Ok (Some rel)))
  ∧ ∀ walk built,
      build_html_index w walk project_root = Ok built → index_html_only built.
Proof.
  intros Hstat Hroot. split.
  - destruct (relpath_ok (cwd w)
                (posixpath.join project_root (normalized_href href)) project_root)
      as [rel Hrel]; [by apply join_nonempty|].
    exists rel. split; [done|].
    rewrite find_target_path_exists, Hrel; [done|].
    unfold path_exists. by rewrite Hstat.
  - intros walk built. apply build_html_index_html_only.
Qed.

(** ** The document tree *)

Lemma tags_cons n l : tags (n :: l) = tags_of n ++ tags l.
Proof. done. Qed.

Lemma tags_app l1 l2 : tags (l1 ++ l2) = tags l1 ++ tags l2.
Proof. unfold tags. by rewrite flat_map_app. Qed.

Lemma find_all_in_tags p n :
  find_all_in p n = map t_id (List.filter (passes p) (tags_of n)).
Proof.
  induction n using node_forest_ind
    with (Q := λ l, find_all p l = map t_id (List.filter (passes p) (tags l)));
    try done.
  - simpl. fold (find_all p contents). fold (tags contents). rewrite IHn.
    unfold passes at 2. simpl. by destruct (p name attrs).
  - rewrite tags_cons, List.filter_app, map_app, <- IHn, <- IHn0. done.
Qed.

Lemma find_all_tags p l :
  find_all p l = map t_id (List.filter (passes p) (tags l)).
Proof.
  induction l as [|n l IH]; [done|].
  rewrite tags_cons, List.filter_app, map_app, <- IH, <- find_all_in_tags. done.
Qed.

Lemma set_attr_cons i key value n l :
  set_attr i key value (n :: l) = set_attr_in i key value n :: set_attr i key value l.
Proof. done. Qed.

Lemma set_name_cons i name n l :
  set_name i name (n :: l) = set_name_in i name n :: set_name i name l.
Proof. done. Qed.

Lemma decompose_cons i n l :
  decompose i (n :: l) = option_list (decompose_in i n) ++ decompose i l.
Proof. unfold decompose. simpl. by destruct (decompose_in i n). Qed.

Lemma tags_of_tag i name attrs contents :
  tags_of (Tag i name attrs contents) = TagInfo i name attrs :: tags contents.
Proof. done. Qed.

Lemma tags_one n : tags [n] = tags_of n.
Proof. unfold tags. simpl. apply app_nil_r. Qed.

Lemma tags_set_attr_in i key value n :
  tags_of (set_attr_in i key value n) = map (with_attr i key value) (tags_of n).
Proof.
  induction n using node_forest_ind
    with (Q := λ l, tags (set_attr i key value l)
                    = map (with_attr i key value) (tags l)); try done.
  - simpl. fold (set_attr i key value contents).
    fold (tags (set_attr i key value contents)). fold (tags contents).
    by rewrite IHn.
  - rewrite set_attr_cons, !tags_cons, map_app. by f_equal.
Qed.

Lemma tags_set_attr i key value l :
  tags (set_attr i key value l) = map (with_attr i key value) (tags l).
Proof.
  induction l as [|n l IH]; [done|].
  by rewrite set_attr_cons, !tags_cons, map_app, IH, tags_set_attr_in.
Qed.

Lemma tags_set_name_in i name n :
  tags_of (set_name_in i name n) = map (with_name i name) (tags_of n).
Proof.
  induction n using node_forest_ind
    with (Q := λ l, tags (set_name i name l) = map (with_name i name) (tags l));
    try done.
  - simpl. fold (set_name i name contents).
    fold (tags (set_name i name contents)). fold (tags contents).
    by rewrite IHn.
  - rewrite set_name_cons, !tags_cons, map_app. by f_equal.
Qed.

Lemma tags_set_name i name l :
  tags (set_name i name l) = map (with_name i name) (tags l).
Proof.
  induction l as [|n l IH]; [done|].
  by rewrite set_name_cons, !tags_cons, map_app, IH, tags_set_name_in.
Qed.

(** The tags left by [decompose]: those outside the decomposed ones. *)
Lemma tags_decompose_in i n :
  tags (option_list (decompose_in i n)) `sublist_of` tags_of n
  ∧ ∀ t, t ∈ tags (option_list (decompose_in i n)) → t_id t ≠ i.
Proof.
  induction n using node_forest_ind
    with (Q := λ l, tags (decompose i l) `sublist_of` tags l
                    ∧ ∀ t, t ∈ tags (decompose i l) → t_id t ≠ i).
  - split; [done|]. intros t []%elem_of_nil.
  - split; [done|]. intros t []%elem_of_nil.
  - destruct IHn as [IH1 IH2]. simpl. destruct (Nat.eqb i0 i) eqn:E.
    + split; [apply sublist_nil_l|]. intros t []%elem_of_nil.
    + fold (decompose i contents). fold (tags contents).
      change (option_list (Some ?n)) with [n].
      rewrite tags_one, tags_of_tag. split.
      * by apply sublist_skip.
      * intros t [->|Ht]%elem_of_cons; [|by apply IH2].
        simpl. by apply Nat.eqb_neq in E.
  - split; [done|]. intros t []%elem_of_nil.
  - destruct IHn as [IH1 IH2], IHn0 as [IH3 IH4].
    rewrite decompose_cons, tags_app, tags_cons. split.
    + by apply sublist_app.
    + intros t [?|?]%elem_of_app; auto.
Qed.

Lemma tags_decompose i l :
  tags (decompose i l) `sublist_of` tags l
  ∧ ∀ t, t ∈ tags (decompose i l) → t_id t ≠ i.
Proof.
  induction l as [|n l [IH1 IH2]].
  - split; [done|]. intros t []%elem_of_nil.
  - destruct (tags_decompose_in i n) as [H1 H2].
    rewrite decompose_cons, tags_app, tags_cons. split.
    + by apply sublist_app.
    + intros t [?|?]%elem_of_app; auto.
Qed.

Lemma first_tag_app i ts1 ts2 :
  first_tag i (ts1 ++ ts2)
  = match first_tag i ts1 with Some t => Some t | None => first_tag i ts2 end.
Proof.
  induction ts1 as [|t ts1 IH]; simpl; [done|].
  unfold first_tag in *. simpl. by destruct (t_id t =? i).
Qed.

Lemma lookup_in_tags i n : found_first i (lookup_in i n) (tags_of n).
Proof.
  induction n using node_forest_ind
    with (Q := λ l, found_first i (lookup_tag i l) (tags l)); try done.
  - rewrite tags_of_tag. unfold first_tag, found_first. simpl.
    destruct (i0 =? i) eqn:E.
    + by apply Nat.eqb_eq in E as ->.
    + fold (lookup_tag i contents). unfold found_first, first_tag in IHn.
      by destruct (lookup_tag i contents) as [[| |j name' attrs' cs]|].
  - rewrite tags_cons. unfold lookup_tag, found_first in *. simpl.
    rewrite first_tag_app.
    destruct (lookup_in i n) as [[| |j name attrs cs]|]; try done.
    + by destruct IHn as [-> ->].
    + by rewrite IHn.
Qed.

Lemma lookup_tag_tags i l : found_first i (lookup_tag i l) (tags l).
Proof.
  induction l as [|n l IH]; [done|].
  pose proof (lookup_in_tags i n) as Hn.
  rewrite tags_cons. unfold lookup_tag, found_first in *. simpl.
  rewrite first_tag_app.
  destruct (lookup_in i n) as [[| |j name attrs cs]|]; try done.
  - by destruct Hn as [-> ->].
  - by rewrite Hn.
Qed.

Lemma tag_attr_tags i key l :
  tag_attr i key l = first_tag i (tags l) ≫= λ t, t_attrs t !! key.
Proof.
  pose proof (lookup_tag_tags i l) as H. unfold tag_attr, found_first in *.
  destruct (lookup_tag i l) as [[| |j name attrs cs]|]; try done.
  - by destruct H as [_ ->].
  - by rewrite H.
Qed.

Lemma first_tag_Some i ts t : first_tag i ts = Some t → t ∈ ts ∧ t_id t = i.
Proof.
  unfold first_tag. intros [Hin E]%find_some. split.
  - by apply list_elem_of_In.
  - by apply Nat.eqb_eq.
Qed.

Lemma first_tag_None i ts t : first_tag i ts = None → t ∈ ts → t_id t ≠ i.
Proof.
  unfold first_tag. intros H Hin%list_elem_of_In E.
  pose proof (find_none _ _ H t Hin) as Hf. simpl in Hf.
  apply Nat.eqb_neq in Hf. done.
Qed.

(** ** Loops *)

Lemma foldl_invariant {X : Type} (I : state → Prop) (f : state → X → state) l s :
  I s → (∀ s x, I s → I (f s x)) → I (foldl f s l).
Proof.
  intros Hs Hf. revert s Hs. induction l as [|x l IH]; intros s Hs; simpl; auto.
Qed.

Lemma for_each_cons {X : Type} (body : state → X → outcome) x l s :
  for_each body (x :: l) s
  = match body s x with
    | Done s' => for_each body l s'
    | Aborted e s' => Aborted e s'
    end.
Proof. done. Qed.

Lemma for_each_invariant {X : Type} (I : state → Prop)
    (body : state → X → outcome) l s :
  I s → (∀ s x, I s → I (final (body s x))) → I (final (for_each body l s)).
Proof.
  intros Hs Hb. revert s Hs. induction l as [|x l IH]; intros s Hs; [done|].
  rewrite for_each_cons. specialize (Hb s x Hs).
  destruct (body s x) as [s'|e s']; simpl in *; auto.
Qed.

(** ** Attributes through the operations *)

Lemma attr_is_decompose i key v j l :
  attr_is i key v l → attr_is i key v (decompose j l).
Proof.
  intros H t Ht. apply H.
  eapply elem_of_sublist; [done|apply tags_decompose].
Qed.

Lemma attr_is_set_name i key v j name l :
  attr_is i key v l → attr_is i key v (set_name j name l).
Proof.
  intros H t. rewrite tags_set_name.
  intros (t0 & -> & Ht0)%list_elem_of_fmap. simpl. by apply H.
Qed.

Lemma attr_is_set_attr_other_tag i key v j key' v' l :
  j ≠ i → attr_is i key v l → attr_is i key v (set_attr j key' v' l).
Proof.
  intros Hne H t. rewrite tags_set_attr.
  intros (t0 & -> & Ht0)%list_elem_of_fmap. simpl. intros Hi.
  destruct (t_id t0 =? j) eqn:E; [apply Nat.eqb_eq in E; congruence|].
  by apply H.
Qed.

Lemma attr_is_set_attr_other_key i key v j key' v' l :
  key' ≠ key → attr_is i key v l → attr_is i key v (set_attr j key' v' l).
Proof.
  intros Hne H t. rewrite tags_set_attr.
  intros (t0 & -> & Ht0)%list_elem_of_fmap. simpl. intros Hi.
  destruct (t_id t0 =? j); [rewrite lookup_insert_ne by done|]; by apply H.
Qed.

Lemma attr_is_set_attr_same i key v l :
  attr_is i key (Some v) (set_attr i key v l).
Proof.
  intros t. rewrite tags_set_attr.
  intros (t0 & -> & Ht0)%list_elem_of_fmap. simpl. intros ->.
  by rewrite Nat.eqb_refl, lookup_insert_eq.
Qed.

Lemma tag_attr_attr_is i key v v' l :
  attr_is i key v l → tag_attr i key l = Some v' → v = Some v'.
Proof.
  intros H. rewrite tag_attr_tags.
  destruct (first_tag i (tags l)) as [t|] eqn:E; [|done]. simpl.
  apply first_tag_Some in E as [Hin Hid]. by rewrite (H t Hin Hid).
Qed.

Lemma tag_attr_present i key l t :
  t ∈ tags l → t_id t = i → ∃ t', t' ∈ tags l ∧ t_id t' = i
                                 ∧ tag_attr i key l = t_attrs t' !! key.
Proof.
  intros Hin Hid. rewrite tag_attr_tags.
  destruct (first_tag i (tags l)) as [t'|] eqn:E.
  - apply first_tag_Some in E as [??]. by exists t'.
  - by destruct (first_tag_None _ _ _ E Hin).
Qed.

(** ** The book's edits leave the attributes alone *)

Lemma remove_citations_attr_is i key v s :
  attr_is i key v (soup s) → attr_is i key v (soup (remove_citations s)).
Proof.
  unfold remove_citations.
  intros H. apply (foldl_invariant (λ s, attr_is i key v (soup s))); [done|].
  intros s' x. apply attr_is_decompose.
Qed.

Lemma remove_topics_attr_is i key v s :
  attr_is i key v (soup s) → attr_is i key v (soup (remove_topics s)).
Proof.
  unfold remove_topics. destruct (head _) as [h|]; [|done].
  destruct (String.eqb _ _); [|done]. apply attr_is_decompose.
Qed.

Lemma rename_h3s_attr_is i key v s :
  attr_is i key v (soup s) → attr_is i key v (soup (rename_h3s s)).
Proof.
  unfold rename_h3s.
  intros H. apply (foldl_invariant (λ s, attr_is i key v (soup s))); [done|].
  intros s' x. apply attr_is_set_name.
Qed.

Lemma remove_paragraphs_attr_is file_path i key v s :
  attr_is i key v (soup s) → attr_is i key v (soup (remove_paragraphs file_path s)).
Proof.
  unfold remove_paragraphs.
  intros H. apply (foldl_invariant (λ s, attr_is i key v (soup s))); [done|].
  intros s' x. unfold remove_paragraph. case_bool_decide; [|done].
  apply attr_is_decompose.
Qed.

Lemma book_edits_attr_is file_path i key v s :
  attr_is i key v (soup s) → attr_is i key v (soup (book_edits file_path s)).
Proof.
  unfold book_edits, book_edits_before_paragraphs.
  destruct (String.eqb _ _); [|done]. intros H.
  by apply remove_paragraphs_attr_is, rename_h3s_attr_is, remove_topics_attr_is,
    remove_citations_attr_is.
Qed.

Lemma soup_write_back file_path s : soup (write_back file_path s) = soup s.
Proof. unfold write_back. by destruct (changed s). Qed.

Lemma ids_unique_same l t t' :
  ids_unique l → t ∈ tags l → t' ∈ tags l → t_id t' = t_id t → t' = t.
Proof.
  unfold ids_unique. generalize (tags l). intros ts Hnd.
  induction ts as [|t0 ts IH]; [by intros []%elem_of_nil|].
  apply NoDup_cons in Hnd as [Hnin Hnd].
  intros [->|Ht]%elem_of_cons [->|Ht']%elem_of_cons Hid; auto.
  - destruct Hnin. rewrite <- Hid. by apply list_elem_of_fmap_2.
  - destruct Hnin. rewrite Hid. by apply list_elem_of_fmap_2.
Qed.

Lemma ids_unique_attr_is l i name attrs key :
  ids_unique l → TagInfo i name attrs ∈ tags l →
  attr_is i key (attrs !! key) l ∧ name_is i name l.
Proof.
  intros Hu Hin. split; intros t Ht Hid.
  - by rewrite (ids_unique_same l _ t Hu Hin Ht Hid).
  - by rewrite (ids_unique_same l _ t Hu Hin Ht Hid).
Qed.

Lemma name_is_set_attr i name j key v l :
  name_is i name l → name_is i name (set_attr j key v l).
Proof.
  intros H t. rewrite tags_set_attr.
  intros (t0 & -> & Ht0)%list_elem_of_fmap. simpl. by apply H.
Qed.

(** ** The two loops over the attributes *)

(** What one round of the [<a>] loop can do to the document. *)
Lemma fix_a_soup w file_path project_root index s a :
  let s' := final (fix_a w file_path project_root index s a) in
  soup s' = soup s
  ∨ ∃ href new_href,
      tag_attr a "href" (soup s) = Some href
      ∧ is_skipped_href href = false
      ∧ soup s' = set_attr a "href" new_href (soup s).
Proof.
  unfold fix_a. destruct (tag_attr a "href" (soup s)) as [href|]; [|by left].
  destruct (is_skipped_href href) eqn:Hskip; [by left|].
  destruct (find_target_path _ _ _ _) as [out [target_rel|e]]; [|by left].
  destruct (truthy target_rel) as [t|]; [|by left].
  destruct (posixpath.relpath _ _ _) as [new_href|e]; [|by left].
  destruct (negb _); [|by left].
  right. by exists href, new_href.
Qed.

(** What one round of the [<img>] loop can do to the document. *)
Lemma fix_img_soup file_path s img :
  let s' := final (fix_img file_path s img) in
  soup s' = soup s
  ∨ ∃ src,
      tag_attr img "src" (soup s) = Some src
      ∧ is_external_src src = false ∧ Str.contains "/" src = false
      ∧ soup s' = set_attr img "src" (asset_src src) (soup s).
Proof.
  unfold fix_img. destruct (tag_attr img "src" (soup s)) as [src|]; [|by left].
  destruct (is_external_src src) eqn:Hext; [by left|].
  destruct (Str.contains "/" src) eqn:Hsep; [by left|]. simpl.
  destruct (negb _); [|by left].
  right. by exists src.
Qed.

Lemma fix_a_other_key w file_path project_root index s a i key v :
  key ≠ "href" → attr_is i key v (soup s) →
  attr_is i key v (soup (final (fix_a w file_path project_root index s a))).
Proof.
  intros Hk H.
  destruct (fix_a_soup w file_path project_root index s a)
    as [->|(href & new_href & _ & _ & ->)]; [done|].
  by apply attr_is_set_attr_other_key.
Qed.

Lemma fix_img_other_key file_path s img i key v :
  key ≠ "src" → attr_is i key v (soup s) →
  attr_is i key v (soup (final (fix_img file_path s img))).
Proof.
  intros Hk H.
  destruct (fix_img_soup file_path s img) as [->|(src & _ & _ & _ & ->)]; [done|].
  by apply attr_is_set_attr_other_key.
Qed.

Lemma fix_a_name_is w file_path project_root index s a i name :
  name_is i name (soup s) →
  name_is i name (soup (final (fix_a w file_path project_root index s a))).
Proof.
  intros H.
  destruct (fix_a_soup w file_path project_root index s a)
    as [->|(href & new_href & _ & _ & ->)]; [done|].
  by apply name_is_set_attr.
Qed.

(** A href that the loop skips stays, whichever tag the round is for. *)
Lemma fix_a_skipped_kept w file_path project_root index s a i href :
  is_skipped_href href = true → attr_is i "href" (Some href) (soup s) →
  attr_is i "href" (Some href)
    (soup (final (fix_a w file_path project_root index s a))).
Proof.
  intros Hskip H.
  destruct (fix_a_soup w file_path project_root index s a)
    as [->|(href' & new_href & Hattr & Hns & ->)]; [done|].
  destruct (decide (a = i)) as [->|Hne].
  - apply (tag_attr_attr_is _ _ _ _ _ H) in Hattr as [= ->]. congruence.
  - by apply attr_is_set_attr_other_tag.
Qed.

Lemma fix_links_in_html_final w file_path project_root index content :
  ∃ s1 s2,
    s1 = final (fix_a_tags w file_path project_root index (State content false []))
    ∧ (s2 = s1 ∨ s2 = final (fix_img_tags file_path s1))
    ∧ (final (fix_links_in_html w file_path project_root index content) = s2
       ∨ final (fix_links_in_html w file_path project_root index content)
         = write_back file_path (book_edits file_path s2)).
Proof.
  unfold fix_links_in_html.
  destruct (fix_a_tags _ _ _ _ _) as [s1|e s1]; simpl.
  - destruct (fix_img_tags file_path s1) as [s2|e s2] eqn:E; simpl.
    + exists s1, s2. split; [done|]. split; [right; by rewrite E|]. by right.
    + exists s1, s2. split; [done|]. split; [right; by rewrite E|]. by left.
  - exists s1, s1. split; [done|]. split; [by left|]. by left.
Qed.

(** An invariant of the two loops and of the book's edits holds at the end. *)
Lemma fix_links_in_html_invariant (I : list node → Prop)
    w file_path project_root index content :
  I content →
  (∀ s a, I (soup s) → I (soup (final (fix_a w file_path project_root index s a)))) →
  (∀ s img, I (soup s) → I (soup (final (fix_img file_path s img)))) →
  (∀ s, I (soup s) → I (soup (book_edits file_path s))) →
  I (soup (final (fix_links_in_html w file_path project_root index content))).
Proof.
  intros H0 Ha Himg Hbook.
  destruct (fix_links_in_html_final w file_path project_root index content)
    as (s1 & s2 & -> & Hs2 & Hfin).
  assert (H1 : I (soup (final (fix_a_tags w file_path project_root index
                                 (State content false []))))).
  { unfold fix_a_tags. by apply (for_each_invariant (λ s, I (soup s))). }
  assert (H2 : I (soup s2)).
  { destruct Hs2 as [->| ->]; [done|]. unfold fix_img_tags.
    by apply (for_each_invariant (λ s, I (soup s))). }
  destruct Hfin as [->| ->]; [done|].
  rewrite soup_write_back. by apply Hbook.
Qed.

(** C5: an [<a>] tag whose href starts with [#], [http://] or [https://]
    keeps that href verbatim: its round of the loop does nothing at all,
    whatever the index holds, and at the end of [fix_links_in_html], completed
    or not, the tag has the same href if it is still part of the document. *)
Theorem skipped_href_never_modified w file_path project_root index content
    i attrs href :
  ids_unique content →
  TagInfo i "a" attrs ∈ tags content →
  attrs !! "href" = Some href →
  Str.startswith href "#" || Str.startswith href "http://"
    || Str.startswith href "https://" = true →
  (∀ index' s, tag_attr i "href" (soup s) = Some href →
     fix_a w file_path project_root index' s i = Done s)
  ∧ attr_is i "href" (Some href)
      (soup (final (fix_links_in_html w file_path project_root index content))).
Proof.
  intros Hu Hin Hhref Hskip. fold (is_skipped_href href) in Hskip. split.
  - intros index' s Hattr. unfold fix_a. by rewrite Hattr, Hskip.
  - apply (fix_links_in_html_invariant (attr_is i "href" (Some href))).
    + rewrite <- Hhref. by eapply ids_unique_attr_is.
    + intros s a. by apply fix_a_skipped_kept.
    + intros s img. by apply fix_img_other_key.
    + intros s. apply book_edits_attr_is.
Qed.

(** A loop that completes establishes [Pa] once it has met [i], when [Pb]
    holds until then. *)
Lemma for_each_reach (Pb Pa : state → Prop) (body : state → tag_id → outcome)
    (i : tag_id) l s s' :
  i ∈ l → Pb s →
  (∀ s x, x ≠ i → Pb s → Pb (final (body s x))) →
  (∀ s s1, Pb s → body s i = Done s1 → Pa s1) →
  (∀ s x, Pa s → Pa (final (body s x))) →
  for_each body l s = Done s' → Pa s'.
Proof.
  intros Hin Hs Hb Hi Ha. revert s Hs Hin.
  induction l as [|x l IH]; intros s Hs Hin; [by apply elem_of_nil in Hin|].
  rewrite for_each_cons. destruct (decide (x = i)) as [->|Hne].
  - destruct (body s i) as [s1|e s1] eqn:E; [|done]. intros Hl.
    assert (Pa (final (for_each body l s1))) as H.
    { apply (for_each_invariant Pa); eauto. }
    by rewrite Hl in H.
  - apply elem_of_cons in Hin as [->|Hin]; [done|].
    specialize (Hb s x Hne Hs).
    destruct (body s x) as [s1|e s1]; [|done]. by apply IH.
Qed.

(** ** Properties that every primitive step keeps *)

Section primitives.
Variable I : state → Prop.
Hypothesis Hemit : ∀ out s, I s → I (emit out s).
Hypothesis Hchanged : ∀ s, I s → I (set_changed s).
Hypothesis Hattr : ∀ i key v s, I s → I (do_set_attr i key v s).
Hypothesis Hname : ∀ i name s, I s → I (do_set_name i name s).
Hypothesis Hdecompose : ∀ i s, I s → I (do_decompose i s).

Lemma prim_fix_a w file_path project_root index s a :
  I s → I (final (fix_a w file_path project_root index s a)).
Proof using All.
  intros H. unfold fix_a.
  destruct (tag_attr a "href" (soup s)) as [href|]; [|done].
  destruct (is_skipped_href href); [done|].
  destruct (find_target_path _ _ _ _) as [out [target_rel|e]]; simpl; auto.
  destruct (truthy target_rel) as [t|]; simpl; auto.
  destruct (posixpath.relpath _ _ _) as [new_href|e]; simpl; auto.
  destruct (negb _); simpl; auto.
Qed.

Lemma prim_fix_img file_path s img :
  I s → I (final (fix_img file_path s img)).
Proof using All.
  intros H. unfold fix_img.
  destruct (tag_attr img "src" (soup s)) as [src|]; [|done].
  destruct (is_external_src src); [done|].
  destruct (negb (Str.contains "/" src)); [|done].
  destruct (negb _); simpl; auto.
Qed.

Lemma prim_book_edits file_path s : I s → I (book_edits file_path s).
Proof using All.
  intros H. unfold book_edits. destruct (String.eqb _ _); [|done].
  unfold remove_paragraphs. apply (foldl_invariant I).
  - unfold book_edits_before_paragraphs, rename_h3s.
    apply (foldl_invariant I).
    + unfold remove_topics. destruct (head _) as [h|].
      * destruct (String.eqb _ _); [apply Hchanged, Hdecompose|];
          unfold remove_citations; apply (foldl_invariant I); auto;
          intros; apply Hchanged, Hdecompose; auto.
      * unfold remove_citations; apply (foldl_invariant I); auto;
          intros; apply Hchanged, Hdecompose; auto.
    + intros. by apply Hchanged, Hname.
  - intros s' x Hs'. unfold remove_paragraph. case_bool_decide; [|done].
    by apply Hchanged, Hdecompose, Hemit.
Qed.

Lemma prim_write_back file_path s : I s → I (write_back file_path s).
Proof using All.
  intros H. unfold write_back. destruct (changed s); by apply Hemit.
Qed.

Lemma prim_after_a_tags file_path s1 s' :
  I s1 →
  match fix_img_tags file_path s1 with
  | Aborted e s => Aborted e s
  | Done s => Done (write_back file_path (book_edits file_path s))
  end = Done s' → I s'.
Proof using All.
  intros H1.
  assert (I (final (fix_img_tags file_path s1))) as H2.
  { unfold fix_img_tags. apply (for_each_invariant I); [done|].
    intros. by apply prim_fix_img. }
  destruct (fix_img_tags file_path s1) as [s2|]; [|done].
  intros [= <-]. by apply prim_write_back, prim_book_edits.
Qed.
End primitives.

Lemma find_target_path_not_found w href index project_root :
  path_exists w (posixpath.join project_root (normalized_href href)) = false →
  index !! posixpath.basename (normalized_href href) = None →
  find_target_path w href index project_root = ([], Ok None).
Proof. intros Hex Hidx. unfold find_target_path. by rewrite Hex, Hidx. Qed.

Lemma emit_nil s : emit [] s = s.
Proof. destruct s. unfold emit. simpl. by rewrite app_nil_r. Qed.

Lemma find_all_elem_of p l t :
  t ∈ tags l → p (t_name t) (t_attrs t) = true → t_id t ∈ find_all p l.
Proof.
  intros Hin Hp. rewrite find_all_tags. apply list_elem_of_fmap_2.
  apply list_elem_of_In, List.filter_In. split; [by apply list_elem_of_In|done].
Qed.


Lemma contains_app c a b :
  Str.contains c (a +:+ b) = Str.contains c a || Str.contains c b.
Proof.
  induction a as [|x a IH]; [done|].
  change (String x a +:+ b) with (String x (a +:+ b)). simpl.
  by destruct (Ascii.eqb x c).
Qed.

Lemma asset_src_has_sep src : Str.contains "/" (asset_src src) = true.
Proof.
  unfold asset_src. destruct (posixpath.splitext src) as [base ext].
  by rewrite contains_app.
Qed.

Lemma expected_src_asset src :
  is_external_src src = false → Str.contains "/" src = false →
  expected_src src = asset_src src.
Proof.
  unfold expected_src, asset_src, is_external_src. intros -> ->.
  by destruct (posixpath.splitext src).
Qed.

Lemma expected_src_stable src :
  is_external_src (expected_src src) = true
  ∨ Str.contains "/" (expected_src src) = true.
Proof.
  unfold expected_src. fold (is_external_src src).
  destruct (is_external_src src) eqn:E1; [by left|].
  destruct (Str.contains "/" src) eqn:E2; [by right|].
  right. by rewrite contains_app.
Qed.

Lemma find_all_not_elem_of p l i :
  i ∉ find_all p l →
  (∀ t, t ∈ tags l → t_id t = i → p (t_name t) (t_attrs t) = true) →
  ∀ t, t ∈ tags l → t_id t ≠ i.
Proof.
  intros Hnin Hp t Hin Hid. apply Hnin. rewrite <- Hid.
  apply find_all_elem_of; [done|]. by apply Hp.
Qed.

Lemma ids_set_attr i key v l :
  map t_id (tags (set_attr i key v l)) = map t_id (tags l).
Proof. rewrite tags_set_attr, map_map. by apply map_ext. Qed.

(** A round of the [<img>] loop on a src that is already as expected. *)
Lemma fix_img_expected_kept file_path s img i src :
  attr_is i "src" (Some (expected_src src)) (soup s) →
  attr_is i "src" (Some (expected_src src))
    (soup (final (fix_img file_path s img))).
Proof.
  intros H.
  destruct (fix_img_soup file_path s img)
    as [->|(src' & Hattr & Hext & Hsep & ->)]; [done|].
  destruct (decide (img = i)) as [->|Hne].
  - pose proof (tag_attr_attr_is _ _ _ _ _ H Hattr) as [= <-].
    destruct (expected_src_stable src); congruence.
  - by apply attr_is_set_attr_other_tag.
Qed.

Lemma expected_src_same src :
  is_external_src src = true ∨ Str.contains "/" src = true →
  expected_src src = src.
Proof.
  unfold expected_src. fold (is_external_src src).
  destruct (is_external_src src); [done|]. by intros [?| ->].
Qed.

(** The round of the [<img>] loop for the tag [i] itself. *)
Lemma fix_img_round file_path s i src s1 :
  attr_is i "src" (Some src) (soup s) →
  fix_img file_path s i = Done s1 →
  attr_is i "src" (Some (expected_src src)) (soup s1).
Proof.
  intros H. unfold fix_img.
  destruct (tag_attr i "src" (soup s)) as [src'|] eqn:Hattr; [|done].
  pose proof (tag_attr_attr_is _ _ _ _ _ H Hattr) as [= ->].
  destruct (is_external_src src') eqn:Hext.
  { intros [= <-]. rewrite expected_src_same; auto. }
  destruct (Str.contains "/" src') eqn:Hsep; simpl.
  { intros [= <-]. rewrite expected_src_same; auto. }
  rewrite (expected_src_asset _ Hext Hsep).
  destruct (negb (String.eqb (asset_src src') src')) eqn:Hneq.
  - intros [= <-]. simpl. apply attr_is_set_attr_same.
  - intros [= <-]. apply negb_false_iff, String.eqb_eq in Hneq.
    by rewrite Hneq.
Qed.

(** C6: at the end of a completed [fix_links_in_html], the src of an [<img>]
    tag is unchanged when it starts with [http://] or [https://] or contains
    a separator, and is [../Assets/<name>@2x.png] otherwise, [<name>] being
    the src without its extension; in a document other than the book the tag
    is still there. *)
Theorem img_src_rewritten w file_path project_root index content i attrs src s' :
  ids_unique content →
  TagInfo i "img" attrs ∈ tags content →
  attrs !! "src" = Some src →
  fix_links_in_html w file_path project_root index content = Done s' →
  attr_is i "src"
    (Some (if Str.startswith src "http://" || Str.startswith src "https://"
           then src
           else if Str.contains "/" src then src
           else "../Assets/" +:+ fst (posixpath.splitext src) +:+ "@2x.png"))
    (soup s')
  ∧ (posixpath.basename file_path ≠ book → ∃ t, t ∈ tags (soup s') ∧ t_id t = i).
Proof.
  intros Hu Hin Hsrc. fold (expected_src src). unfold fix_links_in_html.
  destruct (ids_unique_attr_is content i "img" attrs "src" Hu Hin) as [H0 Hn0].
  rewrite Hsrc in H0.
  set (s0 := State content false []).
  assert (Ha : let s1 := final (fix_a_tags w file_path project_root index s0) in
               attr_is i "src" (Some src) (soup s1) ∧ name_is i "img" (soup s1)
               ∧ map t_id (tags (soup s1)) = map t_id (tags content)).
  { unfold fix_a_tags.
    apply (for_each_invariant
             (λ s, attr_is i "src" (Some src) (soup s) ∧ name_is i "img" (soup s)
                   ∧ map t_id (tags (soup s)) = map t_id (tags content)));
      [done|].
    intros s a (H1 & H2 & H3). split; [|split].
    - by apply fix_a_other_key.
    - by apply fix_a_name_is.
    - destruct (fix_a_soup w file_path project_root index s a)
        as [->|(? & ? & _ & _ & ->)]; [done|]. by rewrite ids_set_attr. }
  destruct (fix_a_tags _ _ _ _ _) as [s1|]; [|done]. simpl in Ha.
  destruct Ha as (Ha1 & Ha2 & Ha3).
  destruct (fix_img_tags file_path s1) as [s2|] eqn:Eimg; [|done].
  intros [= <-]. rewrite soup_write_back.
  assert (Hids : map t_id (tags (soup s2)) = map t_id (tags content)).
  { assert (H := for_each_invariant
                   (λ s, map t_id (tags (soup s)) = map t_id (tags content))
                   (fix_img file_path) (find_all is_img_src (soup s1)) s1 Ha3).
    unfold fix_img_tags in Eimg. rewrite Eimg in H. apply H.
    intros s img Hs.
    destruct (fix_img_soup file_path s img) as [->|(? & _ & _ & _ & ->)];
      [done|]. by rewrite ids_set_attr. }
  assert (H2 : attr_is i "src" (Some (expected_src src)) (soup s2)).
  { unfold fix_img_tags in Eimg.
    destruct (decide (i ∈ find_all is_img_src (soup s1))) as [Hi|Hi].
    - revert Eimg.
      apply (for_each_reach
               (λ s, attr_is i "src" (Some src) (soup s))
               (λ s, attr_is i "src" (Some (expected_src src)) (soup s)))
        with (i := i); try done.
      + intros s x Hne H.
        destruct (fix_img_soup file_path s x) as [->|(? & _ & _ & _ & ->)];
          [done|]. by apply attr_is_set_attr_other_tag.
      + intros s s3. apply fix_img_round.
      + intros s x. apply fix_img_expected_kept.
    - assert (H := for_each_invariant
                     (λ s, attr_is i "src" (Some (expected_src src)) (soup s))
                     (fix_img file_path) (find_all is_img_src (soup s1)) s1).
      rewrite Eimg in H. apply H.
      + intros t Ht Hid. destruct (find_all_not_elem_of _ _ _ Hi) with t; try done.
        intros t' Ht' Hid'. unfold is_img_src, has_attr.
        by rewrite (Ha2 t' Ht' Hid'), (Ha1 t' Ht' Hid').
      + intros s x. apply fix_img_expected_kept. }
  split; [by apply book_edits_attr_is|].
  intros Hbook. unfold book_edits.
  destruct (String.eqb _ _) eqn:E; [by apply String.eqb_eq in E|].
  assert (i ∈ map t_id (tags (soup s2))) as (t & -> & Ht)%list_elem_of_fmap.
  { rewrite Hids. by apply (list_elem_of_fmap_2 t_id _ (TagInfo i "img" attrs)). }
  by exists t.
Qed.

(** ** When the file is written *)

Lemma book_edits_rounds (I : state → Prop) file_path s :
  (∀ s x, I s → I (remove_citation s x)) →
  (∀ s, I s → I (remove_topics s)) →
  (∀ s x, I s → I (rename_h3 s x)) →
  (∀ s x, I s → I (remove_paragraph file_path s x)) →
  I s → I (book_edits file_path s).
Proof.
  intros Hc Ht Hh Hp Hs. unfold book_edits. destruct (String.eqb _ _); [|done].
  unfold remove_paragraphs. apply (foldl_invariant I); [|done].
  unfold book_edits_before_paragraphs, rename_h3s.
  apply (foldl_invariant I); [|done]. apply Ht.
  unfold remove_citations. by apply (foldl_invariant I).
Qed.

Lemma find_target_path_prints w href index project_root :
  existsb is_mutation (find_target_path w href index project_root).1 = false
  ∧ existsb is_write (find_target_path w href index project_root).1 = false.
Proof.
  unfold find_target_path. destruct (path_exists _ _); [done|].
  destruct (index !! _) as [targets|]; [|done]. simpl.
  by destruct (1 <? length targets).
Qed.

Lemma changed_tracks_emit content out s :
  existsb is_mutation out = false → existsb is_write out = false →
  changed_tracks content s → changed_tracks content (emit out s).
Proof.
  intros Hm Hw (H1 & H2 & H3). unfold changed_tracks. simpl.
  rewrite !existsb_app, Hm, Hw, !orb_false_r. done.
Qed.

Lemma changed_tracks_mutate content s soup' e :
  is_mutation e = true → is_write e = false →
  changed_tracks content s →
  changed_tracks content (State soup' true (trace s ++ [e])).
Proof.
  intros Hm Hw (H1 & H2 & H3). unfold changed_tracks. simpl.
  rewrite !existsb_app. simpl. rewrite Hm, Hw, H3, !orb_true_r. done.
Qed.

Lemma changed_tracks_fix_a content w file_path project_root index s a :
  changed_tracks content s →
  changed_tracks content (final (fix_a w file_path project_root index s a)).
Proof.
  intros H. unfold fix_a.
  destruct (tag_attr a "href" (soup s)) as [href|]; [|done].
  destruct (is_skipped_href href); [done|].
  destruct (find_target_path_prints w href index project_root) as [Hm Hw].
  destruct (find_target_path _ _ _ _) as [out r]. simpl in Hm, Hw.
  pose proof (changed_tracks_emit content out s Hm Hw H) as H'.
  destruct r as [target_rel|e]; [|done].
  destruct (truthy target_rel) as [t|]; simpl.
  - destruct (posixpath.relpath _ _ _) as [new_href|e]; [|done].
    destruct (negb _); [|done]. simpl.
    apply (changed_tracks_mutate content
             (emit [PrintUpdatingLink file_path href new_href] (emit out s)));
      [done..|].
    by apply changed_tracks_emit.
  - by apply changed_tracks_emit.
Qed.

Lemma changed_tracks_fix_img content file_path s img :
  changed_tracks content s →
  changed_tracks content (final (fix_img file_path s img)).
Proof.
  intros H. unfold fix_img.
  destruct (tag_attr img "src" (soup s)) as [src|]; [|done].
  destruct (is_external_src src); [done|].
  destruct (negb (Str.contains "/" src)); [|done].
  destruct (negb _); [|done]. simpl.
  apply (changed_tracks_mutate content
           (emit [PrintUpdatingImg file_path src (asset_src src)] s)); [done..|].
  by apply changed_tracks_emit.
Qed.

Lemma changed_tracks_book_edits content file_path s :
  changed_tracks content s → changed_tracks content (book_edits file_path s).
Proof.
  apply book_edits_rounds.
  - intros s' x H. by apply (changed_tracks_mutate content s').
  - intros s' H. unfold remove_topics. destruct (head _) as [h|]; [|done].
    destruct (String.eqb _ _); [|done]. by apply (changed_tracks_mutate content s').
  - intros s' x H. by apply (changed_tracks_mutate content s').
  - intros s' x H. unfold remove_paragraph. case_bool_decide; [|done].
    apply (changed_tracks_mutate content
             (emit [PrintRemovingP file_path (tag_text x (soup s'))] s'));
      [done..|].
    by apply changed_tracks_emit.
Qed.

Lemma changed_tracks_before_write w file_path project_root index content s' :
  fix_links_in_html w file_path project_root index content = Done s' →
  ∃ s, changed_tracks content s ∧ s' = write_back file_path s.
Proof.
  unfold fix_links_in_html.
  assert (H0 : changed_tracks content (State content false [])) by done.
  assert (H1 := for_each_invariant (changed_tracks content)
                  (fix_a w file_path project_root index)
                  (find_all is_a_href content) _ H0
                  (λ s a, changed_tracks_fix_a content w _ _ _ s a)).
  unfold fix_a_tags. simpl.
  destruct (for_each _ _ _) as [s1|]; [|done]. simpl in H1.
  assert (H2 := for_each_invariant (changed_tracks content)
                  (fix_img file_path) (find_all is_img_src (soup s1)) _ H1
                  (λ s a, changed_tracks_fix_img content _ s a)).
  unfold fix_img_tags.
  destruct (for_each _ _ _) as [s2|]; [|done]. simpl in H2.
  intros [= <-]. eexists. split; [|done]. by apply changed_tracks_book_edits.
Qed.

Lemma existsb_false_elem_of {A : Type} (f : A → bool) l x :
  existsb f l = false → x ∈ l → f x = false.
Proof.
  intros H Hin%list_elem_of_In. destruct (f x) eqn:E; [|done].
  rewrite <- H. symmetry. apply existsb_exists. eauto.
Qed.

(** A property that every round of every loop keeps holds before the file is
    written. *)
Lemma fix_links_in_html_rounds (I : state → Prop)
    w file_path project_root index content s' :
  I (State content false []) →
  (∀ s a, I s → I (final (fix_a w file_path project_root index s a))) →
  (∀ s img, I s → I (final (fix_img file_path s img))) →
  (∀ s x, I s → I (remove_citation s x)) →
  (∀ s, I s → I (remove_topics s)) →
  (∀ s x, I s → I (rename_h3 s x)) →
  (∀ s x, I s → I (remove_paragraph file_path s x)) →
  fix_links_in_html w file_path project_root index content = Done s' →
  ∃ s, I s ∧ s' = write_back file_path s.
Proof.
  intros H0 Ha Himg Hc Ht Hh Hp. unfold fix_links_in_html.
  assert (H1 := for_each_invariant I (fix_a w file_path project_root index)
                  (find_all is_a_href content) _ H0 Ha).
  unfold fix_a_tags. cbn [soup].
  destruct (for_each _ _ _) as [s1|]; [|done]. simpl in H1.
  assert (H2 := for_each_invariant I (fix_img file_path)
                  (find_all is_img_src (soup s1)) _ H1 Himg).
  unfold fix_img_tags.
  destruct (for_each _ _ _) as [s2|]; [|done]. simpl in H2.
  intros [= <-]. eexists. split; [|done]. by apply book_edits_rounds.
Qed.

Lemma assignments_real_app file_path tr out :
  (∀ i key v, SetAttr i key v ∉ out) →
  assignments_real file_path tr → assignments_real file_path (tr ++ out).
Proof.
  intros Hout H i key v [Hin|Hin]%elem_of_app; [|by apply Hout in Hin].
  destruct (H i key v Hin) as (old & Hne & [[-> Hp]|[-> Hp]]);
    exists old; (split; [done|]); [left|right];
    (split; [done|]); apply elem_of_app; by left.
Qed.

Lemma assignments_real_assign file_path tr i key old v :
  old ≠ v →
  (key = "href" ∧ PrintUpdatingLink file_path old v ∈ tr
   ∨ key = "src" ∧ PrintUpdatingImg file_path old v ∈ tr) →
  assignments_real file_path tr →
  assignments_real file_path (tr ++ [SetAttr i key v]).
Proof.
  intros Hne Hp H j key' v' [Hin|Hin]%elem_of_app.
  - destruct (H j key' v' Hin) as (old' & Hne' & [[-> Hp']|[-> Hp']]);
      exists old'; (split; [done|]); [left|right];
      (split; [done|]); apply elem_of_app; by left.
  - apply list_elem_of_singleton in Hin as [= -> -> ->].
    exists old. split; [done|].
    destruct Hp as [[-> Hp]|[-> Hp]]; [left|right];
      (split; [done|]); apply elem_of_app; by left.
Qed.

Lemma find_target_path_no_assignment w href index project_root i key v :
  SetAttr i key v ∉ (find_target_path w href index project_root).1.
Proof.
  unfold find_target_path. destruct (path_exists _ _); [by intros ?%elem_of_nil|].
  destruct (index !! _) as [targets|]; [|by intros ?%elem_of_nil]. simpl.
  destruct (1 <? length targets); [|by intros ?%elem_of_nil].
  by intros ?%list_elem_of_singleton.
Qed.

Lemma assignments_real_before_write w file_path project_root index content s' :
  fix_links_in_html w file_path project_root index content = Done s' →
  ∃ s, assignments_real file_path (trace s) ∧ s' = write_back file_path s.
Proof.
  apply (fix_links_in_html_rounds (λ s, assignments_real file_path (trace s))).
  - by intros i key v ?%elem_of_nil.
  - intros s a H. unfold fix_a.
    destruct (tag_attr a "href" (soup s)) as [href|]; [|done].
    destruct (is_skipped_href href); [done|].
    pose proof (find_target_path_no_assignment w href index project_root) as Hout.
    destruct (find_target_path _ _ _ _) as [out r]. simpl in Hout.
    pose proof (assignments_real_app file_path (trace s) out Hout H) as H'.
    destruct r as [target_rel|e]; [|done].
    destruct (truthy target_rel) as [t|]; simpl.
    + destruct (posixpath.relpath _ _ _) as [new_href|e]; [|done].
      destruct (negb _) eqn:Hneq; [|done]. simpl.
      apply negb_true_iff, String.eqb_neq in Hneq.
      apply (assignments_real_assign file_path _ a "href" href new_href).
      * congruence.
      * left. split; [done|]. apply elem_of_app. right.
        by apply list_elem_of_singleton.
      * apply assignments_real_app; [|done].
        by intros i key v ?%list_elem_of_singleton.
    + apply assignments_real_app; [|done].
      by intros i key v ?%list_elem_of_singleton.
  - intros s img H. unfold fix_img.
    destruct (tag_attr img "src" (soup s)) as [src|]; [|done].
    destruct (is_external_src src); [done|].
    destruct (negb (Str.contains "/" src)); [|done].
    destruct (negb _) eqn:Hneq; [|done]. simpl.
    apply negb_true_iff, String.eqb_neq in Hneq.
    apply (assignments_real_assign file_path _ img "src" src (asset_src src)).
    + congruence.
    + right. split; [done|]. apply elem_of_app. right.
      by apply list_elem_of_singleton.
    + apply assignments_real_app; [|done].
      by intros i key v ?%list_elem_of_singleton.
  - intros s x H. simpl. apply assignments_real_app; [|done].
    by intros i key v ?%list_elem_of_singleton.
  - intros s H. unfold remove_topics. destruct (head _) as [h|]; [|done].
    destruct (String.eqb _ _); [|done]. simpl.
    apply assignments_real_app; [|done].
    by intros i key v ?%list_elem_of_singleton.
  - intros s x H. simpl. apply assignments_real_app; [|done].
    by intros i key v ?%list_elem_of_singleton.
  - intros s x H. unfold remove_paragraph. case_bool_decide; [|done]. simpl.
    apply assignments_real_app; [|apply assignments_real_app; [|done]];
      by intros i key v ?%list_elem_of_singleton.
Qed.

Lemma assignments_real_write_back file_path s :
  assignments_real file_path (trace s) →
  assignments_real file_path (trace (write_back file_path s)).
Proof.
  intros H. unfold write_back. destruct (changed s); simpl.
  - apply assignments_real_app; [|done].
    intros i key v [?|?%list_elem_of_singleton]%elem_of_cons; done.
  - apply assignments_real_app; [|done].
    by intros i key v ?%list_elem_of_singleton.
Qed.

(** C7: a completed [fix_links_in_html] writes the file exactly when the
    document was changed: when an attribute was assigned, a tag decomposed or
    a tag renamed. What it writes is the document as changed; with no such
    change the document is the one that was read and nothing is written; and
    an attribute is assigned only as the href or src of a tag that had another
    value. *)
Theorem written_iff_changed w file_path project_root index content s' :
  fix_links_in_html w file_path project_root index content = Done s' →
  ((∃ c, WriteFile file_path c ∈ trace s')
   ↔ (∃ e, e ∈ trace s' ∧ is_mutation e = true))
  ∧ (∀ f c, WriteFile f c ∈ trace s' → f = file_path ∧ c = soup s')
  ∧ ((∀ e, e ∈ trace s' → is_mutation e = false) →
     soup s' = content ∧ ∀ f c, WriteFile f c ∉ trace s')
  ∧ assignments_real file_path (trace s').
Proof.
  intros H.
  assert (Hreal : assignments_real file_path (trace s')).
  { destruct (assignments_real_before_write _ _ _ _ _ _ H) as (s0 & Hr & ->).
    by apply assignments_real_write_back. }
  cut (((∃ c, WriteFile file_path c ∈ trace s')
        ↔ (∃ e, e ∈ trace s' ∧ is_mutation e = true))
       ∧ (∀ f c, WriteFile f c ∈ trace s' → f = file_path ∧ c = soup s')
       ∧ ((∀ e, e ∈ trace s' → is_mutation e = false) →
          soup s' = content ∧ ∀ f c, WriteFile f c ∉ trace s')).
  { intros (? & ? & ?). done. }
  clear Hreal. revert H.
  intros (s & (Hc & Hsame & Hnw) & ->)%changed_tracks_before_write.
  assert (Hold : ∀ f c, WriteFile f c ∉ trace s).
  { intros f c Hin. by pose proof (existsb_false_elem_of _ _ _ Hnw Hin). }
  unfold write_back. destruct (changed s) eqn:E; simpl.
  - symmetry in Hc. apply existsb_exists in Hc as (e & Hin%list_elem_of_In & He).
    split; [|split].
    + split.
      * intros _. exists e. split; [|done]. apply elem_of_app. by left.
      * intros _. exists (soup s). apply elem_of_app. right. by left.
    + intros f c [Hin'|Hin']%elem_of_app; [by apply Hold in Hin'|].
      apply elem_of_cons in Hin' as [[= -> ->]|Hin']; [done|].
      by apply list_elem_of_singleton in Hin'.
    + intros Hno. specialize (Hno e). rewrite He in Hno.
      discriminate Hno. apply elem_of_app. by left.
  - symmetry in Hc. split; [|split].
    + split.
      * intros [c [Hin|Hin]%elem_of_app]; [by apply Hold in Hin|].
        by apply list_elem_of_singleton in Hin.
      * intros (e & [Hin|Hin]%elem_of_app & He).
        -- by rewrite (existsb_false_elem_of _ _ _ Hc Hin) in He.
        -- by apply list_elem_of_singleton in Hin as ->.
    + intros f c [Hin|Hin]%elem_of_app; [by apply Hold in Hin|].
      by apply list_elem_of_singleton in Hin.
    + intros _. split; [by apply Hsame|].
      intros f c [Hin|Hin]%elem_of_app; [by apply Hold in Hin|].
      by apply list_elem_of_singleton in Hin.
Qed.

(** ** White space *)

Lemma join_empty_cons x l : Str.join "" (x :: l) = x +:+ Str.join "" l.
Proof.
  unfold Str.join. destruct l as [|y l]; simpl.
  - by rewrite string_app_nil_r.
  - done.
Qed.

Lemma remove_ws_app a b :
  Str.remove_ws (a +:+ b) = Str.remove_ws a +:+ Str.remove_ws b.
Proof.
  induction a as [|x a IH]; [done|]. rewrite string_app_cons. simpl.
  destruct (Str.is_space x); [apply IH|]. by rewrite string_app_cons, IH.
Qed.

Lemma remove_ws_lstrip s : Str.remove_ws (Str.lstrip_ws s) = Str.remove_ws s.
Proof.
  induction s as [|x s IH]; [done|]. simpl.
  destruct (Str.is_space x) eqn:E; [done|]. simpl. by rewrite E.
Qed.

Lemma remove_ws_cons x s :
  Str.remove_ws (String x s)
  = if Str.is_space x then Str.remove_ws s else String x (Str.remove_ws s).
Proof. done. Qed.

Lemma remove_ws_rstrip s : Str.remove_ws (Str.rstrip_ws s) = Str.remove_ws s.
Proof.
  induction s as [|x s IH]; [done|]. rewrite remove_ws_cons, <- IH.
  cbn [Str.rstrip_ws]. destruct (Str.rstrip_ws s) as [|y r].
  - destruct (Str.is_space x) eqn:E; [done|]. by rewrite remove_ws_cons, E.
  - by rewrite remove_ws_cons.
Qed.

Lemma remove_ws_strip s : Str.remove_ws (Str.strip s) = Str.remove_ws s.
Proof. unfold Str.strip. by rewrite remove_ws_rstrip, remove_ws_lstrip. Qed.

(** [''.join(s.split())] is [s] with its white space removed. *)
Lemma normalize_remove_ws s : normalize s = Str.remove_ws s.
Proof.
  unfold normalize. induction s as [|a s IH]; [done|]. simpl.
  destruct (Str.is_space a) eqn:Ea; [done|].
  destruct s as [|b s]; [done|].
  destruct (Str.is_space b) eqn:Eb.
  - rewrite join_empty_cons, IH. done.
  - rewrite <- IH. destruct (Str.split_ws (String b s)) as [|w ws] eqn:E.
    + simpl in E. rewrite Eb in E. destruct s as [|c s]; [done|].
      destruct (Str.is_space c); [done|]. by destruct (Str.split_ws _).
    + by rewrite !join_empty_cons.
Qed.

Lemma remove_ws_stripped_strings l :
  Str.remove_ws (Str.join "" (filter (λ s, s ≠ "") (map Str.strip l)))
  = Str.remove_ws (Str.join "" l).
Proof.
  induction l as [|x l IH]; [done|].
  rewrite join_empty_cons, remove_ws_app, <- IH, <- (remove_ws_strip x).
  cbn [map]. rewrite filter_cons. case_decide as E.
  - by rewrite join_empty_cons, remove_ws_app.
  - by rewrite E.
Qed.

(** The text the loop tests is the text content without its white space. *)
Lemma normalize_get_text n :
  normalize (get_text_strip n) = Str.remove_ws (text_content n).
Proof.
  rewrite normalize_remove_ws. unfold get_text_strip, text_content.
  apply remove_ws_stripped_strings.
Qed.

(** ** Locality of the operations *)

Lemma ids_cons n l : ids (n :: l) = ids [n] ++ ids l.
Proof. unfold ids. by rewrite tags_cons, tags_one, map_app. Qed.

Lemma ids_app l1 l2 : ids (l1 ++ l2) = ids l1 ++ ids l2.
Proof. unfold ids. by rewrite tags_app, map_app. Qed.

Lemma ids_tag i name attrs contents :
  ids [Tag i name attrs contents] = i :: ids contents.
Proof. unfold ids. by rewrite tags_one, tags_of_tag. Qed.

Lemma lookup_tag_app j l1 l2 :
  lookup_tag j (l1 ++ l2)
  = match lookup_tag j l1 with Some n => Some n | None => lookup_tag j l2 end.
Proof.
  unfold lookup_tag. induction l1 as [|n l1 IH]; [done|]. simpl.
  by destruct (lookup_in j n).
Qed.

Lemma lookup_tag_absent j l : j ∉ ids l → lookup_tag j l = None.
Proof.
  intros Hj. pose proof (lookup_tag_tags j l) as H. unfold found_first in H.
  destruct (lookup_tag j l) as [[| |i name attrs cs]|]; try done.
  destruct H as [-> H]. apply first_tag_Some in H as [Hin _].
  destruct Hj. by apply (list_elem_of_fmap_2 t_id _ _ Hin).
Qed.

Lemma lookup_tag_one j i name attrs contents :
  lookup_tag j [Tag i name attrs contents]
  = if Nat.eqb i j then Some (Tag i name attrs contents)
    else lookup_tag j contents.
Proof.
  unfold lookup_tag. simpl. destruct (i =? j); [done|].
  by destruct (first_some (lookup_in j) contents).
Qed.

Lemma decompose_app j l1 l2 :
  decompose j (l1 ++ l2) = decompose j l1 ++ decompose j l2.
Proof. apply omap_app. Qed.

Lemma decompose_one j i name attrs contents :
  decompose j [Tag i name attrs contents]
  = if Nat.eqb i j then [] else [Tag i name attrs (decompose j contents)].
Proof. unfold decompose. simpl. by destruct (i =? j). Qed.

Lemma decompose_in_absent j n : j ∉ ids [n] → decompose_in j n = Some n.
Proof.
  induction n using node_forest_ind
    with (Q := λ l, j ∉ ids l → decompose j l = l); try done.
  - rewrite ids_tag. intros [Hne Hj]%not_elem_of_cons. simpl.
    destruct (i =? j) eqn:E; [by apply Nat.eqb_eq in E|].
    fold (decompose j contents). by rewrite IHn.
  - rewrite ids_cons. intros [H1 H2]%not_elem_of_app.
    rewrite decompose_cons, IHn, IHn0; done.
Qed.

Lemma decompose_absent j l : j ∉ ids l → decompose j l = l.
Proof.
  induction l as [|n l IH]; [done|].
  rewrite ids_cons. intros [H1 H2]%not_elem_of_app.
  rewrite decompose_cons, decompose_in_absent, IH; done.
Qed.

Lemma ids_decompose j l x : x ∈ ids (decompose j l) → x ∈ ids l.
Proof.
  unfold ids. intros (t & -> & Ht)%list_elem_of_fmap.
  apply list_elem_of_fmap_2. eapply elem_of_sublist; [done|apply tags_decompose].
Qed.

Lemma find_all_ids p l j : j ∈ find_all p l → j ∈ ids l.
Proof.
  rewrite find_all_tags. unfold ids.
  intros (t & -> & Ht)%list_elem_of_fmap.
  apply list_elem_of_In, List.filter_In in Ht as [Ht _].
  by apply list_elem_of_fmap_2, list_elem_of_In.
Qed.

Lemma find_all_cons p n l : find_all p (n :: l) = find_all_in p n ++ find_all p l.
Proof. done. Qed.

Lemma find_all_one p n : find_all p [n] = find_all_in p n.
Proof. unfold find_all. simpl. apply app_nil_r. Qed.

Lemma ids_unique_cons n l :
  ids_unique (n :: l) →
  ids_unique [n] ∧ ids_unique l ∧ ∀ j, j ∈ ids [n] → j ∉ ids l.
Proof.
  unfold ids_unique. fold (ids (n :: l)) (ids [n]) (ids l). rewrite ids_cons.
  intros (H1 & H2 & H3)%NoDup_app. done.
Qed.

Lemma ids_unique_tag i name attrs contents :
  ids_unique [Tag i name attrs contents] →
  (i ∉ ids contents) ∧ ids_unique contents.
Proof.
  unfold ids_unique. fold (ids [Tag i name attrs contents]) (ids contents).
  rewrite ids_tag. by intros [??]%NoDup_cons.
Qed.

(** ** The paragraph loop *)

Lemma soup_remove_paragraphs_loop file_path s ps :
  soup (foldl (remove_paragraph file_path) s ps) = foldl paragraph_round (soup s) ps.
Proof.
  revert s. induction ps as [|p ps IH]; intros s; [done|]. simpl. rewrite IH.
  f_equal. unfold remove_paragraph, paragraph_round. by case_bool_decide.
Qed.

Lemma tag_text_app_l j l g : j ∉ ids g → tag_text j (l ++ g) = tag_text j l.
Proof.
  intros Hj. unfold tag_text. rewrite lookup_tag_app, (lookup_tag_absent j g Hj).
  by destruct (lookup_tag j l).
Qed.

Lemma tag_text_app_r j l g : j ∉ ids l → tag_text j (l ++ g) = tag_text j g.
Proof.
  intros Hj. unfold tag_text. by rewrite lookup_tag_app, (lookup_tag_absent j l Hj).
Qed.

Lemma paragraph_round_ids l j x : x ∈ ids (paragraph_round l j) → x ∈ ids l.
Proof.
  unfold paragraph_round. case_bool_decide; [apply ids_decompose|done].
Qed.

Lemma paragraph_rounds_ids l ps x :
  x ∈ ids (foldl paragraph_round l ps) → x ∈ ids l.
Proof.
  revert l. induction ps as [|p ps IH]; intros l; [done|]. simpl.
  intros H%IH. by eapply paragraph_round_ids.
Qed.

(** Rounds for tags that are not in [g] leave [g] alone. *)
Lemma paragraph_rounds_app_l l g ps :
  (∀ j, j ∈ ps → j ∉ ids g) →
  foldl paragraph_round (l ++ g) ps = foldl paragraph_round l ps ++ g.
Proof.
  revert l. induction ps as [|p ps IH]; intros l Hps; [done|]. simpl.
  assert (Hp : p ∉ ids g) by (apply Hps; by left).
  rewrite <- IH by (intros j Hj; apply Hps; by right). f_equal.
  unfold paragraph_round. rewrite tag_text_app_l by done.
  case_bool_decide; [|done].
  by rewrite decompose_app, (decompose_absent p g).
Qed.

(** Rounds for tags that are not in [l] leave [l] alone. *)
Lemma paragraph_rounds_app_r l g ps :
  (∀ j, j ∈ ps → j ∉ ids l) →
  foldl paragraph_round (l ++ g) ps = l ++ foldl paragraph_round g ps.
Proof.
  revert g. induction ps as [|p ps IH]; intros g Hps; [done|]. simpl.
  assert (Hp : p ∉ ids l) by (apply Hps; by left).
  rewrite <- IH by (intros j Hj; apply Hps; by right). f_equal.
  unfold paragraph_round. rewrite tag_text_app_r by done.
  case_bool_decide; [|done].
  by rewrite decompose_app, (decompose_absent p l).
Qed.

(** Rounds for the tags inside a tag work on its contents. *)
Lemma paragraph_rounds_inside i name attrs contents ps :
  i ∉ ps →
  foldl paragraph_round [Tag i name attrs contents] ps
  = [Tag i name attrs (foldl paragraph_round contents ps)].
Proof.
  revert contents. induction ps as [|p ps IH]; intros contents Hi; [done|].
  apply not_elem_of_cons in Hi as [Hne Hi]. simpl. rewrite <- IH by done.
  f_equal. unfold paragraph_round, tag_text. rewrite lookup_tag_one.
  destruct (i =? p) eqn:E; [by apply Nat.eqb_eq in E|].
  case_bool_decide; [|done]. by rewrite decompose_one, E.
Qed.

Lemma paragraph_rounds_nil ps : foldl paragraph_round [] ps = [].
Proof.
  induction ps as [|p ps IH]; [done|]. simpl.
  unfold paragraph_round at 2. by case_bool_decide.
Qed.

Lemma without_unwanted_cons n l :
  without_unwanted_paragraphs (n :: l)
  = option_list (without_unwanted_in n) ++ without_unwanted_paragraphs l.
Proof.
  unfold without_unwanted_paragraphs. simpl. by destruct (without_unwanted_in n).
Qed.

(** The loop removes what the rule says, in a document whose tags are
    distinct objects. *)
Lemma paragraph_loop_in n :
  ids_unique [n] →
  foldl paragraph_round [n] (find_all_in is_p n) = option_list (without_unwanted_in n).
Proof.
  induction n using node_forest_ind
    with (Q := λ l, ids_unique l →
                    foldl paragraph_round l (find_all is_p l)
                    = without_unwanted_paragraphs l); try done.
  - intros [Hi Hu]%ids_unique_tag. specialize (IHn Hu).
    assert (Hps : i ∉ find_all is_p contents).
    { intros Hin%find_all_ids. exact (Hi Hin). }
    cbn [find_all_in without_unwanted_in is_unwanted_paragraph].
    fold (find_all is_p contents). unfold is_p at 1.
    fold (without_unwanted_paragraphs contents).
    destruct (String.eqb name "p") eqn:Ep; simpl.
    + unfold paragraph_round at 2. unfold tag_text.
      rewrite lookup_tag_one, Nat.eqb_refl, normalize_get_text.
      case_bool_decide.
      * rewrite decompose_one, Nat.eqb_refl. apply paragraph_rounds_nil.
      * by rewrite paragraph_rounds_inside, IHn.
    + by rewrite paragraph_rounds_inside, IHn.
  - intros (Hn & Hl & Hdisj)%ids_unique_cons.
    specialize (IHn Hn). specialize (IHn0 Hl).
    rewrite find_all_cons, foldl_app, without_unwanted_cons.
    change (n :: l) with ([n] ++ l).
    rewrite paragraph_rounds_app_l.
    + rewrite paragraph_rounds_app_r.
      * by rewrite IHn, IHn0.
      * intros j Hj%find_all_ids Hin.
        apply paragraph_rounds_ids in Hin. by apply (Hdisj j).
    + intros j Hj. apply Hdisj. apply (find_all_ids is_p).
      by rewrite find_all_one.
Qed.

Lemma paragraph_loop l :
  ids_unique l →
  foldl paragraph_round l (find_all is_p l) = without_unwanted_paragraphs l.
Proof.
  induction l as [|n l IH]; [done|].
  intros (Hn & Hl & Hdisj)%ids_unique_cons.
  rewrite find_all_cons, foldl_app, without_unwanted_cons.
  change (n :: l) with ([n] ++ l).
  rewrite paragraph_rounds_app_l.
  - rewrite paragraph_rounds_app_r.
    + by rewrite paragraph_loop_in, IH.
    + intros j Hj%find_all_ids Hin.
      apply paragraph_rounds_ids in Hin. by apply (Hdisj j).
  - intros j Hj. apply Hdisj. apply (find_all_ids is_p).
    by rewrite find_all_one.
Qed.

(** ** Distinct identities through the operations *)

Lemma fix_links_in_html_attributes w file_path project_root index content :
  fix_links_in_html w file_path project_root index content
  = match fix_attributes w file_path project_root index content with
    | Aborted e s => Aborted e s
    | Done s => Done (write_back file_path (book_edits file_path s))
    end.
Proof.
  unfold fix_links_in_html, fix_attributes.
  by destruct (fix_a_tags _ _ _ _ _).
Qed.

Lemma ids_set_name i name l : ids (set_name i name l) = ids l.
Proof. unfold ids. rewrite tags_set_name, map_map. by apply map_ext. Qed.

Lemma ids_unique_set_attr i key v l :
  ids_unique l → ids_unique (set_attr i key v l).
Proof. unfold ids_unique. by rewrite ids_set_attr. Qed.

Lemma ids_unique_set_name i name l :
  ids_unique l → ids_unique (set_name i name l).
Proof.
  unfold ids_unique. fold (ids l) (ids (set_name i name l)).
  by rewrite ids_set_name.
Qed.

Lemma ids_unique_decompose i l : ids_unique l → ids_unique (decompose i l).
Proof.
  unfold ids_unique. intros H. eapply sublist_NoDup; [done|].
  apply fmap_sublist, tags_decompose.
Qed.

Lemma ids_unique_fix_a w file_path project_root index s a :
  ids_unique (soup s) →
  ids_unique (soup (final (fix_a w file_path project_root index s a))).
Proof.
  intros H.
  destruct (fix_a_soup w file_path project_root index s a)
    as [->|(? & ? & _ & _ & ->)]; [done|]. by apply ids_unique_set_attr.
Qed.

Lemma ids_unique_fix_img file_path s img :
  ids_unique (soup s) → ids_unique (soup (final (fix_img file_path s img))).
Proof.
  intros H.
  destruct (fix_img_soup file_path s img) as [->|(? & _ & _ & _ & ->)]; [done|].
  by apply ids_unique_set_attr.
Qed.

Lemma ids_unique_fix_attributes w file_path project_root index content :
  ids_unique content →
  ids_unique (soup (final (fix_attributes w file_path project_root index content))).
Proof.
  intros H. unfold fix_attributes.
  assert (H1 : ids_unique (soup (final (fix_a_tags w file_path project_root index
                                          (State content false []))))).
  { unfold fix_a_tags. apply (for_each_invariant (λ s, ids_unique (soup s)));
      [done|]. intros s a. apply ids_unique_fix_a. }
  destruct (fix_a_tags _ _ _ _ _) as [s1|]; [|done].
  unfold fix_img_tags. apply (for_each_invariant (λ s, ids_unique (soup s)));
    [done|]. intros s a. apply ids_unique_fix_img.
Qed.

Lemma ids_unique_before_paragraphs s :
  ids_unique (soup s) → ids_unique (soup (book_edits_before_paragraphs s)).
Proof.
  intros H. unfold book_edits_before_paragraphs, rename_h3s.
  apply (foldl_invariant (λ s, ids_unique (soup s))).
  - unfold remove_topics.
    assert (ids_unique (soup (remove_citations s))) as Hc.
    { unfold remove_citations.
      apply (foldl_invariant (λ s, ids_unique (soup s))); [done|].
      intros s' x. apply ids_unique_decompose. }
    destruct (head _) as [h|]; [|done].
    destruct (String.eqb _ _); [|done]. by apply ids_unique_decompose.
  - intros s' x. apply ids_unique_set_name.
Qed.

(** C9 as amended: in the book, and only there, the paragraph loop works on
    the document as the removal of the citations and of the Topics heading and
    the renaming of the headings leave it. It removes every paragraph whose
    text content there, all white space removed, is one of the two literals,
    with all that the paragraph contains, and keeps the other tags: the
    document that a completed [fix_links_in_html] ends with is the one before
    the paragraph loop without its unwanted paragraphs; in any other file the
    loops over the attributes are all there is. *)
Theorem unwanted_paragraphs_removed w file_path project_root index content s :
  ids_unique content →
  fix_attributes w file_path project_root index content = Done s →
  fix_links_in_html w file_path project_root index content
  = Done (write_back file_path (book_edits file_path s))
  ∧ (posixpath.basename file_path = book →
     soup (book_edits file_path s)
     = without_unwanted_paragraphs (soup (book_edits_before_paragraphs s)))
  ∧ (posixpath.basename file_path ≠ book → book_edits file_path s = s).
Proof.
  intros Hu Hs. rewrite fix_links_in_html_attributes, Hs.
  split; [done|]. unfold book_edits. split.
  - intros ->. rewrite String.eqb_refl. unfold remove_paragraphs.
    rewrite soup_remove_paragraphs_loop. apply paragraph_loop.
    apply ids_unique_before_paragraphs.
    pose proof (ids_unique_fix_attributes w file_path project_root index content Hu)
      as H. by rewrite Hs in H.
  - intros Hne. destruct (String.eqb _ _) eqn:E; [|done].
    by apply String.eqb_eq in E.
Qed.

(** ** Loops, with what is left of their list *)

Lemma for_each_remaining (I : list tag_id → state → Prop)
    (body : state → tag_id → outcome) l s s' :
  I l s →
  (∀ x l' s s', I (x :: l') s → body s x = Done s' → I l' s') →
  for_each body l s = Done s' → I [] s'.
Proof.
  intros Hs Hb. revert s Hs. induction l as [|x l IH]; intros s Hs.
  - by intros [= <-].
  - rewrite for_each_cons. destruct (body s x) as [s1|] eqn:E; [|done].
    apply IH. by eapply Hb.
Qed.

Lemma foldl_remaining (I : list tag_id → state → Prop)
    (f : state → tag_id → state) l s :
  I l s → (∀ x l' s, I (x :: l') s → I l' (f s x)) → I [] (foldl f s l).
Proof.
  intros Hs Hf. revert s Hs. induction l as [|x l IH]; intros s Hs; [done|].
  simpl. apply IH. by apply Hf.
Qed.

Lemma for_each_noop (body : state → tag_id → outcome) l s :
  (∀ x, x ∈ l → body s x = Done s) → for_each body l s = Done s.
Proof.
  induction l as [|x l IH]; intros H; [done|].
  rewrite for_each_cons, H by (by left). apply IH. intros y Hy. apply H. by right.
Qed.

(** ** Properties of all the tags through the operations *)

Lemma all_tags_decompose P j l : all_tags P l → all_tags P (decompose j l).
Proof.
  intros H t Ht. apply H. eapply elem_of_sublist; [done|apply tags_decompose].
Qed.

Lemma all_tags_set_name P j name l :
  (∀ t, P t → P (with_name j name t)) →
  all_tags P l → all_tags P (set_name j name l).
Proof.
  intros HP H t. rewrite tags_set_name.
  intros (t0 & -> & Ht0)%list_elem_of_fmap. by apply HP, H.
Qed.

Lemma all_tags_set_attr P j key v l :
  (∀ t, P t → P (with_attr j key v t)) →
  all_tags P l → all_tags P (set_attr j key v l).
Proof.
  intros HP H t. rewrite tags_set_attr.
  intros (t0 & -> & Ht0)%list_elem_of_fmap. by apply HP, H.
Qed.

Lemma find_all_none p l : all_tags (fails p) l → find_all p l = [].
Proof.
  intros H. rewrite find_all_tags.
  replace (List.filter (passes p) (tags l)) with (@nil tag_info); [done|].
  symmetry. unfold all_tags in H. induction (tags l) as [|t ts IH]; [done|].
  simpl. unfold passes at 1. rewrite (H t) by (by left).
  apply IH. intros t' Ht'. apply H. by right.
Qed.

Lemma find_all_elem_inv p l j :
  j ∈ find_all p l →
  ∃ t, t ∈ tags l ∧ t_id t = j ∧ p (t_name t) (t_attrs t) = true.
Proof.
  rewrite find_all_tags. intros (t & -> & Ht)%list_elem_of_fmap.
  apply list_elem_of_In, List.filter_In in Ht as [Ht Hp].
  exists t. by rewrite list_elem_of_In.
Qed.

Section second_pass.
Variable P : tag_info → Prop.
Hypothesis Hrename : ∀ j t, P t → P (with_name j "h2" t).

Lemma all_tags_remove_topics s :
  all_tags P (soup s) → all_tags P (soup (remove_topics s)).
Proof using Type.
  intros H. unfold remove_topics. destruct (head _) as [h|]; [|done].
  destruct (String.eqb _ _); [|done]. by apply all_tags_decompose.
Qed.

Lemma all_tags_remove_paragraphs file_path s :
  all_tags P (soup s) → all_tags P (soup (remove_paragraphs file_path s)).
Proof using Type.
  intros H. unfold remove_paragraphs.
  apply (foldl_invariant (λ s, all_tags P (soup s))); [done|].
  intros s' x Hs'. unfold remove_paragraph. case_bool_decide; [|done].
  by apply all_tags_decompose.
Qed.

Lemma all_tags_book_edits file_path s :
  all_tags P (soup s) → all_tags P (soup (book_edits file_path s)).
Proof using Hrename.
  intros H. apply (book_edits_rounds (λ s, all_tags P (soup s))); try done.
  - intros s' x. apply all_tags_decompose.
  - apply all_tags_remove_topics.
  - intros s' x. apply all_tags_set_name, Hrename.
  - intros s' x Hs'. unfold remove_paragraph. case_bool_decide; [|done].
    by apply all_tags_decompose.
Qed.

Hypothesis Hhref : ∀ j v t, P t → P (with_attr j "href" v t).

Lemma all_tags_fix_a_tags w file_path project_root index s :
  all_tags P (soup s) →
  all_tags P (soup (final (fix_a_tags w file_path project_root index s))).
Proof using Hhref.
  intros H. unfold fix_a_tags.
  apply (for_each_invariant (λ s, all_tags P (soup s))); [done|].
  intros s' a Hs'.
  destruct (fix_a_soup w file_path project_root index s' a)
    as [->|(? & ? & _ & _ & ->)]; [done|].
  apply all_tags_set_attr; [apply Hhref|done].
Qed.
End second_pass.

Lemma with_attr_other_key j key v t key' :
  key ≠ key' → t_attrs (with_attr j key v t) !! key' = t_attrs t !! key'.
Proof.
  intros Hne. unfold with_attr. simpl.
  destruct (t_id t =? j); [by rewrite lookup_insert_ne|done].
Qed.

Lemma settled_rename j t : settled t → settled (with_name j "h2" t).
Proof.
  unfold settled, with_name. simpl. destruct (t_id t =? j); [|done].
  intros _. unfold is_img_src. simpl. done.
Qed.

Lemma settled_href j v t : settled t → settled (with_attr j "href" v t).
Proof.
  unfold settled, is_img_src, has_attr.
  rewrite (with_attr_other_key j "href" v t "src") by done. done.
Qed.

Lemma fails_citation_rename j t :
  fails is_citation t → fails is_citation (with_name j "h2" t).
Proof. unfold fails, with_name. simpl. by destruct (t_id t =? j). Qed.

Lemma fails_citation_href j v t :
  fails is_citation t → fails is_citation (with_attr j "href" v t).
Proof.
  unfold fails, is_citation.
  rewrite (with_attr_other_key j "href" v t "class") by done. done.
Qed.

Lemma fails_h3_rename j t : fails is_h3 t → fails is_h3 (with_name j "h2" t).
Proof. unfold fails, with_name. simpl. by destruct (t_id t =? j). Qed.

Lemma fails_h3_href j v t : fails is_h3 t → fails is_h3 (with_attr j "href" v t).
Proof. done. Qed.

Lemma with_attr_other j key v t : t_id t ≠ j → with_attr j key v t = t.
Proof.
  intros Hne. unfold with_attr. destruct t as [i name attrs]. simpl in *.
  destruct (i =? j) eqn:E; [by apply Nat.eqb_eq in E|done].
Qed.

Lemma with_name_other j name t : t_id t ≠ j → with_name j name t = t.
Proof.
  intros Hne. unfold with_name. destruct t as [i name' attrs]. simpl in *.
  destruct (i =? j) eqn:E; [by apply Nat.eqb_eq in E|done].
Qed.

Lemma tag_attr_unique i key l t :
  ids_unique l → t ∈ tags l → t_id t = i → tag_attr i key l = t_attrs t !! key.
Proof.
  intros Hu Hin Hid.
  destruct (tag_attr_present i key l t Hin Hid) as (t' & Hin' & Hid' & ->).
  rewrite (ids_unique_same l t t' Hu Hin Hin'); [done|congruence].
Qed.

(** After its loop every [<img>] tag is one that the loop leaves alone. *)
Lemma fix_img_tags_settles file_path s1 s2 :
  ids_unique (soup s1) →
  fix_img_tags file_path s1 = Done s2 →
  all_tags settled (soup s2).
Proof.
  intros Hu H.
  cut (ids_unique (soup s2)
       ∧ ∀ t, t ∈ tags (soup s2) → settled t ∨ t_id t ∈ @nil tag_id).
  { intros [_ Hs] t Ht. destruct (Hs t Ht) as [?|[]%elem_of_nil]. done. }
  revert H. unfold fix_img_tags.
  apply (for_each_remaining
           (λ rem s, ids_unique (soup s)
                     ∧ ∀ t, t ∈ tags (soup s) → settled t ∨ t_id t ∈ rem)).
  - split; [done|]. intros t Ht.
    destruct (is_img_src (t_name t) (t_attrs t)) eqn:E.
    + right. by apply find_all_elem_of.
    + left. unfold settled. by rewrite E.
  - intros x l' s s' [Hus Hs]. unfold fix_img.
    destruct (tag_attr x "src" (soup s)) as [src|] eqn:Hattr; [|done].
    assert (Hkeep : settled_src src → ids_unique (soup s)
              ∧ ∀ t, t ∈ tags (soup s) → settled t ∨ t_id t ∈ l').
    { intros Hsrc. split; [done|]. intros t Ht.
      destruct (decide (t_id t = x)) as [Hid|Hne].
      - left. intros _. exists src. split; [|done].
        by rewrite <- (tag_attr_unique x "src" (soup s) t).
      - destruct (Hs t Ht) as [?|[?|?]%elem_of_cons]; auto. done. }
    destruct (is_external_src src) eqn:Hext.
    { intros [= <-]. apply Hkeep. by left. }
    destruct (Str.contains "/" src) eqn:Hsep; simpl.
    { intros [= <-]. apply Hkeep. by right. }
    destruct (negb (String.eqb (asset_src src) src)) eqn:Hneq.
    + intros [= <-]. simpl. split; [by apply ids_unique_set_attr|].
      intros t. rewrite tags_set_attr.
      intros (t0 & -> & Ht0)%list_elem_of_fmap.
      destruct (decide (t_id t0 = x)) as [Hid|Hne].
      * left. intros _. exists (asset_src src). unfold with_attr. simpl.
        rewrite Hid, Nat.eqb_refl, lookup_insert_eq. split; [done|].
        right. apply asset_src_has_sep.
      * rewrite with_attr_other by done.
        destruct (Hs t0 Ht0) as [?|[?|?]%elem_of_cons]; auto. done.
    + apply negb_false_iff, String.eqb_eq in Hneq.
      pose proof (asset_src_has_sep src) as Hc. rewrite Hneq in Hc. congruence.
Qed.

(** The [<img>] loop does nothing on a document whose tags are settled. *)
Lemma fix_img_tags_settled file_path s :
  ids_unique (soup s) → all_tags settled (soup s) →
  fix_img_tags file_path s = Done s.
Proof.
  intros Hu Hs. unfold fix_img_tags. apply for_each_noop.
  intros x (t & Ht & Hid & Hp)%find_all_elem_inv.
  destruct (Hs t Ht Hp) as (src & Hsrc & Hset).
  unfold fix_img. rewrite (tag_attr_unique x "src" (soup s) t), Hsrc by done.
  destruct Hset as [-> | ->]; [done|]. by destruct (is_external_src src).
Qed.

(** After the citation loop no citation is left. *)
Lemma remove_citations_none s :
  all_tags (fails is_citation) (soup (remove_citations s)).
Proof.
  cut (∀ t, t ∈ tags (soup (remove_citations s)) →
            is_citation (t_name t) (t_attrs t) = true → t_id t ∈ @nil tag_id).
  { intros H t Ht. unfold fails.
    destruct (is_citation _ _) eqn:E; [|done].
    by apply H, elem_of_nil in E. }
  unfold remove_citations.
  apply (foldl_remaining
           (λ rem s, ∀ t, t ∈ tags (soup s) →
                          is_citation (t_name t) (t_attrs t) = true → t_id t ∈ rem)).
  - intros t Ht Hp. by apply find_all_elem_of.
  - intros x l' s' H t Ht Hp. simpl in Ht.
    destruct (tags_decompose x (soup s')) as [Hsub Hne].
    pose proof (Hne t Ht).
    pose proof (H t (elem_of_sublist _ _ _ Ht Hsub) Hp) as [?|?]%elem_of_cons;
      done.
Qed.

(** After the heading loop no [<h3>] is left. *)
Lemma rename_h3s_none s : all_tags (fails is_h3) (soup (rename_h3s s)).
Proof.
  cut (∀ t, t ∈ tags (soup (rename_h3s s)) →
            is_h3 (t_name t) (t_attrs t) = true → t_id t ∈ @nil tag_id).
  { intros H t Ht. unfold fails.
    destruct (is_h3 _ _) eqn:E; [|done].
    by apply H, elem_of_nil in E. }
  unfold rename_h3s.
  apply (foldl_remaining
           (λ rem s, ∀ t, t ∈ tags (soup s) →
                          is_h3 (t_name t) (t_attrs t) = true → t_id t ∈ rem)).
  - intros t Ht Hp. by apply find_all_elem_of.
  - intros x l' s' H t. simpl. rewrite tags_set_name.
    intros (t0 & -> & Ht0)%list_elem_of_fmap.
    destruct (decide (t_id t0 = x)) as [Hid|Hne].
    + unfold with_name, is_h3. simpl. by rewrite Hid, Nat.eqb_refl.
    + rewrite with_name_other by done. intros Hp.
      pose proof (H t0 Ht0 Hp) as [?|?]%elem_of_cons; done.
Qed.

Lemma ids_unique_book_edits file_path s :
  ids_unique (soup s) → ids_unique (soup (book_edits file_path s)).
Proof.
  intros H. apply (book_edits_rounds (λ s, ids_unique (soup s))); try done.
  - intros s' x. apply ids_unique_decompose.
  - intros s' Hs'. unfold remove_topics. destruct (head _) as [h|]; [|done].
    destruct (String.eqb _ _); [|done]. by apply ids_unique_decompose.
  - intros s' x. apply ids_unique_set_name.
  - intros s' x Hs'. unfold remove_paragraph. case_bool_decide; [|done].
    by apply ids_unique_decompose.
Qed.

Lemma all_tags_rename_h3s P s :
  (∀ j t, P t → P (with_name j "h2" t)) →
  all_tags P (soup s) → all_tags P (soup (rename_h3s s)).
Proof.
  intros HP H. unfold rename_h3s.
  apply (foldl_invariant (λ s, all_tags P (soup s))); [done|].
  intros s' x. apply all_tags_set_name, HP.
Qed.

(** What a completed first pass leaves. *)
Lemma first_pass_leaves w file_path project_root index content s1 :
  ids_unique content →
  fix_links_in_html w file_path project_root index content = Done s1 →
  ids_unique (soup s1) ∧ all_tags settled (soup s1)
  ∧ (posixpath.basename file_path = book →
     all_tags (fails is_citation) (soup s1) ∧ all_tags (fails is_h3) (soup s1)).
Proof.
  intros Hu. rewrite fix_links_in_html_attributes.
  pose proof (ids_unique_fix_attributes w file_path project_root index content Hu)
    as Hu2.
  destruct (fix_attributes _ _ _ _ _) as [s2|] eqn:E; [|done]. simpl in Hu2.
  intros [= <-]. rewrite soup_write_back. split; [|split].
  - by apply ids_unique_book_edits.
  - apply all_tags_book_edits; [apply settled_rename|].
    unfold fix_attributes in E.
    assert (Hua : ids_unique (soup (final (fix_a_tags w file_path project_root index
                                             (State content false []))))).
    { unfold fix_a_tags. apply (for_each_invariant (λ s, ids_unique (soup s)));
        [done|]. intros s a. apply ids_unique_fix_a. }
    destruct (fix_a_tags _ _ _ _ _) as [sa|]; [|done].
    by eapply fix_img_tags_settles.
  - intros Hbook. unfold book_edits. rewrite Hbook, String.eqb_refl.
    unfold book_edits_before_paragraphs. split.
    + apply all_tags_remove_paragraphs.
      apply all_tags_rename_h3s; [apply fails_citation_rename|].
      apply all_tags_remove_topics, remove_citations_none.
    + apply all_tags_remove_paragraphs, rename_h3s_none.
Qed.

(** C8 as amended: on the document that a first pass ends with, a second pass
    leaves every [<img>] src alone, finds no citation to remove and no [<h3>]
    to rename: it does what the loop over the [<a>] tags, the removal of the
    Topics heading and the paragraph loop do, and nothing else. (Those three
    can act again.) *)
Theorem second_pass_skips w file_path project_root index content s1 w' index' :
  ids_unique content →
  fix_links_in_html w file_path project_root index content = Done s1 →
  fix_links_in_html w' file_path project_root index' (soup s1)
  = match fix_a_tags w' file_path project_root index' (State (soup s1) false [])
    with
    | Aborted e s => Aborted e s
    | Done s =>
        Done (write_back file_path
                (if String.eqb (posixpath.basename file_path) book
                 then remove_paragraphs file_path (remove_topics s)
                 else s))
    end.
Proof.
  intros Hu H1.
  destruct (first_pass_leaves _ _ _ _ _ _ Hu H1) as (Hu1 & Hset1 & Hbook1).
  unfold fix_links_in_html. set (s0 := State (soup s1) false []).
  assert (Hua : ids_unique (soup (final (fix_a_tags w' file_path project_root
                                           index' s0)))).
  { unfold fix_a_tags. apply (for_each_invariant (λ s, ids_unique (soup s)));
      [done|]. intros s a. apply ids_unique_fix_a. }
  pose proof (all_tags_fix_a_tags settled settled_href w' file_path project_root
                index' s0 Hset1) as Hseta.
  assert (Hbooka : posixpath.basename file_path = book →
            all_tags (fails is_citation)
              (soup (final (fix_a_tags w' file_path project_root index' s0)))
            ∧ all_tags (fails is_h3)
                (soup (final (fix_a_tags w' file_path project_root index' s0)))).
  { intros [Hc Hh]%Hbook1. split.
    - by apply all_tags_fix_a_tags; [apply fails_citation_href|].
    - by apply all_tags_fix_a_tags; [apply fails_h3_href|]. }
  destruct (fix_a_tags w' file_path project_root index' s0) as [s|]; [|done].
  simpl in *. rewrite fix_img_tags_settled by done.
  do 2 f_equal. unfold book_edits.
  destruct (String.eqb _ _) eqn:E; [|done].
  apply String.eqb_eq in E. destruct (Hbooka E) as [Hc Hh]. f_equal.
  unfold book_edits_before_paragraphs.
  assert (remove_citations s = s) as ->.
  { unfold remove_citations. by rewrite find_all_none. }
  unfold rename_h3s. rewrite find_all_none; [done|].
  by apply all_tags_remove_topics.
Qed.

(** ** Completion *)

Lemma for_each_done (I : state → Prop) (body : state → tag_id → outcome) l s :
  I s →
  (∀ s x, x ∈ l → I s → ∃ s', body s x = Done s' ∧ I s') →
  ∃ s', for_each body l s = Done s' ∧ I s'.
Proof.
  revert s. induction l as [|x l IH]; intros s Hs Hb; [by exists s|].
  rewrite for_each_cons.
  destruct (Hb s x) as (s1 & -> & H1); [by left|done|].
  apply IH; [done|]. intros s2 y Hy. apply Hb. by right.
Qed.

(** With a root and an index whose entries are not empty, the resolution
    raises nothing. *)
Lemma find_target_path_ok w href index project_root :
  project_root ≠ "" → index_nonempty index →
  ∃ out target, find_target_path w href index project_root = (out, Ok target).
Proof.
  intros Hroot Hidx. unfold find_target_path.
  destruct (path_exists _ _).
  - destruct (relpath_ok (cwd w)
                (posixpath.join project_root (normalized_href href)) project_root)
      as [rel ->]; [by apply join_nonempty|]. by eexists _, _.
  - destruct (index !! _) as [targets|] eqn:E; [|by eexists _, _].
    destruct targets as [|t targets]; [by destruct (Hidx _ _ E)|].
    by eexists _, _.
Qed.

Lemma all_there_find_all p soup :
  ids_unique soup → all_there p (find_all p soup) soup.
Proof. intros Hu. split; [done|]. intros x. apply find_all_elem_inv. Qed.

Lemma all_there_set_attr p l soup i key v :
  (∀ name attrs, p name attrs = true → p name (<[key := v]> attrs) = true) →
  all_there p l soup → all_there p l (set_attr i key v soup).
Proof.
  intros Hp [Hu H]. split; [by apply ids_unique_set_attr|].
  intros x (t & Ht & Hid & Hpt)%H. exists (with_attr i key v t).
  split; [|split].
  - rewrite tags_set_attr. by apply list_elem_of_fmap_2.
  - done.
  - unfold with_attr. simpl. destruct (t_id t =? i); [by apply Hp|done].
Qed.

Lemma fix_a_done w file_path project_root index l s a :
  project_root ≠ "" → index_nonempty index →
  a ∈ l → all_there is_a_href l (soup s) →
  ∃ s', fix_a w file_path project_root index s a = Done s'
        ∧ all_there is_a_href l (soup s').
Proof.
  intros Hroot Hidx Ha Hall. pose proof Hall as [Hu H].
  destruct (H a Ha) as (t & Ht & Hid & Hp).
  unfold fix_a. rewrite (tag_attr_unique a "href" (soup s) t) by done.
  unfold is_a_href, has_attr in Hp.
  destruct (t_attrs t !! "href") as [href|]; [|by rewrite andb_false_r in Hp].
  destruct (is_skipped_href href); [by exists s|].
  destruct (find_target_path_ok w href index project_root Hroot Hidx)
    as (out & target & ->). simpl.
  destruct (truthy target) as [target_rel|]; [|by eexists].
  destruct (relpath_ok (cwd w) (posixpath.join project_root target_rel)
              (posixpath.dirname file_path)) as [new_href ->];
    [by apply join_nonempty|].
  destruct (negb _); [|by eexists].
  eexists. split; [done|]. simpl. apply all_there_set_attr; [|done].
  intros name attrs. unfold is_a_href, has_attr.
  rewrite lookup_insert_eq. by intros [-> _]%andb_true_iff.
Qed.

Lemma fix_img_done file_path l s img :
  img ∈ l → all_there is_img_src l (soup s) →
  ∃ s', fix_img file_path s img = Done s' ∧ all_there is_img_src l (soup s').
Proof.
  intros Himg Hall. pose proof Hall as [Hu H].
  destruct (H img Himg) as (t & Ht & Hid & Hp).
  unfold fix_img. rewrite (tag_attr_unique img "src" (soup s) t) by done.
  unfold is_img_src, has_attr in Hp.
  destruct (t_attrs t !! "src") as [src|]; [|by rewrite andb_false_r in Hp].
  destruct (is_external_src src); [by exists s|].
  destruct (negb (Str.contains "/" src)); [|by exists s].
  destruct (negb _); [|by eexists].
  eexists. split; [done|]. simpl. apply all_there_set_attr; [|done].
  intros name attrs. unfold is_img_src, has_attr.
  rewrite lookup_insert_eq. by intros [-> _]%andb_true_iff.
Qed.

(** [fix_links_in_html] completes on a document whose tags are distinct
    objects, with a root and an index as [build_html_index] builds it. *)
Lemma fix_links_in_html_completes w file_path project_root index content :
  ids_unique content → project_root ≠ "" → index_nonempty index →
  ∃ s', fix_links_in_html w file_path project_root index content = Done s'.
Proof.
  intros Hu Hroot Hidx. unfold fix_links_in_html, fix_a_tags. cbn [soup].
  destruct (for_each_done
              (λ s, all_there is_a_href (find_all is_a_href content) (soup s))
              (fix_a w file_path project_root index)
              (find_all is_a_href content) (State content false []))
    as (s1 & -> & [Hu1 _]).
  { by apply all_there_find_all. }
  { intros s a. by apply fix_a_done. }
  unfold fix_img_tags.
  destruct (for_each_done
              (λ s, all_there is_img_src (find_all is_img_src (soup s1)) (soup s))
              (fix_img file_path)
              (find_all is_img_src (soup s1)) s1)
    as (s2 & -> & _).
  { by apply all_there_find_all. }
  { intros s a. by apply fix_img_done. }
  by eexists.
Qed.

Lemma build_html_index_nonempty w walk project_root index :
  build_html_index w walk project_root = Ok index → index_nonempty index.
Proof.
  intros H%build_html_index_html_only base targets Hb. by apply (H base).
Qed.

(** C4: an [<a>] tag whose href is neither skipped nor found (nothing exists
    at the literal path and the basename is not in the index) keeps its href;
    its round of the loop prints the not-found notice, changes nothing else
    and completes, so that the loop goes on with the remaining tags; the
    notice is in the trace of a completed [fix_links_in_html], and
    [fix_links_in_html] does complete when the root is not empty and no entry
    of the index is. *)
Theorem link_not_found_left_unchanged w file_path project_root index content
    i attrs href :
  ids_unique content →
  TagInfo i "a" attrs ∈ tags content →
  attrs !! "href" = Some href →
  is_skipped_href href = false →
  path_exists w (posixpath.join project_root (normalized_href href)) = false →
  index !! posixpath.basename (normalized_href href) = None →
  find_target_path w href index project_root = ([], Ok None)
  ∧ (∀ s rest, tag_attr i "href" (soup s) = Some href →
       fix_a w file_path project_root index s i
       = Done (emit [PrintTargetNotFound file_path href] s)
       ∧ for_each (fix_a w file_path project_root index) (i :: rest) s
         = for_each (fix_a w file_path project_root index) rest
             (emit [PrintTargetNotFound file_path href] s))
  ∧ attr_is i "href" (Some href)
      (soup (final (fix_links_in_html w file_path project_root index content)))
  ∧ (∀ s', fix_links_in_html w file_path project_root index content = Done s' →
           PrintTargetNotFound file_path href ∈ trace s')
  ∧ (project_root ≠ "" → index_nonempty index →
     ∃ s', fix_links_in_html w file_path project_root index content = Done s').
Proof.
  intros Hu Hin Hhref Hskip Hex Hidx.
  pose proof (find_target_path_not_found _ _ _ _ Hex Hidx) as Hnf.
  assert (Hround : ∀ s, tag_attr i "href" (soup s) = Some href →
            fix_a w file_path project_root index s i
            = Done (emit [PrintTargetNotFound file_path href] s)).
  { intros s Hattr. unfold fix_a. rewrite Hattr, Hskip, Hnf. simpl.
    by rewrite emit_nil. }
  assert (Hkeep : ∀ s a, attr_is i "href" (Some href) (soup s) →
            attr_is i "href" (Some href)
              (soup (final (fix_a w file_path project_root index s a)))).
  { intros s a H.
    destruct (fix_a_soup w file_path project_root index s a)
      as [->|(href' & new_href & Hattr & _ & Hs)]; [done|].
    destruct (decide (a = i)) as [->|Hne].
    - pose proof (tag_attr_attr_is _ _ _ _ _ H Hattr) as [= ->].
      by rewrite Hround.
    - rewrite Hs. by apply attr_is_set_attr_other_tag. }
  destruct (ids_unique_attr_is content i "a" attrs "href" Hu Hin) as [H0 _].
  rewrite Hhref in H0.
  split; [done|]. split; [|split; [|split]]; cycle 3.
  { intros Hroot Hne. by apply fix_links_in_html_completes. }
  - intros s rest Hattr. split; [by apply Hround|].
    by rewrite for_each_cons, Hround.
  - apply (fix_links_in_html_invariant (attr_is i "href" (Some href))); auto.
    + intros s img. by apply fix_img_other_key.
    + intros s. apply book_edits_attr_is.
  - intros s'. unfold fix_links_in_html.
    set (P := λ s, PrintTargetNotFound file_path href ∈ trace s).
    assert (Hemit : ∀ out s, P s → P (emit out s)).
    { intros out s H. unfold P. simpl. apply elem_of_app. by left. }
    assert (Hchanged : ∀ s, P s → P (set_changed s)) by done.
    assert (Hattr : ∀ j key v s, P s → P (do_set_attr j key v s)).
    { intros ? ? ? s H. unfold P. simpl. apply elem_of_app. by left. }
    assert (Hname : ∀ j name s, P s → P (do_set_name j name s)).
    { intros ? ? s H. unfold P. simpl. apply elem_of_app. by left. }
    assert (Hdec : ∀ j s, P s → P (do_decompose j s)).
    { intros ? s H. unfold P. simpl. apply elem_of_app. by left. }
    destruct (fix_a_tags _ _ _ _ _) as [s1|] eqn:Ea; [|done].
    apply (prim_after_a_tags P); try done.
    unfold fix_a_tags in Ea. revert Ea.
    apply (for_each_reach (λ s, attr_is i "href" (Some href) (soup s)) P)
      with (i := i).
    + simpl. apply (find_all_elem_of is_a_href _ _ Hin).
      unfold is_a_href, has_attr. simpl. by rewrite Hhref.
    + done.
    + intros s x _. apply Hkeep.
    + intros s s2 H. destruct (tag_attr i "href" (soup s)) as [h|] eqn:Hattr'.
      * pose proof (tag_attr_attr_is _ _ _ _ _ H Hattr') as [= ->].
        rewrite Hround by done. intros [= <-]. unfold P. simpl.
        apply elem_of_app. right. by apply list_elem_of_singleton.
      * unfold fix_a. by rewrite Hattr'.
    + intros s x. by apply (prim_fix_a P).
Qed.

(** * The properties on the example site *)

(** The index of the site is the one that [build_html_index] builds. *)
Lemma site_index_built : build_html_index site site_walk "/r" = Ok site_index.
Proof. vm_compute. reflexivity. Qed.

Lemma find_target_path_exact_match_first_witness :
  path_exists site (posixpath.join "/r" (normalized_href "/x/B.html")) = true
  ∧ "/r" ≠ ""
  ∧ site_index !! "B.html" = Some ["a/B.html"; "x/B.html"]
  ∧ ∃ rel,
      posixpath.relpath (cwd site)
        (posixpath.join "/r" (normalized_href "/x/B.html")) "/r" = Ok rel
      ∧ find_target_path site "/x/B.html" site_index "/r" = ([], Ok (Some rel))
      ∧ (∀ index', find_target_path site "/x/B.html" index' "/r"
                   = find_target_path site "/x/B.html" site_index "/r")
      ∧ ∀ rc hc,
          Forall is_comp rc → rc ≠ [] → Forall is_comp hc → hc ≠ [] →
          "/r" = tails rc → normalized_href "/x/B.html" = Str.join "/" hc →
          rel = normalized_href "/x/B.html".
Proof.
  split; [reflexivity|]. split; [discriminate|]. split; [reflexivity|].
  apply (find_target_path_exact_match_first site "/x/B.html" site_index "/r");
    [reflexivity|discriminate].
Defined.

Lemma find_target_path_ambiguous_witness :
  path_exists site (posixpath.join "/r" (normalized_href "../x/B.html")) = false
  ∧ site_index !! posixpath.basename (normalized_href "../x/B.html")
    = Some ["a/B.html"; "x/B.html"]
  ∧ 1 < length ["a/B.html"; "x/B.html"]
  ∧ (∃ first rest,
       ["a/B.html"; "x/B.html"] = first :: rest
       ∧ find_target_path site "../x/B.html" site_index "/r"
         = ([PrintWarnMultiple (posixpath.basename (normalized_href "../x/B.html"))
               ["a/B.html"; "x/B.html"]],
            Ok (Some first)))
  ∧ ∀ walk,
      build_html_index site walk "/r" = Ok site_index →
      map Ok ["a/B.html"; "x/B.html"]
      = map (entry_relpath site "/r")
          (files_named (posixpath.basename (normalized_href "../x/B.html"))
             (walk_files walk)).
Proof.
  split; [reflexivity|]. split; [reflexivity|]. split; [simpl; lia|].
  apply (find_target_path_ambiguous site "../x/B.html" site_index "/r");
    [reflexivity|reflexivity|simpl; lia].
Defined.

(** C3 as stated fails: of two leading separators none is kept. *)
Lemma normalized_href_keeps_no_separator :
  Str.startswith "//a.html" "//" = true
  ∧ normalized_href "//a.html" = "a.html"
  ∧ normalized_href "//a.html" ≠ Str.drop 1 "//a.html".
Proof. split; [reflexivity|]. split; [reflexivity|]. discriminate. Qed.

Lemma find_target_path_exact_any_kind_witness :
  stat site (posixpath.join "/r" (normalized_href "img")) = Some Directory
  ∧ "/r" ≠ ""
  ∧ Str.endswith (Str.lower "img") ".html" = false
  ∧ (∃ rel,
       posixpath.relpath (cwd site)
         (posixpath.join "/r" (normalized_href "img")) "/r" = Ok rel
       ∧ find_target_path site "img" site_index "/r" = ([], Ok (Some rel)))
  ∧ ∀ walk built,
      build_html_index site walk "/r" = Ok built → index_html_only built.
Proof.
  split; [reflexivity|]. split; [discriminate|]. split; [reflexivity|].
  apply (find_target_path_exact_any_kind site "img" site_index "/r" Directory);
    [reflexivity|discriminate].
Defined.

(** A file that is not HTML resolves in the same way. *)
Example find_target_path_png :
  stat site "/r/logo.png" = Some RegularFile
  ∧ find_target_path site "logo.png" site_index "/r" = ([], Ok (Some "logo.png")).
Proof. split; reflexivity. Qed.

Lemma page_ids_unique : ids_unique page.
Proof. apply (bool_decide_unpack _). reflexivity. Defined.

(** Proves that a tag is one of the tags of a given document. *)
Ltac tag_there :=
  cbv [tags flat_map tags_of app];
  repeat first [apply list_elem_of_here | apply list_elem_of_further].

Lemma link_not_found_left_unchanged_witness :
  ids_unique page
  ∧ TagInfo 4 "a" {[ "href" := "nope.html" ]} ∈ tags page
  ∧ is_skipped_href "nope.html" = false
  ∧ path_exists site (posixpath.join "/r" (normalized_href "nope.html")) = false
  ∧ site_index !! posixpath.basename (normalized_href "nope.html") = None
  ∧ (find_target_path site "nope.html" site_index "/r" = ([], Ok None)
     ∧ (∀ s rest, tag_attr 4 "href" (soup s) = Some "nope.html" →
          fix_a site "/r/sub/A.html" "/r" site_index s 4
          = Done (emit [PrintTargetNotFound "/r/sub/A.html" "nope.html"] s)
          ∧ for_each (fix_a site "/r/sub/A.html" "/r" site_index) (4 :: rest) s
            = for_each (fix_a site "/r/sub/A.html" "/r" site_index) rest
                (emit [PrintTargetNotFound "/r/sub/A.html" "nope.html"] s))
     ∧ attr_is 4 "href" (Some "nope.html")
         (soup (final (fix_links_in_html site "/r/sub/A.html" "/r" site_index page)))
     ∧ (∀ s', fix_links_in_html site "/r/sub/A.html" "/r" site_index page = Done s' →
              PrintTargetNotFound "/r/sub/A.html" "nope.html" ∈ trace s')
     ∧ ("/r" ≠ "" → index_nonempty site_index →
        ∃ s', fix_links_in_html site "/r/sub/A.html" "/r" site_index page = Done s')).
Proof.
  split; [apply page_ids_unique|]. split; [tag_there|].
  split; [reflexivity|]. split; [reflexivity|]. split; [reflexivity|].
  apply (link_not_found_left_unchanged site "/r/sub/A.html" "/r" site_index page
           4 {[ "href" := "nope.html" ]} "nope.html");
    [apply page_ids_unique|tag_there|reflexivity..].
Defined.

Lemma skipped_href_never_modified_witness :
  ids_unique page
  ∧ TagInfo 3 "a" {[ "href" := "#top" ]} ∈ tags page
  ∧ (∀ index' s, tag_attr 3 "href" (soup s) = Some "#top" →
       fix_a site "/r/sub/A.html" "/r" index' s 3 = Done s)
  ∧ attr_is 3 "href" (Some "#top")
      (soup (final (fix_links_in_html site "/r/sub/A.html" "/r" site_index page))).
Proof.
  split; [apply page_ids_unique|]. split; [tag_there|].
  apply (skipped_href_never_modified site "/r/sub/A.html" "/r" site_index page
           3 {[ "href" := "#top" ]} "#top");
    [apply page_ids_unique|tag_there|reflexivity..].
Defined.

(** The first pass over the page completes. *)
Lemma page_pass :
  fix_links_in_html site "/r/sub/A.html" "/r" site_index page
  = Done (final (fix_links_in_html site "/r/sub/A.html" "/r" site_index page)).
Proof. vm_compute. reflexivity. Defined.

Lemma img_src_rewritten_witness :
  ids_unique page
  ∧ TagInfo 2 "img" {[ "src" := "Foo.png" ]} ∈ tags page
  ∧ attr_is 2 "src" (Some "../Assets/Foo@2x.png")
      (soup (final (fix_links_in_html site "/r/sub/A.html" "/r" site_index page)))
  ∧ (posixpath.basename "/r/sub/A.html" ≠ book →
     ∃ t, t ∈ tags (soup (final (fix_links_in_html site "/r/sub/A.html" "/r"
                                   site_index page)))
          ∧ t_id t = 2).
Proof.
  split; [apply page_ids_unique|]. split; [tag_there|].
  apply (img_src_rewritten site "/r/sub/A.html" "/r" site_index page
           2 {[ "src" := "Foo.png" ]} "Foo.png");
    [apply page_ids_unique|tag_there|reflexivity|apply page_pass].
Defined.

(** A src with a separator stays. *)
Example img_src_with_separator :
  attr_is 5 "src" (Some "sub/Foo.png")
    (soup (final (fix_links_in_html site "/r/sub/A.html" "/r" site_index page))).
Proof.
  intros t Ht Hid. vm_compute in Ht.
  repeat (apply elem_of_cons in Ht as [->|Ht]; [try discriminate Hid|]).
  - reflexivity.
  - by apply elem_of_nil in Ht.
Qed.

Lemma written_iff_changed_witness :
  fix_links_in_html site "/r/sub/A.html" "/r" site_index page
  = Done (final (fix_links_in_html site "/r/sub/A.html" "/r" site_index page))
  ∧ mutations (trace (final (fix_links_in_html site "/r/sub/A.html" "/r"
                               site_index page)))
    = [SetAttr 1 "href" "../x/B.html"; SetAttr 2 "src" "../Assets/Foo@2x.png"]
  ∧ ((∃ c, WriteFile "/r/sub/A.html" c
           ∈ trace (final (fix_links_in_html site "/r/sub/A.html" "/r"
                             site_index page)))
     ↔ (∃ e, e ∈ trace (final (fix_links_in_html site "/r/sub/A.html" "/r"
                                 site_index page))
             ∧ is_mutation e = true)).
Proof.
  split; [apply page_pass|]. split; [vm_compute; reflexivity|].
  apply (written_iff_changed site "/r/sub/A.html" "/r" site_index page _ page_pass).
Defined.

(** A document with nothing to change is not written. *)
Example clean_page_not_written :
  ∃ s', fix_links_in_html site "/r/sub/A.html" "/r" site_index clean_page = Done s'
        ∧ soup s' = clean_page
        ∧ trace s' = [PrintWarnMultiple "B.html" ["a/B.html"; "x/B.html"];
                      PrintNoChanges "/r/sub/A.html"].
Proof. eexists. split; [vm_compute; reflexivity|]. split; reflexivity. Qed.

(** C8 as stated fails: a second pass can change the document again. On the
    page, the link that the first pass made relative to the document resolves,
    from the root, through the index to another file; in the book, the heading
    that the first pass renamed is the Topics heading of the second, and the
    paragraph that lost an inner paragraph is an unwanted one. *)
Lemma second_pass_changes_again :
  build_html_index site site_walk "/r" = Ok site_index
  ∧ (is_done (fix_links_in_html site "/r/sub/A.html" "/r" site_index page) = true
     ∧ is_done (second_pass site "/r/sub/A.html" "/r" site_index page) = true
     ∧ mutations (trace (final (second_pass site "/r/sub/A.html" "/r" site_index page)))
       = [SetAttr 1 "href" "../a/B.html"]
     ∧ existsb is_write
         (trace (final (second_pass site "/r/sub/A.html" "/r" site_index page)))
       = true)
  ∧ (is_done (fix_links_in_html site book_path "/r" site_index book_heading) = true
     ∧ is_done (second_pass site book_path "/r" site_index book_heading) = true
     ∧ mutations (trace (final (second_pass site book_path "/r" site_index
                                  book_heading)))
       = [Decompose 0]
     ∧ existsb is_write
         (trace (final (second_pass site book_path "/r" site_index book_heading)))
       = true)
  ∧ (is_done (fix_links_in_html site book_path "/r" site_index book_nested) = true
     ∧ is_done (second_pass site book_path "/r" site_index book_nested) = true
     ∧ mutations (trace (final (second_pass site book_path "/r" site_index
                                  book_nested)))
       = [Decompose 0]
     ∧ existsb is_write
         (trace (final (second_pass site book_path "/r" site_index book_nested)))
       = true).
Proof.
  split; [apply site_index_built|].
  repeat split; vm_compute; reflexivity.
Qed.

Lemma second_pass_skips_witness :
  ids_unique page
  ∧ fix_links_in_html site "/r/sub/A.html" "/r" site_index page
    = Done (final (fix_links_in_html site "/r/sub/A.html" "/r" site_index page))
  ∧ second_pass site "/r/sub/A.html" "/r" site_index page
    = match fix_a_tags site "/r/sub/A.html" "/r" site_index
              (State (soup (final (fix_links_in_html site "/r/sub/A.html" "/r"
                                     site_index page))) false [])
      with
      | Aborted e s => Aborted e s
      | Done s =>
          Done (write_back "/r/sub/A.html"
                  (if String.eqb (posixpath.basename "/r/sub/A.html") book
                   then remove_paragraphs "/r/sub/A.html" (remove_topics s)
                   else s))
      end.
Proof.
  split; [apply page_ids_unique|]. split; [apply page_pass|].
  apply (second_pass_skips site "/r/sub/A.html" "/r" site_index page _ site
           site_index page_ids_unique page_pass).
Defined.

(** In the book a second pass over [book_page] changes nothing. *)
Example book_page_second_pass :
  trace (final (second_pass site book_path "/r" site_index book_page))
  = [PrintNoChanges book_path].
Proof. vm_compute. reflexivity. Qed.

Lemma book_page_ids_unique : ids_unique book_page.
Proof. apply (bool_decide_unpack _). reflexivity. Defined.

Lemma book_page_attributes :
  fix_attributes site book_path "/r" site_index book_page
  = Done (State book_page false []).
Proof. vm_compute. reflexivity. Defined.

Lemma unwanted_paragraphs_removed_witness :
  ids_unique book_page
  ∧ fix_attributes site book_path "/r" site_index book_page
    = Done (State book_page false [])
  ∧ posixpath.basename book_path = book
  ∧ fix_links_in_html site book_path "/r" site_index book_page
    = Done (write_back book_path (book_edits book_path (State book_page false [])))
  ∧ (posixpath.basename book_path = book →
     soup (book_edits book_path (State book_page false []))
     = without_unwanted_paragraphs
         (soup (book_edits_before_paragraphs (State book_page false []))))
  ∧ (posixpath.basename book_path ≠ book →
     book_edits book_path (State book_page false []) = State book_page false []).
Proof.
  split; [apply book_page_ids_unique|]. split; [apply book_page_attributes|].
  split; [reflexivity|].
  apply (unwanted_paragraphs_removed site book_path "/r" site_index book_page _
           book_page_ids_unique book_page_attributes).
Defined.

(** What is left of [book_page]: the placeholder paragraph is gone, the other
    one stays; in another file both stay. *)
Example book_page_paragraphs :
  map (λ t, (t_id t, t_name t))
      (tags (soup (final (fix_links_in_html site book_path "/r" site_index book_page))))
  = [(2, "p"); (4, "h2")]
  ∧ map (λ t, (t_id t, t_name t))
        (tags (soup (final (fix_links_in_html site "/r/sub/A.html" "/r" site_index
                              book_page))))
    = [(0, "h2"); (1, "p"); (2, "p"); (3, "span"); (4, "h3")].
Proof. split; vm_compute; reflexivity. Qed.

(** The href of the page under the root resolves to itself. *)
Example find_target_path_exact_example :
  find_target_path site "/x/B.html" site_index "/r" = ([], Ok (Some "x/B.html"))
  ∧ "/r" = tails ["r"] ∧ normalized_href "/x/B.html" = Str.join "/" ["x"; "B.html"].
Proof. repeat split. Qed.

(** * Further properties *)

(** ** More on [find_target_path] *)

Lemma relpath_raises cwd path start e :
  posixpath.relpath cwd path start = Raise e ↔ path = "" ∧ e = ValueError.
Proof.
  unfold posixpath.relpath. destruct (String.eqb path "") eqn:E.
  - apply String.eqb_eq in E. split; [by intros [= <-]|by intros [_ ->]].
  - apply String.eqb_neq in E. destruct (_ ++ _); split; try done; by intros [].
Qed.

(** X1: [find_target_path] returns [None] exactly when nothing exists at the
    literal path and the basename is not a key of the index; it has then
    printed nothing. *)
Theorem find_target_path_none_iff w href index project_root :
  ((find_target_path w href index project_root).2 = Ok None
   ↔ path_exists w (posixpath.join project_root (normalized_href href)) = false
     ∧ index !! posixpath.basename (normalized_href href) = None)
  ∧ ((find_target_path w href index project_root).2 = Ok None →
     (find_target_path w href index project_root).1 = []).
Proof.
  unfold find_target_path. destruct (path_exists _ _).
  - destruct (posixpath.relpath _ _ _); simpl; split; try done;
      split; try done; by intros [].
  - destruct (index !! _) as [[|t targets]|]; simpl; split; try done;
      split; try done; by intros [].
Qed.

(** X2: the only exceptions of [find_target_path] are the [IndexError] of an
    empty entry of the index, met when nothing exists at the literal path,
    and the [ValueError] of [relpath] on an empty candidate path; a missing
    key raises nothing, and nothing is printed before an exception. *)
Theorem find_target_path_raises_iff w href index project_root e :
  ((find_target_path w href index project_root).2 = Raise e
   ↔ (path_exists w (posixpath.join project_root (normalized_href href)) = true
      ∧ posixpath.join project_root (normalized_href href) = ""
      ∧ e = ValueError)
     ∨ (path_exists w (posixpath.join project_root (normalized_href href)) = false
        ∧ index !! posixpath.basename (normalized_href href) = Some []
        ∧ e = IndexError))
  ∧ ((find_target_path w href index project_root).2 = Raise e →
     (find_target_path w href index project_root).1 = []).
Proof.
  unfold find_target_path. destruct (path_exists _ _).
  - simpl. split; [|done].
    destruct (posixpath.relpath _ _ _) as [rel|e'] eqn:E; simpl.
    + split; [done|]. intros [(_ & Hp & _)|(? & _)]; [|done].
      rewrite Hp in E. done.
    + apply relpath_raises in E as [Hp ->]. split.
      * intros [= <-]. by left.
      * by intros [(_ & _ & ->)|(? & _)].
  - destruct (index !! _) as [[|t targets]|]; simpl; split; try done.
    + split; [intros [= <-]; by right|]. by intros [(? & _)|(_ & _ & ->)].
    + split; [done|]. by intros [(? & _)|(_ & ? & _)].
    + split; [done|]. by intros [(? & _)|(_ & ? & _)].
Qed.

(** X3: when nothing exists at the literal path, the resolution depends on
    the href through its basename only: two such hrefs with the same basename
    resolve alike, whatever their directory prefixes; and a basename with a
    single entry resolves to it without a warning. *)
Theorem find_target_path_by_basename w href href' index project_root :
  path_exists w (posixpath.join project_root (normalized_href href)) = false →
  path_exists w (posixpath.join project_root (normalized_href href')) = false →
  posixpath.basename (normalized_href href)
  = posixpath.basename (normalized_href href') →
  find_target_path w href index project_root
  = find_target_path w href' index project_root
  ∧ ∀ target,
      index !! posixpath.basename (normalized_href href) = Some [target] →
      find_target_path w href index project_root = ([], Ok (Some target)).
Proof.
  intros Hex Hex' Hb. unfold find_target_path. rewrite Hex, Hex', Hb.
  split; [done|]. by intros target ->.
Qed.

(** ** More on [build_html_index] *)

Lemma index_entries_ok w project_root entries :
  (∀ root file, (root, file) ∈ entries → posixpath.join root file ≠ "") →
  ∃ index,
    foldl (λ acc '(root, file), index_file w project_root root acc file)
          (Ok ∅) entries = Ok index.
Proof.
  induction entries as [|[root file] entries IH] using rev_ind; intros H.
  - by eexists.
  - destruct IH as [index0 E].
    { intros r f Hin. apply H, elem_of_app. by left. }
    rewrite foldl_app, E. simpl.
    destruct (Str.endswith _ _); [|by eexists].
    destruct (relpath_ok (cwd w) (posixpath.join root file) project_root)
      as [rel ->]; [|by eexists].
    apply H, elem_of_app. right. by left.
Qed.

Lemma files_named_elem_of base entries root file :
  (root, file) ∈ files_named base entries ↔ (root, file) ∈ entries ∧ file = base.
Proof.
  unfold files_named. rewrite !list_elem_of_In, List.filter_In.
  by rewrite String.eqb_eq.
Qed.

(** X4: the index that [build_html_index] returns holds a name exactly when
    the traversal has a file of that name, spelled alike, whose lower-cased
    name ends in [.html]; its entry has one path for each such file (nothing
    is merged or dropped), and the traversal of directories without an empty
    name always gives an index. *)
Theorem build_html_index_exact w walk project_root :
  (∀ index base,
     build_html_index w walk project_root = Ok index →
     (is_Some (index !! base)
      ↔ Str.endswith (Str.lower base) ".html" = true
        ∧ ∃ root, (root, base) ∈ walk_files walk)
     ∧ ∀ targets, index !! base = Some targets →
         length targets = length (files_named base (walk_files walk)))
  ∧ ((∀ root file, (root, file) ∈ walk_files walk → root ≠ "") →
     ∃ index, build_html_index w walk project_root = Ok index).
Proof.
  split.
  - intros index base. rewrite build_html_index_flat.
    intros [Hhtml Horder]%index_in_order_entries.
    specialize (Horder base). split; [split|].
    + intros [targets E]. destruct (Hhtml base targets E) as [Hsuf Hne].
      split; [done|]. rewrite E in Horder.
      destruct (files_named base (walk_files walk)) as [|[root file] rest] eqn:Ef.
      { by destruct targets. }
      exists root.
      assert ((root, file) ∈ files_named base (walk_files walk)) as Hin.
      { rewrite Ef. by left. }
      apply files_named_elem_of in Hin as [Hin ->]. done.
    + intros [Hsuf [root Hin]].
      destruct (index !! base) as [targets|]; [done|].
      specialize (Horder Hsuf).
      assert ((root, base) ∈ files_named base (walk_files walk)) as Hin'.
      { by apply files_named_elem_of. }
      rewrite Horder in Hin'. by apply elem_of_nil in Hin'.
    + intros targets E. rewrite E in Horder.
      apply (f_equal length) in Horder. by rewrite !length_map in Horder.
  - intros Hroots. rewrite build_html_index_flat. apply index_entries_ok.
    intros root file Hin. apply join_nonempty. by eapply Hroots.
Qed.

Lemma full_path_plain rc dc f :
  Forall is_comp rc → rc ≠ [] → Forall is_comp dc → is_comp f →
  full_path (tails (rc ++ dc), f) = tails (rc ++ dc ++ [f]).
Proof.
  intros Hrc Hne Hdc Hf. unfold full_path. simpl.
  change f with (Str.join "/" [f]) at 1.
  rewrite join_tails, <- app_assoc; try done.
  - by apply Forall_app.
  - by destruct rc.
  - by apply Forall_singleton.
Qed.

(** The path of a plain file relative to the root, and back. *)
Lemma entry_relpath_plain w rc dc f :
  Forall is_comp rc → rc ≠ [] → Forall is_comp dc → is_comp f →
  entry_relpath w (tails rc) (tails (rc ++ dc), f) = Ok (Str.join "/" (dc ++ [f]))
  ∧ posixpath.join (tails rc) (Str.join "/" (dc ++ [f]))
    = full_path (tails (rc ++ dc), f).
Proof.
  intros Hrc Hne Hdc Hf.
  assert (Hhc : Forall is_comp (dc ++ [f])).
  { apply Forall_app. split; [done|]. by apply Forall_singleton. }
  assert (Hhne : dc ++ [f] ≠ []) by by destruct dc.
  pose proof (full_path_plain rc dc f Hrc Hne Hdc Hf) as Hfull.
  pose proof (join_tails rc (dc ++ [f]) Hrc Hne Hhc Hhne) as Hjoin.
  split; [|by rewrite Hjoin, Hfull].
  unfold entry_relpath. fold (full_path (tails (rc ++ dc), f)).
  rewrite Hfull, <- Hjoin. by apply relpath_under_root.
Qed.

Lemma index_targets_home w rc entries targets :
  Forall is_comp rc → rc ≠ [] →
  (∀ e, e ∈ entries → plain_under rc e) →
  map Ok targets = map (entry_relpath w (tails rc)) entries →
  map (posixpath.join (tails rc)) targets = map full_path entries.
Proof.
  intros Hrc Hne. revert targets.
  induction entries as [|[r f] entries IH]; intros [|t targets] Hplain Hmap;
    try done.
  simpl in Hmap. injection Hmap as Ht Hmap.
  destruct (Hplain (r, f)) as (dc & Hdc & Hr & Hf); [by left|]. simpl in *.
  subst r. destruct (entry_relpath_plain w rc dc f Hrc Hne Hdc Hf) as [E1 E2].
  rewrite E1 in Ht. injection Ht as ->. simpl. rewrite E2. f_equal.
  apply IH; [|done]. intros e He. apply Hplain. by right.
Qed.

Lemma index_targets_plain w rc entries targets :
  Forall is_comp rc → rc ≠ [] →
  (∀ e, e ∈ entries → plain_under rc e) →
  map Ok targets = map (entry_relpath w (tails rc)) entries →
  Forall2 (path_of rc) targets entries.
Proof.
  intros Hrc Hne. revert targets.
  induction entries as [|[r f] entries IH]; intros [|t targets] Hplain Hmap;
    try done.
  simpl in Hmap. injection Hmap as Ht Hmap.
  destruct (Hplain (r, f)) as (dc & Hdc & Hr & Hf); [by left|]. simpl in *.
  subst r. destruct (entry_relpath_plain w rc dc f Hrc Hne Hdc Hf) as [E1 E2].
  rewrite E1 in Ht. injection Ht as ->. constructor.
  - by exists dc.
  - apply IH; [|done]. intros e He. apply Hplain. by right.
Qed.

Lemma lstrip_plain t e rc : path_of rc t e → normalized_href t = t.
Proof.
  intros (dc & Hdc & _ & Hf & ->).
  assert (∃ c p, dc ++ [e.2] = c :: p ∧ is_comp c) as (c & p & -> & Hc).
  { destruct dc as [|c dc]; [by exists e.2, []|].
    apply Forall_cons in Hdc as [Hc _]. by exists c, (dc ++ [e.2]). }
  rewrite join_sep_cons. destruct Hc as (Hne & Hsep & _).
  destruct c as [|x c]; [done|]. unfold normalized_href.
  rewrite string_app_cons. cbn [Str.lstrip Str.contains] in *.
  rewrite (Ascii.eqb_sym "/" x). by destruct (Ascii.eqb x "/").
Qed.

Lemma path_of_home rc t e :
  Forall is_comp rc → rc ≠ [] → path_of rc t e →
  posixpath.join (tails rc) t = full_path e
  ∧ ∀ cwd, posixpath.relpath cwd (posixpath.join (tails rc) t) (tails rc) = Ok t.
Proof.
  intros Hrc Hne (dc & Hdc & Hr & Hf & ->). destruct e as [r f]. simpl in *.
  subst r.
  assert (Hhc : Forall is_comp (dc ++ [f])).
  { apply Forall_app. split; [done|]. by apply Forall_singleton. }
  assert (Hhne : dc ++ [f] ≠ []) by by destruct dc.
  split.
  - rewrite join_tails, full_path_plain by done. done.
  - intros cwd. by apply relpath_under_root.
Qed.

(** X5: in the index built over a plain tree, every path of an entry, joined
    to the root, is the full path of the file it was built from, entry by
    entry in the order of the traversal; where these files exist, every path of
    the index names an existing file and resolves to itself. *)
Theorem index_entries_point_at_files w walk rc index base targets :
  Forall is_comp rc → rc ≠ [] →
  (∀ e, e ∈ walk_files walk → plain_under rc e) →
  build_html_index w walk (tails rc) = Ok index →
  index !! base = Some targets →
  map (posixpath.join (tails rc)) targets
  = map full_path (files_named base (walk_files walk))
  ∧ ((∀ e, e ∈ walk_files walk → path_exists w (full_path e) = true) →
     ∀ t, t ∈ targets →
       path_exists w (posixpath.join (tails rc) t) = true
       ∧ find_target_path w t index (tails rc) = ([], Ok (Some t))).
Proof.
  intros Hrc Hne Hplain Hbuilt Hb.
  pose proof (build_html_index_order _ _ _ _ _ _ Hbuilt Hb) as Hmap.
  assert (Hsub : ∀ e, e ∈ files_named base (walk_files walk) →
                      e ∈ walk_files walk).
  { intros [r f] [He _]%files_named_elem_of. done. }
  split.
  - eapply index_targets_home; eauto.
  - intros Hexists t Ht.
    assert (Forall2 (path_of rc) targets (files_named base (walk_files walk)))
      as HF by (eapply index_targets_plain; eauto).
    apply list_elem_of_lookup in Ht as [k Hk].
    destruct (Forall2_lookup_l _ _ _ _ _ HF Hk) as (e & He & Hpath).
    apply list_elem_of_lookup_2 in He.
    destruct (path_of_home rc t e Hrc Hne Hpath) as [Hhome Hrel].
    assert (Hex : path_exists w (posixpath.join (tails rc) t) = true).
    { rewrite Hhome. by apply Hexists, Hsub. }
    split; [done|].
    rewrite find_target_path_exists; rewrite (lstrip_plain t e rc Hpath); [|done].
    by rewrite Hrel.
Qed.

(** X6: over a plain tree, a href whose basename is the name of exactly one
    HTML file of the traversal, and at whose literal path nothing exists,
    resolves without a warning to a path that, joined to the root, is the full
    path of that file: whatever directory the href names. *)
Theorem unique_basename_resolves w walk rc index href root file :
  Forall is_comp rc → rc ≠ [] →
  (∀ e, e ∈ walk_files walk → plain_under rc e) →
  build_html_index w walk (tails rc) = Ok index →
  files_named (posixpath.basename (normalized_href href)) (walk_files walk)
  = [(root, file)] →
  Str.endswith (Str.lower file) ".html" = true →
  path_exists w (posixpath.join (tails rc) (normalized_href href)) = false →
  ∃ target,
    find_target_path w href index (tails rc) = ([], Ok (Some target))
    ∧ posixpath.join (tails rc) target = full_path (root, file).
Proof.
  intros Hrc Hne Hplain Hbuilt Hnamed Hsuf Hex.
  set (base := posixpath.basename (normalized_href href)) in *.
  assert (file = base) as ->.
  { assert ((root, file) ∈ files_named base (walk_files walk)) as Hin
      by (rewrite Hnamed; by left).
    by apply files_named_elem_of in Hin as [_ ->]. }
  pose proof Hbuilt as Hflat. rewrite build_html_index_flat in Hflat.
  apply index_in_order_entries in Hflat as [_ Horder]. specialize (Horder base).
  destruct (index !! base) as [targets|] eqn:Hb;
    [|by rewrite Horder in Hnamed].
  rewrite Hnamed in Horder.
  assert (Forall2 (path_of rc) targets [(root, base)]) as HF.
  { apply (index_targets_plain w); try done.
    intros e ->%list_elem_of_singleton. apply Hplain.
    assert ((root, base) ∈ files_named base (walk_files walk)) as Hin
      by (rewrite Hnamed; by left).
    by apply files_named_elem_of in Hin as [? _]. }
  apply Forall2_cons_inv_r in HF as (t & rest & Hpath & ->%Forall2_nil_inv_r & ->).
  exists t. split.
  - unfold find_target_path. fold base. by rewrite Hex, Hb.
  - by apply path_of_home.
Qed.

(** ** The further properties on the example site *)

Ltac plain_comps :=
  repeat first
    [ apply Forall_nil_2
    | apply Forall_cons_2
    | (split; [discriminate|split; [reflexivity|split; discriminate]]) ].

Lemma site_root_plain : Forall is_comp ["r"].
Proof. plain_comps. Defined.

Lemma site_walk_plain : ∀ e, e ∈ walk_files site_walk → plain_under ["r"] e.
Proof.
  intros e He. cbv [walk_files site_walk flat_map map app] in He.
  repeat (apply elem_of_cons in He as [->|He];
          [first [ by (exists []; split; [|split]; [plain_comps|reflexivity|plain_comps])
                 | by (exists ["a"]; split; [|split]; [plain_comps|reflexivity|plain_comps])
                 | by (exists ["sub"]; split; [|split]; [plain_comps|reflexivity|plain_comps])
                 | by (exists ["x"]; split; [|split]; [plain_comps|reflexivity|plain_comps]) ]|]).
  by apply elem_of_nil in He.
Defined.

Lemma find_target_path_by_basename_witness :
  path_exists site (posixpath.join "/r" (normalized_href "docs/A.html")) = false
  ∧ path_exists site (posixpath.join "/r" (normalized_href "/old/A.html")) = false
  ∧ posixpath.basename (normalized_href "docs/A.html")
    = posixpath.basename (normalized_href "/old/A.html")
  ∧ find_target_path site "docs/A.html" site_index "/r"
    = find_target_path site "/old/A.html" site_index "/r"
  ∧ ∀ target,
      site_index !! posixpath.basename (normalized_href "docs/A.html")
      = Some [target] →
      find_target_path site "docs/A.html" site_index "/r" = ([], Ok (Some target)).
Proof.
  split; [reflexivity|]. split; [reflexivity|]. split; [reflexivity|].
  apply (find_target_path_by_basename site "docs/A.html" "/old/A.html"
           site_index "/r"); reflexivity.
Defined.

Lemma index_entries_point_at_files_witness :
  Forall is_comp ["r"] ∧ ["r"] ≠ []
  ∧ build_html_index site site_walk (tails ["r"]) = Ok site_index
  ∧ site_index !! "B.html" = Some ["a/B.html"; "x/B.html"]
  ∧ map (posixpath.join (tails ["r"])) ["a/B.html"; "x/B.html"]
    = map full_path (files_named "B.html" (walk_files site_walk))
  ∧ ((∀ e, e ∈ walk_files site_walk → path_exists site (full_path e) = true) →
     ∀ t, t ∈ ["a/B.html"; "x/B.html"] →
       path_exists site (posixpath.join (tails ["r"]) t) = true
       ∧ find_target_path site t site_index (tails ["r"]) = ([], Ok (Some t))).
Proof.
  split; [apply site_root_plain|]. split; [discriminate|].
  split; [apply site_index_built|]. split; [reflexivity|].
  apply (index_entries_point_at_files site site_walk ["r"] site_index "B.html"
           ["a/B.html"; "x/B.html"] site_root_plain);
    [discriminate|apply site_walk_plain|apply site_index_built|reflexivity].
Defined.

Lemma unique_basename_resolves_witness :
  files_named (posixpath.basename (normalized_href "docs/A.html"))
    (walk_files site_walk) = [("/r/sub", "A.html")]
  ∧ Str.endswith (Str.lower "A.html") ".html" = true
  ∧ path_exists site (posixpath.join (tails ["r"]) (normalized_href "docs/A.html"))
    = false
  ∧ ∃ target,
      find_target_path site "docs/A.html" site_index (tails ["r"])
      = ([], Ok (Some target))
      ∧ posixpath.join (tails ["r"]) target = full_path ("/r/sub", "A.html").
Proof.
  split; [reflexivity|]. split; [reflexivity|]. split; [reflexivity|].
  apply (unique_basename_resolves site site_walk ["r"] site_index "docs/A.html"
           "/r/sub" "A.html" site_root_plain);
    [discriminate|apply site_walk_plain|apply site_index_built|reflexivity..].
Defined.

(** The files of the site exist, and its index is exact. *)
Example site_index_exact :
  (∀ e, e ∈ walk_files site_walk → path_exists site (full_path e) = true)
  ∧ find_target_path site "docs/A.html" site_index "/r"
    = ([], Ok (Some "sub/A.html"))
  ∧ site_index !! "logo.png" = None.
Proof.
  split; [|split; reflexivity].
  intros e He. cbv [walk_files site_walk flat_map map app] in He.
  repeat (apply elem_of_cons in He as [->|He]; [reflexivity|]).
  by apply elem_of_nil in He.
Qed.

(** ** More on [fix_links_in_html] *)

Lemma for_each_invariant_in {X : Type} (I : state → Prop)
    (body : state → X → outcome) l s :
  I s → (∀ s x, x ∈ l → I s → I (final (body s x))) →
  I (final (for_each body l s)).
Proof.
  revert s. induction l as [|x l IH]; intros s Hs Hb; [done|].
  rewrite for_each_cons. assert (H1 := Hb s x (list_elem_of_here _ _) Hs).
  destruct (body s x) as [s'|e s']; simpl in *; [|done].
  apply IH; [done|]. intros s2 y Hy. apply Hb. by right.
Qed.

(** A loop over distinct tags that completes establishes [Pa] with the round
    of [i], when [Pb] holds until then and the other rounds keep [Pa]. *)
Lemma for_each_reach_once (Pb Pa : state → Prop)
    (body : state → tag_id → outcome) (i : tag_id) l s s' :
  NoDup l → i ∈ l → Pb s →
  (∀ s x, x ≠ i → Pb s → Pb (final (body s x))) →
  (∀ s s1, Pb s → body s i = Done s1 → Pa s1) →
  (∀ s x, x ≠ i → Pa s → Pa (final (body s x))) →
  for_each body l s = Done s' → Pa s'.
Proof.
  intros Hnd Hin Hs Hb Hi Ha. revert s Hs Hin.
  induction Hnd as [|x l Hx Hnd IH]; intros s Hs Hin;
    [by apply elem_of_nil in Hin|].
  rewrite for_each_cons. destruct (decide (x = i)) as [->|Hne].
  - destruct (body s i) as [s1|e s1] eqn:E; [|done]. intros Hl.
    assert (Pa (final (for_each body l s1))) as H.
    { apply (for_each_invariant_in Pa); [by eapply Hi|].
      intros s2 y Hy. apply Ha. by intros ->. }
    by rewrite Hl in H.
  - apply elem_of_cons in Hin as [->|Hin]; [done|].
    specialize (Hb s x Hne Hs).
    destruct (body s x) as [s1|e s1]; [|done]. by apply IH.
Qed.

Lemma NoDup_filter_map (ts : list tag_info) (f : tag_info → bool) :
  NoDup (map t_id ts) → NoDup (map t_id (List.filter f ts)).
Proof.
  induction ts as [|t ts IH]; [done|]. simpl. intros [Hnin Hnd]%NoDup_cons.
  destruct (f t); [|by apply IH]. simpl. apply NoDup_cons. split; [|by apply IH].
  intros (t' & E & Hin)%list_elem_of_fmap. apply Hnin. rewrite E.
  apply list_elem_of_fmap_2. apply list_elem_of_In, List.filter_In in Hin as [Hin _].
  by apply list_elem_of_In.
Qed.

(** [find_all] returns every tag once. *)
Lemma find_all_NoDup p l : ids_unique l → NoDup (find_all p l).
Proof. intros Hu. rewrite find_all_tags. by apply NoDup_filter_map. Qed.

(** What is in the trace stays there. *)
Lemma trace_kept_fix_a e w file_path project_root index s a :
  e ∈ trace s → e ∈ trace (final (fix_a w file_path project_root index s a)).
Proof.
  apply (prim_fix_a (λ s, e ∈ trace s)); intros; simpl; rewrite ?elem_of_app; auto.
Qed.

Lemma trace_kept_after_a_tags e file_path s1 s' :
  e ∈ trace s1 →
  match fix_img_tags file_path s1 with
  | Aborted e s => Aborted e s
  | Done s => Done (write_back file_path (book_edits file_path s))
  end = Done s' →
  e ∈ trace s'.
Proof.
  apply (prim_after_a_tags (λ s, e ∈ trace s));
    intros; simpl; rewrite ?elem_of_app; auto.
Qed.

(** The round of the [<a>] loop for a tag whose href resolves. *)
Lemma fix_a_resolved w file_path project_root index s i href out target new_href s1 :
  attr_is i "href" (Some href) (soup s) →
  is_skipped_href href = false →
  find_target_path w href index project_root = (out, Ok (Some target)) →
  target ≠ "" →
  posixpath.relpath (cwd w) (posixpath.join project_root target)
    (posixpath.dirname file_path) = Ok new_href →
  fix_a w file_path project_root index s i = Done s1 →
  attr_is i "href" (Some new_href) (soup s1)
  ∧ (new_href ≠ href →
     PrintUpdatingLink file_path href new_href ∈ trace s1
     ∧ SetAttr i "href" new_href ∈ trace s1).
Proof.
  intros H Hskip Hfind Ht Hrel. unfold fix_a.
  destruct (tag_attr i "href" (soup s)) as [href'|] eqn:Hattr; [|done].
  pose proof (tag_attr_attr_is _ _ _ _ _ H Hattr) as [= <-].
  rewrite Hskip, Hfind.
  assert (truthy (Some target) = Some target) as -> by by destruct target.
  rewrite Hrel. destruct (negb (String.eqb new_href href)) eqn:Hneq.
  - intros [= <-]. simpl. split; [apply attr_is_set_attr_same|].
    intros _. rewrite !elem_of_app, !list_elem_of_singleton. auto.
  - apply negb_false_iff, String.eqb_eq in Hneq as ->.
    intros [= <-]. simpl. done.
Qed.

(** X7: an [<a>] tag whose href is not skipped and resolves to a target has,
    at the end of a completed [fix_links_in_html], the path of that target
    relative to the directory of the document as its href; when that path is
    not the href it had, the change is printed and the attribute assigned. *)
Theorem resolved_link_rewritten w file_path project_root index content
    i attrs href out target new_href s' :
  ids_unique content →
  TagInfo i "a" attrs ∈ tags content →
  attrs !! "href" = Some href →
  is_skipped_href href = false →
  find_target_path w href index project_root = (out, Ok (Some target)) →
  target ≠ "" →
  posixpath.relpath (cwd w) (posixpath.join project_root target)
    (posixpath.dirname file_path) = Ok new_href →
  fix_links_in_html w file_path project_root index content = Done s' →
  attr_is i "href" (Some new_href) (soup s')
  ∧ (new_href ≠ href →
     PrintUpdatingLink file_path href new_href ∈ trace s'
     ∧ SetAttr i "href" new_href ∈ trace s').
Proof.
  intros Hu Hin Hhref Hskip Hfind Ht Hrel.
  destruct (ids_unique_attr_is content i "a" attrs "href" Hu Hin) as [H0 _].
  rewrite Hhref in H0.
  set (P := λ s, attr_is i "href" (Some new_href) (soup s)
                 ∧ (new_href ≠ href →
                    PrintUpdatingLink file_path href new_href ∈ trace s
                    ∧ SetAttr i "href" new_href ∈ trace s)).
  unfold fix_links_in_html.
  destruct (fix_a_tags _ _ _ _ _) as [s1|] eqn:Ea; [|done].
  assert (H1 : P s1).
  { unfold fix_a_tags in Ea. revert Ea.
    apply (for_each_reach_once (λ s, attr_is i "href" (Some href) (soup s)) P)
      with (i := i).
    - by apply find_all_NoDup.
    - apply (find_all_elem_of is_a_href _ _ Hin).
      unfold is_a_href, has_attr. simpl. by rewrite Hhref.
    - done.
    - intros s x Hne H.
      destruct (fix_a_soup w file_path project_root index s x)
        as [->|(? & ? & _ & _ & ->)]; [done|].
      by apply attr_is_set_attr_other_tag.
    - intros s s2 H. by apply fix_a_resolved with (out := out) (target := target).
    - intros s x Hne [H1 H2]. split.
      + destruct (fix_a_soup w file_path project_root index s x)
          as [->|(? & ? & _ & _ & ->)]; [done|].
        by apply attr_is_set_attr_other_tag.
      + intros Hneq. destruct (H2 Hneq) as [H3 H4].
        split; by apply trace_kept_fix_a. }
  destruct (fix_img_tags file_path s1) as [s2|] eqn:Ei; [|done].
  intros [= <-]. destruct H1 as [H1 H2]. split.
  - rewrite soup_write_back. apply book_edits_attr_is.
    assert (H := for_each_invariant
                   (λ s, attr_is i "href" (Some new_href) (soup s))
                   (fix_img file_path) (find_all is_img_src (soup s1)) s1 H1).
    unfold fix_img_tags in Ei. rewrite Ei in H. apply H.
    intros s img. by apply fix_img_other_key.
  - intros Hneq. destruct (H2 Hneq) as [H3 H4].
    split; apply (trace_kept_after_a_tags _ file_path s1); try done;
      by rewrite Ei.
Qed.

(** ** Relative paths and back *)

Lemma comp_seg c : is_comp c → is_seg c.
Proof. by intros (? & ? & _). Qed.

Lemma comps_segs l : Forall is_comp l → Forall is_seg l.
Proof. intros H. eapply Forall_impl; [exact H|apply comp_seg]. Qed.

Lemma split_seg_tails b p :
  Forall is_seg (b :: p) → Str.split "/" (b +:+ tails p) = b :: p.
Proof.
  revert b. induction p as [|c p IH]; intros b [Hb Hp]%Forall_cons.
  - simpl. rewrite string_app_nil_r. apply split_nosep, Hb.
  - rewrite tails_cons, split_app_sep by apply Hb. f_equal. by apply IH.
Qed.

Lemma split_tails_segs p :
  Forall is_seg p → p ≠ [] → Str.split "/" (tails p) = "" :: p.
Proof.
  destruct p as [|b p]; [done|]. intros Hp _.
  rewrite tails_cons, split_sep_cons. f_equal. by apply split_seg_tails.
Qed.

Lemma endswith_seg y c : is_seg c → Str.endswith (y +:+ c) "/" = false.
Proof.
  intros (Hne & Hsep). unfold Str.endswith, String.rev.
  rewrite rev_app_app.
  destruct (rev_app_first c (String.rev_app y "") Hne) as (a & t & -> & Hc).
  change (String.rev_app "/" "") with "/".
  fold (Str.startswith (String a t) "/"). rewrite startswith_cons.
  destruct (Ascii.eqb "/" a) eqn:E; [|done].
  apply Ascii.eqb_eq in E as <-. congruence.
Qed.

Lemma seg_startswith c s : is_seg c → Str.startswith (c +:+ s) "/" = false.
Proof.
  intros (Hne & Hsep). destruct c as [|x c]; [done|].
  rewrite string_app_cons, startswith_cons. cbn [Str.contains] in Hsep.
  rewrite Ascii.eqb_sym. by destruct (Ascii.eqb x "/").
Qed.

Lemma join_step_seg y c b s :
  is_seg c → is_seg b →
  posixpath.join_step (y +:+ c) (b +:+ s) = (y +:+ c) +:+ "/" +:+ b +:+ s.
Proof.
  intros Hc Hb. unfold posixpath.join_step.
  rewrite seg_startswith, endswith_seg by done.
  replace (String.eqb (y +:+ c) "") with false; [done|].
  symmetry. apply String.eqb_neq. intros [_ ?]%string_app_nil_inv. by destruct Hc.
Qed.

Lemma join_list_segs y c p :
  is_seg c → Forall is_seg p →
  posixpath.join_list (y +:+ c) p = (y +:+ c) +:+ tails p.
Proof.
  intros Hc Hp. revert y c Hc. unfold posixpath.join_list.
  induction Hp as [|b p Hb Hp IH]; intros y c Hc.
  - simpl. by rewrite string_app_nil_r.
  - simpl. rewrite <- (string_app_nil_r b) at 1.
    rewrite join_step_seg, string_app_nil_r by done.
    rewrite <- (string_app_assoc (y +:+ c) "/" b), IH by done.
    by rewrite !string_app_assoc.
Qed.

Lemma tails_last_seg p :
  Forall is_seg p → p ≠ [] → ∃ y c, tails p = y +:+ c ∧ is_seg c.
Proof.
  intros Hp Hne. destruct (exists_last Hne) as (p' & c & ->).
  apply Forall_app in Hp as [_ Hc]. apply Forall_cons in Hc as [Hc _].
  exists (tails p' +:+ "/"), c. split; [|done].
  rewrite tails_app. simpl. by rewrite string_app_nil_r, !string_app_assoc.
Qed.

Lemma join_tails_segs l h :
  Forall is_seg l → l ≠ [] → Forall is_seg h → h ≠ [] →
  posixpath.join (tails l) (Str.join "/" h) = tails (l ++ h).
Proof.
  intros Hl Hlne Hh Hhne.
  destruct (tails_last_seg l Hl Hlne) as (y & c & E & Hc).
  destruct h as [|b hp]; [done|]. apply Forall_cons in Hh as [Hb Hhp].
  unfold posixpath.join, posixpath.join_list. cbn [foldl].
  rewrite join_sep_cons, tails_app, tails_cons, E.
  by rewrite join_step_seg.
Qed.

(** The normal form of an absolute path of segments. *)
Lemma normpath_tails_segs l :
  Forall is_seg l → l ≠ [] →
  posixpath.normpath (tails l)
  = "/" +:+ Str.join "/" (foldl (posixpath.normpath_step 1) [] l).
Proof.
  intros Hl Hne. destruct l as [|b l]; [done|]. clear Hne.
  pose proof Hl as [Hb _]%Forall_cons. destruct Hb as (Hbne & Hbsep).
  destruct b as [|a b]; [done|].
  assert (Ha : Ascii.eqb "/" a = false).
  { cbn [Str.contains] in Hbsep. rewrite Ascii.eqb_sym.
    by destruct (Ascii.eqb a "/"). }
  set (p := tails (String a b :: l)).
  assert (E : p = String "/" (String a (b +:+ tails l))) by done.
  assert (H0 : String.eqb p "" = false) by by rewrite E.
  assert (H1 : Str.startswith p "/" = true).
  { by rewrite E, startswith_cons, Ascii.eqb_refl, startswith_nil. }
  assert (H2 : Str.startswith p "//" = false).
  { by rewrite E, !startswith_cons, Ascii.eqb_refl, Ha. }
  unfold posixpath.normpath, posixpath.sep.
  rewrite H0, H1, H2. unfold p. rewrite split_tails_segs by done.
  cbn [andb foldl].
  change (posixpath.normpath_step 1 [] "") with (@nil string).
  change (Str.replicate 1 "/" +:+ ?x) with ("/" +:+ x).
  done.
Qed.

Lemma normpath_step_dotdot acc c :
  Forall is_comp (acc ++ [c]) →
  posixpath.normpath_step 1 (acc ++ [c]) ".." = acc.
Proof.
  intros H. apply Forall_app in H as [_ [Hc _]%Forall_cons].
  unfold posixpath.normpath_step. cbn [String.eqb Ascii.eqb Bool.eqb negb orb andb Nat.eqb].
  rewrite last_snoc. rewrite bool_decide_eq_false_2.
  - rewrite andb_false_r. by rewrite removelast_last.
  - intros [= ->]. by destruct Hc as (_ & _ & _ & ?).
Qed.

Lemma normpath_steps_dotdot acc k :
  Forall is_comp acc →
  foldl (posixpath.normpath_step 1) acc (repeat ".." k) = take (length acc - k) acc.
Proof.
  revert acc. induction k as [|k IH]; intros acc Hacc.
  - simpl. by rewrite Nat.sub_0_r, firstn_all.
  - cbn [repeat foldl]. destruct (decide (acc = [])) as [->|Hne].
    + change (posixpath.normpath_step 1 [] "..") with (@nil string).
      rewrite IH by done. by rewrite take_nil.
    + destruct (exists_last Hne) as (acc' & c & ->).
      rewrite normpath_step_dotdot by done.
      apply Forall_app in Hacc as [Hacc' _]. rewrite IH by done.
      rewrite length_app. simpl.
      replace (length acc' + 1 - S k) with (length acc' - k) by lia.
      rewrite take_app_le by lia. done.
Qed.

Lemma normpath_step_dot acc : posixpath.normpath_step 1 acc "." = acc.
Proof. done. Qed.

Lemma commonprefix_len_le l1 l2 :
  posixpath.commonprefix_len l1 l2 ≤ length l1.
Proof.
  revert l2. induction l1 as [|x l1 IH]; intros [|y l2]; simpl; try lia.
  destruct (String.eqb x y); [|lia]. specialize (IH l2). lia.
Qed.

Lemma commonprefix_len_take l1 l2 :
  take (posixpath.commonprefix_len l1 l2) l1
  = take (posixpath.commonprefix_len l1 l2) l2.
Proof.
  revert l2. induction l1 as [|x l1 IH]; intros [|y l2]; simpl; try done.
  destruct (String.eqb x y) eqn:E; [|done].
  apply String.eqb_eq in E as ->. simpl. by rewrite IH.
Qed.

(** Walking from [s] along the relative path that [relpath] computes for
    [p] arrives at [p]. *)
Lemma normpath_steps_rel s p :
  Forall is_comp s → Forall is_comp p →
  let i := posixpath.commonprefix_len s p in
  foldl (posixpath.normpath_step 1) [] (s ++ repeat ".." (length s - i) ++ drop i p)
  = p.
Proof.
  intros Hs Hp i. rewrite !foldl_app.
  rewrite (normpath_steps_plain 1 [] s) by done. cbn [app].
  rewrite normpath_steps_dotdot by done.
  rewrite normpath_steps_plain by by apply Forall_drop.
  pose proof (commonprefix_len_le s p). fold i in H.
  replace (length s - (length s - i)) with i by lia.
  unfold i at 1. rewrite commonprefix_len_take. fold i. apply take_drop.
Qed.

Lemma dotdot_seg : is_seg "..".
Proof. done. Qed.

Lemma rel_segs (s p : list string) i :
  Forall is_comp p → Forall is_seg (repeat ".." (length s - i) ++ drop i p).
Proof.
  intros Hp. apply Forall_app. split.
  - apply Forall_forall. intros x Hx. apply list_elem_of_In, repeat_spec in Hx as ->.
    apply dotdot_seg.
  - apply comps_segs. by apply Forall_drop.
Qed.

(** The path of [p] relative to [s], joined to [s] and normalized, is [p]. *)
Lemma relpath_back cwd s p rel :
  Forall is_comp s → s ≠ [] → Forall is_comp p → p ≠ [] →
  posixpath.relpath cwd (tails p) (tails s) = Ok rel →
  posixpath.normpath (posixpath.join (tails s) rel) = tails p.
Proof.
  intros Hs Hsne Hp Hpne. unfold posixpath.relpath.
  destruct (tails_first _ Hpne Hp) as (a & r & E & _).
  rewrite E at 1. cbn [String.eqb].
  rewrite !abspath_tails, !nonempty_comps_tails by done.
  pose proof (normpath_steps_rel s p Hs Hp) as Hwalk. cbv zeta in Hwalk.
  pose proof (rel_segs s p (posixpath.commonprefix_len s p) Hp) as Hsegs.
  set (i := posixpath.commonprefix_len s p) in *.
  assert (Htail : "/" +:+ Str.join "/" p = tails p).
  { destruct p as [|b p']; [done|]. by rewrite join_sep_cons, tails_cons. }
  destruct (repeat ".." (length s - i) ++ drop i p) as [|x l] eqn:Erel.
  - intros [= <-]. rewrite app_nil_r in Hwalk.
    change "." with (Str.join "/" ["."]).
    rewrite join_tails_segs; [|by apply comps_segs|done|by repeat constructor|done].
    rewrite normpath_tails_segs; [|apply Forall_app; split;
      [by apply comps_segs|by repeat constructor]|by destruct s].
    rewrite foldl_app. cbn [foldl]. rewrite normpath_step_dot, Hwalk. done.
  - intros [= <-]. pose proof Hsegs as [Hx Hl]%Forall_cons.
    change (posixpath.join_list x l) with (posixpath.join_list ("" +:+ x) l).
    rewrite join_list_segs by done. change ("" +:+ x) with x.
    rewrite <- join_sep_cons.
    rewrite join_tails_segs; [|by apply comps_segs|done|done|done].
    rewrite normpath_tails_segs; [|apply Forall_app; split;
      [by apply comps_segs|done]|by destruct s].
    by rewrite Hwalk.
Qed.

(** X8: the href that [fix_links_in_html] computes for a target leads, from
    the directory of the document, back to the file of the target. *)
Theorem rewritten_href_points_at_target w file_path rc tc s new_href :
  Forall is_comp rc → rc ≠ [] →
  Forall is_comp tc → tc ≠ [] →
  Forall is_comp s → s ≠ [] →
  posixpath.dirname file_path = tails s →
  posixpath.relpath (cwd w) (posixpath.join (tails rc) (Str.join "/" tc))
    (posixpath.dirname file_path) = Ok new_href →
  posixpath.normpath (posixpath.join (posixpath.dirname file_path) new_href)
  = posixpath.join (tails rc) (Str.join "/" tc).
Proof.
  intros Hrc Hrne Htc Htne Hs Hsne -> Hrel.
  rewrite join_tails in * by done.
  apply (relpath_back (cwd w)); try done.
  - by apply Forall_app.
  - by destruct rc.
Qed.

Lemma resolved_link_rewritten_witness :
  ids_unique page
  ∧ TagInfo 1 "a" {[ "href" := "x/B.html" ]} ∈ tags page
  ∧ find_target_path site "x/B.html" site_index "/r" = ([], Ok (Some "x/B.html"))
  ∧ posixpath.relpath (cwd site) (posixpath.join "/r" "x/B.html")
      (posixpath.dirname "/r/sub/A.html") = Ok "../x/B.html"
  ∧ attr_is 1 "href" (Some "../x/B.html")
      (soup (final (fix_links_in_html site "/r/sub/A.html" "/r" site_index page)))
  ∧ ("../x/B.html" ≠ "x/B.html" →
     PrintUpdatingLink "/r/sub/A.html" "x/B.html" "../x/B.html"
       ∈ trace (final (fix_links_in_html site "/r/sub/A.html" "/r" site_index page))
     ∧ SetAttr 1 "href" "../x/B.html"
       ∈ trace (final (fix_links_in_html site "/r/sub/A.html" "/r" site_index page))).
Proof.
  split; [apply page_ids_unique|]. split; [tag_there|].
  split; [reflexivity|]. split; [reflexivity|].
  apply (resolved_link_rewritten site "/r/sub/A.html" "/r" site_index page
           1 {[ "href" := "x/B.html" ]} "x/B.html" [] "x/B.html" "../x/B.html");
    [apply page_ids_unique|tag_there|reflexivity|reflexivity|reflexivity
    |discriminate|reflexivity|apply page_pass].
Defined.

Lemma rewritten_href_points_at_target_witness :
  posixpath.dirname "/r/sub/A.html" = tails ["r"; "sub"]
  ∧ posixpath.relpath (cwd site) (posixpath.join (tails ["r"]) (Str.join "/" ["x"; "B.html"]))
      (posixpath.dirname "/r/sub/A.html") = Ok "../x/B.html"
  ∧ posixpath.normpath (posixpath.join (posixpath.dirname "/r/sub/A.html") "../x/B.html")
    = posixpath.join (tails ["r"]) (Str.join "/" ["x"; "B.html"]).
Proof.
  split; [reflexivity|]. split; [reflexivity|].
  apply (rewritten_href_points_at_target site "/r/sub/A.html" ["r"] ["x"; "B.html"]
           ["r"; "sub"] "../x/B.html");
    [plain_comps|discriminate|plain_comps|discriminate|plain_comps|discriminate
    |reflexivity|reflexivity].
Defined.

(** ** What a pass keeps of the document *)

Lemma tag_of_id (ts : list tag_info) t t0 :
  NoDup (map t_id ts) → t ∈ ts → t0 ∈ ts → t_id t = t_id t0 → t = t0.
Proof.
  induction ts as [|x ts IH]; [by intros _ ?%elem_of_nil|].
  cbn [map]. intros [Hx Hnd]%NoDup_cons [->|Ht]%elem_of_cons [->|Ht0]%elem_of_cons E.
  - done.
  - destruct Hx. rewrite E. by apply (list_elem_of_fmap_2 t_id).
  - destruct Hx. rewrite <- E. by apply (list_elem_of_fmap_2 t_id).
  - by apply IH.
Qed.

Lemma comes_from_refl b t : comes_from b t t.
Proof. split; [done|]. split; [by left|done]. Qed.

Lemma comes_from_in_book t t' : comes_from false t t' → comes_from true t t'.
Proof. intros (Hid & [Hn|(? & _)] & Ha); [|done]. split; [done|]. split; [by left|done]. Qed.

Lemma comes_from_with_attr b (cts sub ts : list tag_info) i key v t0 :
  NoDup (map t_id cts) → (∀ t, t ∈ sub → t ∈ cts) → t0 ∈ cts → t_id t0 = i →
  (t_name t0, key) = ("a", "href") ∨ (t_name t0, key) = ("img", "src") →
  Forall2 (comes_from b) sub ts →
  Forall2 (comes_from b) sub (map (with_attr i key v) ts).
Proof.
  intros Hnd Hsub Ht0 Hi Hkey HF.
  induction HF as [|t t' sub ts Ht HF IH]; [constructor|].
  cbn [map]. constructor.
  - destruct Ht as (Hid & Hname & Hattr). unfold with_attr.
    split; [done|]. split; [done|]. cbn [t_attrs]. intros key' H1 H2.
    destruct (Nat.eqb_spec (t_id t') i) as [E|_]; [|by apply Hattr].
    assert (t = t0) as ->.
    { apply (tag_of_id cts); [done|apply Hsub; left|done|congruence]. }
    rewrite lookup_insert_ne; [by apply Hattr|].
    intros <-. by destruct Hkey.
  - apply IH. intros x Hx. apply Hsub. by right.
Qed.

Lemma comes_from_with_name (cts sub ts : list tag_info) i t0 :
  NoDup (map t_id cts) → (∀ t, t ∈ sub → t ∈ cts) → t0 ∈ cts → t_id t0 = i →
  t_name t0 = "h3" →
  Forall2 (comes_from true) sub ts →
  Forall2 (comes_from true) sub (map (with_name i "h2") ts).
Proof.
  intros Hnd Hsub Ht0 Hi Hname0 HF.
  induction HF as [|t t' sub ts Ht HF IH]; [constructor|].
  cbn [map]. constructor.
  - destruct Ht as (Hid & Hname & Hattr). unfold with_name.
    split; [done|]. split; [|done]. cbn [t_name].
    destruct (Nat.eqb_spec (t_id t') i) as [E|_]; [|done].
    assert (t = t0) as ->.
    { apply (tag_of_id cts); [done|apply Hsub; left|done|congruence]. }
    by right.
  - apply IH. intros x Hx. apply Hsub. by right.
Qed.

Lemma Forall2_sublist_r {A B : Type} (R : A → B → Prop) l k k' :
  Forall2 R l k → k' `sublist_of` k →
  ∃ l', l' `sublist_of` l ∧ Forall2 R l' k'.
Proof.
  intros HF Hsub. revert l HF.
  induction Hsub as [|y k' k Hsub IH|y k' k Hsub IH]; intros l HF.
  - exists []. split; [apply sublist_nil_l|constructor].
  - apply Forall2_cons_inv_r in HF as (x & l0 & Hx & HF & ->).
    destruct (IH _ HF) as (l' & Hl' & HF').
    exists (x :: l'). split; [by constructor|by constructor].
  - apply Forall2_cons_inv_r in HF as (x & l0 & Hx & HF & ->).
    destruct (IH _ HF) as (l' & Hl' & HF').
    exists l'. split; [by constructor|done].
Qed.

Lemma Forall2_elem_of_r {A B : Type} (R : A → B → Prop) l k y :
  Forall2 R l k → y ∈ k → ∃ x, x ∈ l ∧ R x y.
Proof.
  induction 1 as [|x y' l k Hxy HF IH]; [by intros ?%elem_of_nil|].
  intros [->|Hy]%elem_of_cons.
  - exists x. split; [left|done].
  - destruct (IH Hy) as (x' & ? & ?). exists x'. split; [by right|done].
Qed.

Lemma foldl_invariant_in {X : Type} (I : state → Prop) (f : state → X → state) l s :
  I s → (∀ s x, x ∈ l → I s → I (f s x)) → I (foldl f s l).
Proof.
  revert s. induction l as [|x l IH]; intros s Hs Hf; [done|].
  simpl. apply IH.
  - apply Hf; [left|done].
  - intros s' y Hy. apply Hf. by right.
Qed.

(** The loops over the attributes keep every tag. *)
Lemma attributes_kept w file_path project_root index content :
  ids_unique content →
  Forall2 (comes_from false) (tags content)
    (tags (soup (final (fix_attributes w file_path project_root index content)))).
Proof.
  intros Hu.
  set (I := λ s : state, Forall2 (comes_from false) (tags content) (tags (soup s))).
  assert (Hset : ∀ s x key v t0, t0 ∈ tags content → t_id t0 = x →
            (t_name t0, key) = ("a", "href") ∨ (t_name t0, key) = ("img", "src") →
            I s → Forall2 (comes_from false) (tags content)
                    (tags (set_attr x key v (soup s)))).
  { intros s x key v t0 Ht0 Hx Hkey Hs. rewrite tags_set_attr.
    by apply (comes_from_with_attr false (tags content) _ _ x key v t0). }
  assert (H0 : I (State content false [])).
  { unfold I. cbn [soup]. apply Forall_Forall2_diag, Forall_forall.
    intros t _. apply comes_from_refl. }
  assert (H1 : I (final (fix_a_tags w file_path project_root index
                           (State content false [])))).
  { unfold fix_a_tags. cbn [soup]. apply for_each_invariant_in; [done|].
    intros s x Hx Hs.
    apply find_all_elem_inv in Hx as (t0 & Ht0 & Hid & Hp).
    unfold is_a_href in Hp. apply andb_true_iff in Hp as [Hname _].
    apply String.eqb_eq in Hname.
    destruct (fix_a_soup w file_path project_root index s x)
      as [E|(href & new_href & _ & _ & E)]; unfold I; rewrite E; [done|].
    apply (Hset s x "href" new_href t0); [done..| |done]. left. by rewrite Hname. }
  unfold fix_attributes.
  destruct (fix_a_tags w file_path project_root index (State content false []))
    as [s1|e s1]; [|done].
  cbn [final] in H1. unfold fix_img_tags. fold (I (final (for_each (fix_img file_path)
    (find_all is_img_src (soup s1)) s1))).
  apply for_each_invariant_in; [done|].
  intros s x Hx Hs.
  apply find_all_elem_inv in Hx as (t1 & Ht1 & Hid & Hp).
  unfold is_img_src in Hp. apply andb_true_iff in Hp as [Hname _].
  apply String.eqb_eq in Hname.
  destruct (Forall2_elem_of_r _ _ _ _ H1 Ht1) as (t0 & Ht0 & Hid0 & Hname0 & _).
  destruct Hname0 as [Hname0|(? & _)]; [|done].
  destruct (fix_img_soup file_path s x) as [E|(src & _ & _ & _ & E)];
    unfold I; rewrite E; [done|].
  apply (Hset s x "src" (asset_src src) t0); [done|congruence| |done].
  right. by rewrite <- Hname0, Hname.
Qed.

(** The edits of the book remove tags and rename [h3] tags. *)
Lemma book_edits_kept file_path content s :
  ids_unique content →
  (∃ sub, sub `sublist_of` tags content
     ∧ Forall2 (comes_from true) sub (tags (soup s))) →
  ∃ sub, sub `sublist_of` tags content
    ∧ Forall2 (comes_from true) sub
        (tags (soup (remove_paragraphs file_path (book_edits_before_paragraphs s)))).
Proof.
  intros Hu.
  set (K := λ s : state, ∃ sub, sub `sublist_of` tags content
              ∧ Forall2 (comes_from true) sub (tags (soup s))).
  assert (Hdec : ∀ s x, K s → ∃ sub, sub `sublist_of` tags content
              ∧ Forall2 (comes_from true) sub (tags (decompose x (soup s)))).
  { intros s0 x (sub & Hsub & HF).
    destruct (tags_decompose x (soup s0)) as [Hd _].
    destruct (Forall2_sublist_r _ _ _ _ HF Hd) as (sub' & Hsub' & HF').
    exists sub'. split; [by etrans|done]. }
  intros H0. fold (K s) in H0.
  assert (H1 : K (remove_citations s)).
  { unfold remove_citations. apply foldl_invariant; [done|].
    intros s0 x Hs0. by apply Hdec. }
  assert (H2 : K (remove_topics (remove_citations s))).
  { unfold remove_topics. destruct (head _) as [h2|]; [|done].
    destruct (String.eqb _ _); [|done]. by apply Hdec. }
  assert (H3 : K (rename_h3s (remove_topics (remove_citations s)))).
  { unfold rename_h3s. set (s2 := remove_topics (remove_citations s)) in *.
    apply foldl_invariant_in; [done|].
    intros s0 x Hx (sub & Hsub & HF).
    apply find_all_elem_inv in Hx as (t1 & Ht1 & Hid & Hp).
    unfold is_h3 in Hp. apply String.eqb_eq in Hp.
    destruct H2 as (sub2 & Hsub2 & HF2).
    destruct (Forall2_elem_of_r _ _ _ _ HF2 Ht1) as (t0 & Ht0 & Hid0 & Hname0 & _).
    assert (Hh3 : t_name t0 = "h3").
    { destruct Hname0 as [E|(_ & E & _)]; [|done]. by rewrite <- E. }
    exists sub. split; [done|].
    change (soup (rename_h3 s0 x)) with (set_name x "h2" (soup s0)).
    rewrite tags_set_name.
    apply (comes_from_with_name (tags content) _ _ x t0); try done.
    - intros t Ht. by eapply elem_of_sublist.
    - by eapply elem_of_sublist.
    - congruence. }
  unfold remove_paragraphs, book_edits_before_paragraphs.
  fold (K (foldl (remove_paragraph file_path)
             (rename_h3s (remove_topics (remove_citations s)))
             (find_all is_p (soup (rename_h3s (remove_topics (remove_citations s))))))).
  apply foldl_invariant; [done|].
  intros s0 x Hs0. unfold remove_paragraph.
  destruct (bool_decide _); [|done]. by apply Hdec.
Qed.

(** X9: what a pass keeps. The tags of the document that [fix_links_in_html]
    ends with, completed or not, are tags of the document it read, in the
    same order and each once: none is added. Each has its name, but for an
    [h3] of the book, which may be an [h2]; each has its attributes, but for
    the href of an [<a>] and the src of an [<img>]. Outside the book no tag is
    removed either. *)
Theorem tags_kept w file_path project_root index content :
  ids_unique content →
  kept_from (String.eqb (posixpath.basename file_path) book) content
    (soup (final (fix_links_in_html w file_path project_root index content))).
Proof.
  intros Hu. pose proof (attributes_kept w file_path project_root index content Hu) as H.
  rewrite fix_links_in_html_attributes.
  destruct (fix_attributes w file_path project_root index content) as [s|e s];
    cbn [final] in *.
  - rewrite soup_write_back. unfold book_edits.
    destruct (String.eqb (posixpath.basename file_path) book).
    + destruct (book_edits_kept file_path content s Hu) as (sub & Hsub & HF).
      { exists (tags content). split; [done|].
        eapply Forall2_impl; [exact H|]. intros. by apply comes_from_in_book. }
      by exists sub.
    + by exists (tags content).
  - exists (tags content). split; [done|]. split; [|done].
    destruct (String.eqb (posixpath.basename file_path) book); [|done].
    eapply Forall2_impl; [exact H|]. intros. by apply comes_from_in_book.
Qed.

Lemma tags_kept_witness :
  ids_unique page
  ∧ kept_from (String.eqb (posixpath.basename "/r/sub/A.html") book) page
      (soup (final (fix_links_in_html site "/r/sub/A.html" "/r" site_index page))).
Proof.
  split; [apply page_ids_unique|].
  apply (tags_kept site "/r/sub/A.html" "/r" site_index page), page_ids_unique.
Defined.

(** ** A pass that raises *)

Lemma for_each_aborted {X : Type} (body : state → X → outcome) l s e s' :
  for_each body l s = Aborted e s' →
  ∃ l1 x l2 s0, l = l1 ++ x :: l2 ∧ for_each body l1 s = Done s0
                ∧ body s0 x = Aborted e s'.
Proof.
  revert s. induction l as [|x l IH]; intros s; [done|].
  rewrite for_each_cons. destruct (body s x) as [s1|e1 s1] eqn:E.
  - intros (l1 & y & l2 & s0 & -> & Hl1 & Hy)%IH.
    exists (x :: l1), y, l2, s0. split; [done|]. split; [|done].
    by rewrite for_each_cons, E.
  - intros [= -> ->]. by exists [], x, l, s.
Qed.

Lemma join_empty_l b : posixpath.join "" b = b.
Proof.
  unfold posixpath.join, posixpath.join_list. cbn [foldl].
  unfold posixpath.join_step. by destruct (Str.startswith b "/").
Qed.

Lemma truthy_nonempty r t : truthy r = Some t → t ≠ "".
Proof.
  destruct r as [[|a r]|]; [done| |done]. by intros [= <-].
Qed.

(** The target of a link has a path relative to the document. *)
Lemma target_relpath_ok w project_root r t start :
  truthy r = Some t →
  ∃ new_href,
    posixpath.relpath (cwd w) (posixpath.join project_root t) start = Ok new_href.
Proof.
  intros Ht%truthy_nonempty.
  destruct (posixpath.relpath _ _ _) as [n|e] eqn:E; [by exists n|].
  apply relpath_raises in E as [E _]. destruct (decide (project_root = "")) as [->|Hne].
  - by rewrite join_empty_l in E.
  - by apply join_nonempty in E.
Qed.

Lemma find_target_path_out w href index project_root ev :
  ev ∈ (find_target_path w href index project_root).1 → is_report ev = false.
Proof.
  unfold find_target_path. destruct (path_exists _ _); [by intros ?%elem_of_nil|].
  destruct (index !! _) as [targets|]; [|by intros ?%elem_of_nil]. cbn [fst].
  destruct (1 <? length targets); [|by intros ?%elem_of_nil].
  by intros ->%list_elem_of_singleton.
Qed.

Lemma no_report_fix_a w file_path project_root index s a :
  (∀ ev, ev ∈ trace s → is_report ev = false) →
  ∀ ev, ev ∈ trace (final (fix_a w file_path project_root index s a)) →
    is_report ev = false.
Proof.
  intros H. unfold fix_a.
  destruct (tag_attr a "href" (soup s)) as [href|]; [|done].
  destruct (is_skipped_href href); [done|].
  pose proof (find_target_path_out w href index project_root) as Hout.
  destruct (find_target_path _ _ _ _) as [out r]. cbn [fst] in Hout.
  assert (H1 : ∀ ev, ev ∈ trace (emit out s) → is_report ev = false).
  { intros ev [?|?]%elem_of_app; auto. }
  destruct r as [target_rel|e]; [|done].
  destruct (truthy target_rel) as [t|].
  - destruct (posixpath.relpath _ _ _) as [new_href|e]; [|done].
    destruct (negb _); [|done]. cbn.
    intros ev [[[?|?]%elem_of_app| ->%list_elem_of_singleton]%elem_of_app
              | ->%list_elem_of_singleton]%elem_of_app; auto.
  - cbn. intros ev [[?|?]%elem_of_app| ->%list_elem_of_singleton]%elem_of_app; auto.
Qed.

Lemma no_report_fix_img file_path s img :
  (∀ ev, ev ∈ trace s → is_report ev = false) →
  ∀ ev, ev ∈ trace (final (fix_img file_path s img)) → is_report ev = false.
Proof.
  intros H. unfold fix_img.
  destruct (tag_attr img "src" (soup s)) as [src|]; [|done].
  destruct (is_external_src src); [done|].
  destruct (negb (Str.contains "/" src)); [|done].
  destruct (negb _); [|done]. cbn.
  intros ev [[?| ->%list_elem_of_singleton]%elem_of_app
            | ->%list_elem_of_singleton]%elem_of_app; auto.
Qed.

(** The loop over the [<img>] tags raises nothing. *)
Lemma fix_img_tags_done file_path s :
  ids_unique (soup s) → ∃ s', fix_img_tags file_path s = Done s'.
Proof.
  intros Hu. unfold fix_img_tags.
  destruct (for_each_done
              (λ s', all_there is_img_src (find_all is_img_src (soup s)) (soup s'))
              (fix_img file_path) (find_all is_img_src (soup s)) s)
    as (s2 & -> & _).
  - by apply all_there_find_all.
  - intros s0 img. by apply fix_img_done.
  - by eexists.
Qed.

Lemma all_there_fix_a w file_path project_root index l s a :
  all_there is_a_href l (soup s) →
  all_there is_a_href l (soup (final (fix_a w file_path project_root index s a))).
Proof.
  intros H.
  destruct (fix_a_soup w file_path project_root index s a)
    as [->|(? & ? & _ & _ & ->)]; [done|].
  apply all_there_set_attr; [|done].
  intros name attrs. unfold is_a_href, has_attr.
  intros [-> _]%andb_true_iff. by rewrite lookup_insert_eq.
Qed.

(** The loops and the edits on the parsed document raise only in the round
    of an [<a>] tag whose href is not skipped and on which [find_target_path]
    raises: neither [relpath] nor the loop over the [<img>] tags does. *)
Lemma aborted_in_a_round w file_path project_root index content e s :
  ids_unique content →
  fix_links_in_html w file_path project_root index content = Aborted e s →
  (∃ i attrs href,
     TagInfo i "a" attrs ∈ tags content
     ∧ attrs !! "href" = Some href
     ∧ is_skipped_href href = false
     ∧ (find_target_path w href index project_root).2 = Raise e)
  ∧ ∀ ev, ev ∈ trace s → is_report ev = false.
Proof.
  intros Hu. unfold fix_links_in_html.
  set (l := find_all is_a_href content).
  assert (Hua : ids_unique (soup (final (fix_a_tags w file_path project_root index
                                           (State content false []))))).
  { unfold fix_a_tags. apply (for_each_invariant (λ s, ids_unique (soup s)));
      [done|]. intros s0 a. apply ids_unique_fix_a. }
  assert (Hra : ∀ ev, ev ∈ trace (final (fix_a_tags w file_path project_root index
                                           (State content false []))) →
                      is_report ev = false).
  { unfold fix_a_tags.
    apply (for_each_invariant (λ s, ∀ ev, ev ∈ trace s → is_report ev = false)).
    - by intros ev ?%elem_of_nil.
    - intros s0 a. apply no_report_fix_a. }
  destruct (fix_a_tags _ _ _ _ _) as [s1|e1 s1] eqn:Ea; cbn [final] in *.
  { destruct (fix_img_tags_done file_path s1 Hua) as (s2 & ->). done. }
  intros [= -> ->]. split; [|done].
  unfold fix_a_tags in Ea. cbn [soup] in Ea. fold l in Ea.
  apply for_each_aborted in Ea as (l1 & x & l2 & s0 & El & Hl1 & Hx).
  assert (Hnd : NoDup l) by by apply find_all_NoDup.
  rewrite El in Hnd. apply NoDup_app in Hnd as (_ & Hnot & _).
  assert (Hxl : x ∈ l). { rewrite El. apply elem_of_app. right. left. }
  destruct (find_all_elem_inv _ _ _ Hxl) as ([i name attrs] & Ht & Hid & Hp).
  cbn in Hid, Hp. subst i. unfold is_a_href, has_attr in Hp.
  apply andb_true_iff in Hp as [->%String.eqb_eq Hhas].
  destruct (attrs !! "href") as [href|] eqn:Hhref; [|done].
  exists x, attrs, href. split; [done|]. split; [done|].
  destruct (ids_unique_attr_is content x "a" attrs "href" Hu Ht) as [H0 _].
  rewrite Hhref in H0.
  assert (Hs0 : all_there is_a_href l (soup s0)
                ∧ attr_is x "href" (Some href) (soup s0)).
  { pose proof (for_each_invariant_in
                  (λ s, all_there is_a_href l (soup s)
                        ∧ attr_is x "href" (Some href) (soup s))
                  (fix_a w file_path project_root index) l1
                  (State content false [])) as H.
    rewrite Hl1 in H. apply H.
    - split; [by apply all_there_find_all|done].
    - intros s2 y Hy [H1 H2]. split; [by apply all_there_fix_a|].
      destruct (fix_a_soup w file_path project_root index s2 y)
        as [->|(? & ? & _ & _ & ->)]; [done|].
      apply attr_is_set_attr_other_tag; [|done]. intros ->. by apply (Hnot x);
        [|left]. }
  destruct Hs0 as [[Hu0 Hall] Hattr].
  destruct (Hall x Hxl) as (t & Ht0 & Hid & Hp).
  assert (Htag : tag_attr x "href" (soup s0) = Some href).
  { rewrite (tag_attr_unique x "href" (soup s0) t Hu0 Ht0 Hid). by apply Hattr. }
  unfold fix_a in Hx. rewrite Htag in Hx.
  destruct (is_skipped_href href); [done|]. split; [done|].
  destruct (find_target_path w href index project_root) as [out r].
  destruct r as [target_rel|e']; [|by injection Hx as -> _].
  destruct (truthy target_rel) as [t'|] eqn:Et; [|done].
  destruct (target_relpath_ok w project_root target_rel t'
              (posixpath.dirname file_path) Et) as (n & En).
  rewrite En in Hx. by destruct (negb _).
Qed.

Lemma lone_link_ids_unique : ids_unique lone_link.
Proof. apply (bool_decide_unpack _). reflexivity. Defined.

(** ** The book at the end *)

(** X11: the document that a completed pass over the book ends with has no
    citation span and no [h3]. *)
Theorem book_without_citations w file_path project_root index content s' :
  posixpath.basename file_path = book →
  fix_links_in_html w file_path project_root index content = Done s' →
  ∀ t, t ∈ tags (soup s') →
    is_citation (t_name t) (t_attrs t) = false ∧ t_name t ≠ "h3".
Proof.
  intros Hbook. rewrite fix_links_in_html_attributes.
  destruct (fix_attributes _ _ _ _ _) as [s2|]; [|done].
  intros [= <-] t Ht. rewrite soup_write_back in Ht.
  unfold book_edits in Ht. rewrite Hbook, String.eqb_refl in Ht.
  unfold book_edits_before_paragraphs in Ht. split.
  - revert t Ht. apply all_tags_remove_paragraphs.
    apply all_tags_rename_h3s; [apply fails_citation_rename|].
    apply all_tags_remove_topics, remove_citations_none.
  - pose proof (all_tags_remove_paragraphs _ file_path _
                  (rename_h3s_none (remove_topics (remove_citations s2))) t Ht) as H.
    unfold fails, is_h3 in H. by apply String.eqb_neq.
Qed.

Lemma book_without_citations_witness :
  posixpath.basename book_path = book
  ∧ ∀ t, t ∈ tags (soup (final (fix_links_in_html site book_path "/r" site_index
                                   book_page))) →
      is_citation (t_name t) (t_attrs t) = false ∧ t_name t ≠ "h3".
Proof.
  split; [reflexivity|].
  apply (book_without_citations site book_path "/r" site_index book_page);
    [reflexivity|vm_compute; reflexivity].
Defined.

(** ** [fix_links_in_html] with its files, and [main] *)

Lemma html_entries_elem_of walk root file :
  (root, file) ∈ html_entries walk
  ↔ (root, file) ∈ walk_files walk ∧ Str.endswith (Str.lower file) ".html" = true.
Proof.
  unfold html_entries. by rewrite !list_elem_of_In, List.filter_In.
Qed.

(** The names that the index holds. *)
Lemma index_has_key w walk project_root index base :
  build_html_index w walk project_root = Ok index →
  is_Some (index !! base) ↔ ∃ root, (root, base) ∈ html_entries walk.
Proof.
  rewrite build_html_index_flat.
  intros [Hhtml Horder]%index_in_order_entries.
  specialize (Horder base). split.
  - intros [targets E]. destruct (Hhtml base targets E) as [Hsuf Hne].
    rewrite E in Horder.
    destruct (files_named base (walk_files walk)) as [|[root file] rest] eqn:Ef.
    { by destruct targets. }
    exists root.
    assert ((root, file) ∈ files_named base (walk_files walk)) as Hin.
    { rewrite Ef. by left. }
    apply files_named_elem_of in Hin as [Hin ->].
    by apply html_entries_elem_of.
  - intros [root [Hin Hsuf]%html_entries_elem_of].
    destruct (index !! base) as [targets|]; [done|].
    specialize (Horder Hsuf).
    assert ((root, base) ∈ files_named base (walk_files walk)) as Hin'.
    { by apply files_named_elem_of. }
    rewrite Horder in Hin'. by apply elem_of_nil in Hin'.
Qed.

Lemma index_keys_from (l : list (string * string)) keys :
  NoDup keys →
  NoDup (foldl (λ keys '(root, file),
                  if bool_decide (file ∈ keys) then keys else keys ++ [file])
               keys l)
  ∧ ∀ k, k ∈ foldl (λ keys '(root, file),
                      if bool_decide (file ∈ keys) then keys else keys ++ [file])
                   keys l
         ↔ k ∈ keys ∨ ∃ root, (root, k) ∈ l.
Proof.
  revert keys. induction l as [|[root file] l IH]; intros keys Hnd.
  - split; [done|]. intros k. split; [by left|].
    intros [?|[? []%elem_of_nil]]; done.
  - cbn [foldl]. case_bool_decide as Hin.
    + destruct (IH keys Hnd) as [H1 H2]. split; [done|].
      intros k. rewrite H2. split.
      * intros [?|[r ?]]; [by left|]. right. exists r. by right.
      * intros [?|[r [[= -> ->]|?]%elem_of_cons]]; [by left|by left|].
        right. by exists r.
    + destruct (IH (keys ++ [file])) as [H1 H2].
      { apply NoDup_app. split; [done|]. split; [|apply NoDup_singleton].
        intros x Hx ->%list_elem_of_singleton. done. }
      split; [done|]. intros k. rewrite H2, elem_of_app, list_elem_of_singleton.
      split.
      * intros [[?| ->]|[r ?]]; [by left| |].
        -- right. exists root. left.
        -- right. exists r. by right.
      * intros [?|[r [[= -> ->]|?]%elem_of_cons]].
        -- left. by left.
        -- left. by right.
        -- right. by exists r.
Qed.

Lemma index_keys_NoDup walk : NoDup (index_keys walk).
Proof. apply index_keys_from, NoDup_nil_2. Qed.

Lemma index_keys_elem_of walk k :
  k ∈ index_keys walk ↔ ∃ root, (root, k) ∈ html_entries walk.
Proof.
  unfold index_keys.
  destruct (index_keys_from (html_entries walk) [] (NoDup_nil_2)) as [_ H].
  rewrite H. split; [|by right]. by intros [?%elem_of_nil|?].
Qed.

Lemma foldl_inv_in {A X : Type} (I : A → Prop) (f : A → X → A) l a :
  I a → (∀ a x, x ∈ l → I a → I (f a x)) → I (foldl f a l).
Proof.
  revert a. induction l as [|x l IH]; intros a Ha Hf; [done|].
  simpl. apply IH.
  - apply Hf; [left|done].
  - intros a' y Hy. apply Hf. by right.
Qed.


(** The loops and the edits of the book report nothing: the file is written
    and the last line printed at the end only. *)
Lemma no_report_attributes w file_path project_root index content ev :
  ev ∈ trace (final (fix_attributes w file_path project_root index content)) →
  is_report ev = false.
Proof.
  set (I := λ s : state, ∀ ev, ev ∈ trace s → is_report ev = false).
  revert ev. fold (I (final (fix_attributes w file_path project_root index content))).
  assert (H1 : I (final (fix_a_tags w file_path project_root index
                           (State content false [])))).
  { unfold fix_a_tags. apply (for_each_invariant I).
    - by intros ev ?%elem_of_nil.
    - intros s a Hs. unfold I in *. by apply no_report_fix_a. }
  unfold fix_attributes.
  destruct (fix_a_tags w file_path project_root index (State content false []))
    as [s1|e s1]; [|done].
  unfold fix_img_tags. apply (for_each_invariant I); [done|].
  intros s img Hs. unfold I in *. by apply no_report_fix_img.
Qed.

Lemma no_report_book_edits file_path s :
  (∀ ev, ev ∈ trace s → is_report ev = false) →
  ∀ ev, ev ∈ trace (book_edits file_path s) → is_report ev = false.
Proof.
  set (I := λ s : state, ∀ ev, ev ∈ trace s → is_report ev = false).
  intros H0. fold (I (book_edits file_path s)).
  apply (book_edits_rounds I); [| | | |done].
  - intros s0 x Hs ev [?| ->%list_elem_of_singleton]%elem_of_app; auto.
  - intros s0 Hs. unfold remove_topics. destruct (head _); [|done].
    destruct (String.eqb _ _); [|done].
    intros ev [?| ->%list_elem_of_singleton]%elem_of_app; auto.
  - intros s0 x Hs ev [?| ->%list_elem_of_singleton]%elem_of_app; auto.
  - intros s0 x Hs. unfold remove_paragraph. case_bool_decide; [|done].
    intros ev [[?| ->%list_elem_of_singleton]%elem_of_app
              | ->%list_elem_of_singleton]%elem_of_app; auto.
Qed.

(** [changed] is set exactly when the document was changed. *)
Lemma changed_tracks_attributes w file_path project_root index content :
  changed_tracks content (final (fix_attributes w file_path project_root index content)).
Proof.
  assert (H0 : changed_tracks content (State content false [])) by done.
  assert (H1 : changed_tracks content
                 (final (fix_a_tags w file_path project_root index
                           (State content false [])))).
  { unfold fix_a_tags. apply (for_each_invariant (changed_tracks content)); [done|].
    intros s a. apply changed_tracks_fix_a. }
  unfold fix_attributes.
  destruct (fix_a_tags w file_path project_root index (State content false []))
    as [s1|e s1]; [|done].
  unfold fix_img_tags. apply (for_each_invariant (changed_tracks content)); [done|].
  intros s img. apply changed_tracks_fix_img.
Qed.

Lemma fix_attributes_completes w file_path project_root index content :
  ids_unique content → project_root ≠ "" → index_nonempty index →
  ∃ s, fix_attributes w file_path project_root index content = Done s.
Proof.
  intros Hu Hroot Hidx.
  destruct (fix_links_in_html_completes w file_path project_root index content
              Hu Hroot Hidx) as [s' Hs'].
  rewrite fix_links_in_html_attributes in Hs'.
  destruct (fix_attributes _ _ _ _ _) as [s|]; [by exists s|done].
Qed.

Section main_facts.
Variable reparse : list node → list node.
Variable os_walk : string → list (string * list string * list string).
Variable try_write : string → list node → disk → write_result.

Lemma set_file_other file_path content d p :
  p ≠ file_path → set_file file_path content d p = d p.
Proof. intros H. unfold set_file. by apply String.eqb_neq in H as ->. Qed.

(** The function on the parsed document is the middle of the whole one: a
    call that returns has read a document on which [fix_links_in_html]
    completes, with the same events; one that raises an exception of the
    loops has read a document on which [fix_links_in_html] raises it. *)
Lemma on_disk_done w file_path project_root index d d' out :
  fix_links_in_html_on_disk reparse try_write w file_path project_root index d
  = PassDone d' out →
  ∃ content s',
    d file_path = Some content
    ∧ fix_links_in_html w file_path project_root index content = Done s'
    ∧ out = trace s'
    ∧ (d' = d ∨ d' = write_file reparse file_path (soup s') d).
Proof.
  unfold fix_links_in_html_on_disk.
  destruct (d file_path) as [content|]; [|done].
  pose proof (fix_links_in_html_attributes w file_path project_root index content)
    as E.
  destruct (fix_attributes _ _ _ _ _) as [s|]; [|done]. cbv zeta.
  intros H. exists content, (write_back file_path (book_edits file_path s)).
  split; [done|]. split; [done|]. rewrite soup_write_back. unfold write_back.
  destruct (changed (book_edits file_path s)).
  - destruct (try_write _ _ _); [|done]. injection H as <- <-.
    split; [done|]. by right.
  - injection H as <- <-. split; [done|]. by left.
Qed.

Lemma on_disk_aborted w file_path project_root index d e d' out :
  fix_links_in_html_on_disk reparse try_write w file_path project_root index d
  = PassRaised (Exn e) d' out →
  d' = d
  ∧ ∃ content s,
      d file_path = Some content
      ∧ fix_links_in_html w file_path project_root index content = Aborted e s
      ∧ out = trace s.
Proof.
  unfold fix_links_in_html_on_disk.
  destruct (d file_path) as [content|]; [|done].
  pose proof (fix_links_in_html_attributes w file_path project_root index content)
    as E.
  destruct (fix_attributes _ _ _ _ _) as [s|e0 s]; cbv zeta.
  - destruct (changed _); [|done]. by destruct (try_write _ _ _).
  - intros [= <- <- <-]. split; [done|]. by exists content, s.
Qed.

(** A call changes no other file. *)
Lemma pass_disk_other w file_path project_root index d p :
  p ≠ file_path →
  pass_disk (fix_links_in_html_on_disk reparse try_write w file_path project_root
               index d) p = d p.
Proof.
  intros Hp. unfold fix_links_in_html_on_disk.
  destruct (d file_path) as [content|]; [|done].
  destruct (fix_attributes _ _ _ _ _) as [s|]; [|done]. cbv zeta.
  destruct (changed _); [|done].
  destruct (try_write _ _ _); cbn [pass_disk]; unfold write_file;
    by rewrite set_file_other.
Qed.

(** A call writes the file it was given. *)
Lemma pass_writes w file_path project_root index d f c :
  WriteFile f c
    ∈ pass_trace (fix_links_in_html_on_disk reparse try_write w file_path
                    project_root index d) →
  f = file_path.
Proof.
  unfold fix_links_in_html_on_disk.
  destruct (d file_path) as [content|]; [|by intros ?%elem_of_nil].
  pose proof (no_report_attributes w file_path project_root index content) as Hn.
  destruct (fix_attributes _ _ _ _ _) as [s|e s]; cbn [final] in Hn;
    [|by intros ?%Hn].
  pose proof (no_report_book_edits file_path s Hn) as Hb. cbv zeta.
  destruct (changed _).
  - destruct (try_write _ _ _); cbn [pass_trace]; [|by intros ?%Hb].
    by intros [?%Hb|[[= -> _]|[?|[]%elem_of_nil]%elem_of_cons]%elem_of_cons]%elem_of_app.
  - cbn [pass_trace]. by intros [?%Hb|[?|[]%elem_of_nil]%elem_of_cons]%elem_of_app.
Qed.

Lemma processed_app tr1 tr2 : processed (tr1 ++ tr2) = processed tr1 ++ processed tr2.
Proof. unfold processed. apply omap_app. Qed.

Lemma processed_in_file tr : processed (map InFile tr) = [].
Proof. by induction tr. Qed.

Lemma processed_index_entries (f : string → main_event) l :
  (∀ k, match f k with PrintProcessing _ => False | _ => True end) →
  processed (map f l) = [].
Proof.
  intros Hf. induction l as [|k l IH]; [done|]. cbn.
  specialize (Hf k). fold (processed (map f l)). rewrite IH.
  by destruct (f k).
Qed.

(** X12: [main] writes [.html] files of the traversal and leaves every other
    file as it is. *)
Theorem main_writes_html_files_only w d argv :
  (∀ f c, InFile (WriteFile f c)
            ∈ main_trace (main reparse os_walk try_write w d argv) →
     f ∈ map full_path (html_entries (os_walk (main_root w argv))))
  ∧ ∀ p, p ∉ map full_path (html_entries (os_walk (main_root w argv))) →
      main_disk (main reparse os_walk try_write w d argv) p = d p.
Proof.
  set (files := map full_path (html_entries (os_walk (main_root w argv)))).
  unfold main.
  set (project_root := main_root w argv) in *.
  destruct (build_html_index w (os_walk project_root) project_root) as [index|e];
    [|split; [|done]; cbn; by intros f c [[=]|[]%elem_of_nil]%elem_of_cons].
  set (I := λ o, (∀ f c, InFile (WriteFile f c) ∈ main_trace o → f ∈ files)
                 ∧ ∀ p, p ∉ files → main_disk o p = d p).
  apply (foldl_inv_in I).
  - split; [|done]. cbn [main_trace].
    intros f c [[=]|[[=]|Hin]%elem_of_cons]%elem_of_cons.
    apply list_elem_of_fmap in Hin as (k & [=] & _).
  - intros acc entry Hentry [Htr Hd]. unfold process_file.
    destruct acc as [d0 tr0|]; [|done]. cbn [main_trace main_disk] in *.
    assert (Hf : full_path entry ∈ files) by by apply list_elem_of_fmap_2.
    fold (full_path entry).
    pose proof (pass_writes w (full_path entry) project_root index d0) as Hw.
    pose proof (pass_disk_other w (full_path entry) project_root index d0) as Ho.
    set (o := fix_links_in_html_on_disk reparse try_write w (full_path entry)
                project_root index d0) in *.
    assert (I (MainDone (pass_disk o)
                 ((tr0 ++ [PrintProcessing (full_path entry)])
                  ++ map InFile (pass_trace o)))) as HI.
    { split; cbn [main_trace main_disk].
      - intros f c [[?|[[=]|[]%elem_of_nil]%elem_of_cons]%elem_of_app
                   |Hin]%elem_of_app; [eauto|].
        apply list_elem_of_fmap in Hin as (ev & [= <-] & Hev).
        by apply Hw in Hev as ->.
      - intros p Hp. rewrite Ho; [by apply Hd|]. by intros ->. }
    by destruct o.
Qed.

Lemma abspath_nonempty cwd p : posixpath.abspath cwd p ≠ "".
Proof.
  unfold posixpath.abspath, posixpath.normpath.
  destruct (String.eqb _ ""); [done|].
  destruct (String.eqb _ "") eqn:E; [done|]. by apply String.eqb_neq in E.
Qed.

Lemma main_root_nonempty w argv : cwd w ≠ "" → main_root w argv ≠ "".
Proof.
  intros H. unfold main_root. destruct argv as [|a0 [|a1 argv]]; try done.
  apply abspath_nonempty.
Qed.

(** A call returns when the file can be read and written. *)
Lemma on_disk_completes w file_path project_root index d :
  project_root ≠ "" → index_nonempty index →
  (∀ c, ids_unique c → ids_unique (reparse c)) →
  (∀ p c, d p = Some c → ids_unique c) →
  is_Some (d file_path) →
  (∀ c d0, try_write file_path c d0 = Written) →
  ∃ d' out,
    fix_links_in_html_on_disk reparse try_write w file_path project_root index d
    = PassDone d' out
    ∧ (∀ p, is_Some (d p) → is_Some (d' p))
    ∧ (∀ p c, d' p = Some c → ids_unique c).
Proof.
  intros Hroot Hidx Hre Hu [content Hc] Hw. unfold fix_links_in_html_on_disk.
  rewrite Hc.
  destruct (fix_attributes_completes w file_path project_root index content)
    as [s Hs]; [by eapply Hu|done..|].
  pose proof (ids_unique_fix_attributes w file_path project_root index content)
    as Hus. rewrite Hs in *. cbn [final] in Hus. cbv zeta.
  destruct (changed _); [|by eexists _, _].
  rewrite Hw. eexists _, _. split; [done|]. unfold write_file, set_file. split.
  - intros p Hp. by destruct (String.eqb _ _).
  - intros p c. destruct (String.eqb _ _); [|by apply Hu].
    intros [= <-]. apply Hre, ids_unique_book_edits, Hus. by eapply Hu.
Qed.

(** The loop over the files when nothing raises. *)
Lemma process_files_done w project_root index l d tr :
  project_root ≠ "" → index_nonempty index →
  (∀ c, ids_unique c → ids_unique (reparse c)) →
  (∀ entry c d0, entry ∈ l → try_write (full_path entry) c d0 = Written) →
  (∀ p c, d p = Some c → ids_unique c) →
  (∀ entry, entry ∈ l → is_Some (d (full_path entry))) →
  ∃ d' tr',
    foldl (process_file reparse try_write w project_root index) (MainDone d tr) l
    = MainDone d' tr'
    ∧ processed tr' = processed tr ++ map full_path l.
Proof.
  intros Hroot Hidx Hre. revert d tr.
  induction l as [|entry l IH]; intros d tr Hw Hu Hread.
  - exists d, tr. by rewrite app_nil_r.
  - cbn [foldl]. unfold process_file at 2. fold (full_path entry).
    destruct (on_disk_completes w (full_path entry) project_root index d)
      as (d1 & out & -> & Hk1 & Hk2); try done.
    { apply Hread. left. }
    { intros c d0. apply Hw. left. }
    destruct (IH d1 ((tr ++ [PrintProcessing (full_path entry)]) ++ map InFile out))
      as (d' & tr' & E & Hp).
    + intros e c d0 He. apply Hw. by right.
    + done.
    + intros e He. apply Hk1, Hread. by right.
    + exists d', tr'. split; [done|]. rewrite Hp, !processed_app, processed_in_file.
      cbn. by rewrite app_nil_r, <- app_assoc.
Qed.

(** X13: [main] completes, and processes every [.html] file of the traversal
    once, in the order of the traversal, when the working directory has a
    name, no directory of the traversal has an empty one, every [.html] file
    of the traversal can be read and written, and the tags of a parsed
    document are distinct objects. *)
Theorem main_completes w d argv :
  cwd w ≠ "" →
  (∀ root file, (root, file) ∈ walk_files (os_walk (main_root w argv)) →
     root ≠ "") →
  (∀ entry, entry ∈ html_entries (os_walk (main_root w argv)) →
     is_Some (d (full_path entry))) →
  (∀ entry c d0, entry ∈ html_entries (os_walk (main_root w argv)) →
     try_write (full_path entry) c d0 = Written) →
  (∀ p c, d p = Some c → ids_unique c) →
  (∀ c, ids_unique c → ids_unique (reparse c)) →
  ∃ d' tr,
    main reparse os_walk try_write w d argv = MainDone d' tr
    ∧ processed tr = map full_path (html_entries (os_walk (main_root w argv))).
Proof.
  intros Hcwd Hroots Hread Hw Hu Hre. unfold main.
  set (project_root := main_root w argv) in *.
  destruct (index_entries_ok w project_root (walk_files (os_walk project_root)))
    as [index E].
  { intros root file Hin. apply join_nonempty. by eapply Hroots. }
  rewrite <- build_html_index_flat in E. rewrite E.
  destruct (process_files_done w project_root index
              (html_entries (os_walk project_root)) d
              ([PrintBuildingIndex project_root] ++ [PrintIndexBuilt]
               ++ map (λ k, PrintIndexEntry k (default [] (index !! k)))
                      (index_keys (os_walk project_root))))
    as (d' & tr' & E' & Hp); try done.
  - by apply main_root_nonempty.
  - by eapply build_html_index_nonempty.
  - exists d', tr'. split; [done|]. rewrite Hp. cbn.
    by rewrite processed_index_entries.
Qed.

Lemma printed_entries_app tr1 tr2 :
  printed_entries (tr1 ++ tr2) = printed_entries tr1 ++ printed_entries tr2.
Proof. unfold printed_entries. apply omap_app. Qed.

Lemma printed_entries_in_file tr : printed_entries (map InFile tr) = [].
Proof. by induction tr. Qed.

(** The loop over the files prints no entry of the index. *)
Lemma printed_entries_process_file w project_root index acc entry :
  printed_entries
    (main_trace (process_file reparse try_write w project_root index acc entry))
  = printed_entries (main_trace acc).
Proof.
  unfold process_file. destruct acc as [d tr|]; [|done].
  destruct (fix_links_in_html_on_disk _ _ _ _ _ _ _) as [d' out|e d' out];
    cbn [main_trace];
    rewrite !printed_entries_app, printed_entries_in_file; cbn;
    by rewrite !app_nil_r.
Qed.

(** X14: [main] prints the entries of the index that [build_html_index]
    returns, each of them once. *)
Theorem main_prints_index w d argv index :
  build_html_index w (os_walk (main_root w argv)) (main_root w argv) = Ok index →
  printed_entries (main_trace (main reparse os_walk try_write w d argv))
  ≡ₚ map_to_list index.
Proof.
  intros E. unfold main. rewrite E.
  set (project_root := main_root w argv) in *.
  set (walk := os_walk project_root) in *.
  assert (Hloop : ∀ l acc,
            printed_entries
              (main_trace (foldl (process_file reparse try_write w project_root index)
                                 acc l))
            = printed_entries (main_trace acc)).
  { induction l as [|x l IH]; intros acc; [done|].
    cbn [foldl]. by rewrite IH, printed_entries_process_file. }
  rewrite Hloop. cbn [main_trace].
  assert (Hkeys : printed_entries
            ([PrintBuildingIndex project_root] ++ [PrintIndexBuilt]
             ++ map (λ k, PrintIndexEntry k (default [] (index !! k)))
                    (index_keys walk))
          = map (λ k, (k, default [] (index !! k))) (index_keys walk)).
  { cbn. generalize (index_keys walk). intros l.
    induction l as [|k l IH]; [done|]. cbn. by f_equal. }
  rewrite Hkeys. apply NoDup_Permutation.
  - apply NoDup_fmap_2_strong; [|apply index_keys_NoDup]. by intros k1 k2 _ _ [= ->].
  - apply NoDup_map_to_list.
  - intros [k paths]. rewrite elem_of_map_to_list, list_elem_of_fmap. split.
    + intros (k' & [= <- ->] & Hk).
      apply index_keys_elem_of, (index_has_key w walk project_root index k) in Hk
        as [paths Hk]; [|done].
      by rewrite Hk.
    + intros Hk. exists k. rewrite Hk. split; [done|].
      apply index_keys_elem_of, (index_has_key w walk project_root index k); [done|].
      by eexists.
Qed.

Lemma process_files_stopped w project_root index l e d tr :
  foldl (process_file reparse try_write w project_root index) (MainRaised e d tr) l
  = MainRaised e d tr.
Proof. by induction l. Qed.

Lemma on_disk_unreadable w file_path project_root index d f d' out :
  fix_links_in_html_on_disk reparse try_write w file_path project_root index d
  = PassRaised (ReadError f) d' out →
  f = file_path ∧ d file_path = None ∧ d' = d ∧ out = [].
Proof.
  unfold fix_links_in_html_on_disk.
  destruct (d file_path) as [content|]; [|by intros [= <- <- <-]].
  destruct (fix_attributes _ _ _ _ _) as [s|]; [|done]. cbv zeta.
  destruct (changed _); [|done]. by destruct (try_write _ _ _).
Qed.

Lemma process_files_raised w project_root index l d tr e d' tr' :
  foldl (process_file reparse try_write w project_root index) (MainDone d tr) l
  = MainRaised e d' tr' →
  ∃ l1 entry l2,
    l = l1 ++ entry :: l2
    ∧ match e with
      | ReadError f =>
          f = full_path entry
          ∧ processed tr' = processed tr ++ map full_path (l1 ++ [entry])
          ∧ ∀ p, p ∈ map full_path l1 ∨ d' p = d p
      | _ => True
      end.
Proof.
  revert d tr. induction l as [|entry l IH]; intros d tr; [done|].
  cbn [foldl]. unfold process_file at 2. fold (full_path entry).
  pose proof (pass_disk_other w (full_path entry) project_root index d) as Ho.
  destruct (fix_links_in_html_on_disk _ _ _ _ _ _ _) as [d1 out|e1 d1 out] eqn:Eo;
    cbn [pass_disk] in Ho.
  - intros (l1 & x & l2 & -> & He)%IH.
    exists (entry :: l1), x, l2. split; [done|].
    destruct e as [e'|f|f]; [done| |done]. destruct He as (-> & Htr & Hd).
    split; [done|]. split.
    { rewrite Htr, !processed_app, processed_in_file. cbn.
      by rewrite app_nil_r, <- app_assoc. }
    intros p. destruct (Hd p) as [?|Hd']; [left; by right|].
    destruct (decide (p = full_path entry)) as [->|Hne]; [left; left|].
    right. rewrite Hd'. by apply Ho.
  - rewrite process_files_stopped. intros [= <- <- <-].
    exists [], entry, l. split; [done|].
    destruct e1 as [e'|f|f]; [done| |done].
    apply on_disk_unreadable in Eo as (-> & _ & -> & ->). split; [done|]. split.
    + rewrite !processed_app. cbn. by rewrite app_nil_r.
    + intros p. by right.
Qed.

(** X15: an exception ends [main]. When it is one of reading a file, that
    file is an [.html] file of the traversal; the files processed are those
    before it in the traversal and that file, and no other file has changed:
    the files after it are neither read nor written. *)
Theorem main_stops_at_unreadable_file w d argv f d' tr :
  main reparse os_walk try_write w d argv = MainRaised (ReadError f) d' tr →
  ∃ l1 entry l2,
    html_entries (os_walk (main_root w argv)) = l1 ++ entry :: l2
    ∧ f = full_path entry
    ∧ processed tr = map full_path (l1 ++ [entry])
    ∧ ∀ p, p ∈ map full_path l1 ∨ d' p = d p.
Proof.
  unfold main. set (project_root := main_root w argv).
  destruct (build_html_index w (os_walk project_root) project_root) as [index|e];
    [|done].
  intros (l1 & entry & l2 & E & Hf & Htr & Hd)%process_files_raised.
  exists l1, entry, l2. split; [done|]. split; [done|]. split; [|done].
  rewrite Htr. cbn. by rewrite processed_index_entries.
Qed.

(** X10: where [fix_links_in_html] raises. It raises when the file cannot be
    read, before anything is done; in the round of an [<a>] tag of the
    document whose href is not skipped and on which [find_target_path] raises
    that exception; or when the changed document cannot be written. Neither
    [relpath], nor the loop over the [<img>] tags, nor an edit of the book
    raises. In each case no file was written and no last line printed, and
    the files are as they were, but for the file that could not be written. *)
Theorem fix_links_in_html_raises_at w file_path project_root index d e d' out :
  (∀ content, d file_path = Some content → ids_unique content) →
  fix_links_in_html_on_disk reparse try_write w file_path project_root index d
  = PassRaised e d' out →
  (∀ ev, ev ∈ out → is_report ev = false)
  ∧ (∀ p, p ≠ file_path → d' p = d p)
  ∧ match e with
    | ReadError f => f = file_path ∧ d file_path = None ∧ out = [] ∧ d' = d
    | Exn e0 =>
        d' = d
        ∧ ∃ content i attrs href,
            d file_path = Some content
            ∧ TagInfo i "a" attrs ∈ tags content
            ∧ attrs !! "href" = Some href
            ∧ is_skipped_href href = false
            ∧ (find_target_path w href index project_root).2 = Raise e0
    | WriteError f =>
        f = file_path
        ∧ (∃ soup after,
             try_write file_path soup d = WriteRaises after
             ∧ d' = set_file file_path after d)
        ∧ ∃ ev, ev ∈ out ∧ is_mutation ev = true
    end.
Proof.
  intros Hu Hr. split; [|split].
  - intros ev Hev.
    revert Hr Hev. unfold fix_links_in_html_on_disk.
    destruct (d file_path) as [content|]; [|by intros [= <- <- <-] ?%elem_of_nil].
    pose proof (no_report_attributes w file_path project_root index content) as Hn.
    destruct (fix_attributes _ _ _ _ _) as [s|e1 s]; cbn [final] in Hn;
      [|intros [= <- <- <-]; apply Hn].
    pose proof (no_report_book_edits file_path s Hn) as Hb. cbv zeta.
    destruct (changed _); [|done].
    destruct (try_write _ _ _); [done|]. intros [= <- <- <-]. apply Hb.
  - intros p Hp.
    pose proof (pass_disk_other w file_path project_root index d p Hp) as Ho.
    by rewrite Hr in Ho.
  - destruct e as [e0|f|f].
    + apply on_disk_aborted in Hr as (-> & content & s & Hc & Ha & ->).
      split; [done|].
      destruct (aborted_in_a_round w file_path project_root index content e0 s)
        as [(i & attrs & href & ?) _]; [by eapply Hu|done|].
      by exists content, i, attrs, href.
    + by apply on_disk_unreadable in Hr as (-> & ? & -> & ->).
    + revert Hr. unfold fix_links_in_html_on_disk.
      destruct (d file_path) as [content|] eqn:Hc; [|done].
      pose proof (changed_tracks_attributes w file_path project_root index content)
        as Ht.
      destruct (fix_attributes _ _ _ _ _) as [s|e1 s]; cbn [final] in Ht; [|done].
      apply (changed_tracks_book_edits content file_path) in Ht. cbv zeta.
      destruct Ht as (Hch & Hsame & _).
      destruct (changed (book_edits file_path s)) eqn:Ech; [|done].
      destruct (try_write _ _ _) as [|after] eqn:Ew; [done|].
      intros [= <- <- <-]. split; [done|].
      symmetry in Hch. apply existsb_exists in Hch as (ev & Hev & Hm).
      apply list_elem_of_In in Hev. split; [|by exists ev].
      by exists (soup (book_edits file_path s)), after.
Qed.

End main_facts.

Lemma site_disk_ids_unique p c : site_disk p = Some c → ids_unique c.
Proof.
  unfold site_disk.
  destruct (String.eqb p "/r/sub/A.html"); [intros [= <-]; apply page_ids_unique|].
  destruct (String.eqb p book_path); [intros [= <-]; apply book_page_ids_unique|].
  destruct (String.eqb p "/r/a/B.html");
    [intros [= <-]; apply (bool_decide_unpack _); reflexivity|].
  destruct (String.eqb p "/r/x/B.html"); [|done].
  intros [= <-]. apply NoDup_nil_2.
Defined.

Lemma site_roots_named root file :
  (root, file) ∈ walk_files (site_os_walk (main_root site ["fix_html_links.py"])) →
  root ≠ "".
Proof.
  change (walk_files (site_os_walk (main_root site ["fix_html_links.py"])))
    with [("/r", "The-Swift-Programming-Language.html"); ("/r", "logo.png");
          ("/r/a", "B.html"); ("/r/sub", "A.html"); ("/r/x", "B.html")].
  intros H. repeat (apply elem_of_cons in H as [[= -> _]|H]; [discriminate|]).
  by apply elem_of_nil in H.
Defined.

Lemma site_files_readable entry :
  entry ∈ html_entries (site_os_walk (main_root site ["fix_html_links.py"])) →
  is_Some (site_disk (full_path entry)).
Proof.
  change (html_entries (site_os_walk (main_root site ["fix_html_links.py"])))
    with [("/r", "The-Swift-Programming-Language.html");
          ("/r/a", "B.html"); ("/r/sub", "A.html"); ("/r/x", "B.html")].
  intros H. repeat (apply elem_of_cons in H as [->|H]; [by eexists|]).
  by apply elem_of_nil in H.
Defined.

Lemma main_completes_witness :
  cwd site ≠ ""
  ∧ (∀ entry c d0,
       entry ∈ html_entries (site_os_walk (main_root site ["fix_html_links.py"])) →
       all_writable (full_path entry) c d0 = Written)
  ∧ ∃ d' tr,
      main id site_os_walk all_writable site site_disk ["fix_html_links.py"]
      = MainDone d' tr
      ∧ processed tr
        = map full_path
            (html_entries (site_os_walk (main_root site ["fix_html_links.py"]))).
Proof.
  split; [discriminate|]. split; [reflexivity|].
  apply (main_completes id site_os_walk all_writable site site_disk
           ["fix_html_links.py"]).
  - discriminate.
  - apply site_roots_named.
  - apply site_files_readable.
  - reflexivity.
  - apply site_disk_ids_unique.
  - intros c H. exact H.
Defined.

(** With a file that cannot be written, [main] stops at it. *)
Example main_stops_at_read_only_file :
  ∃ d' tr,
    main id site_os_walk read_only site site_disk ["fix_html_links.py"]
    = MainRaised (WriteError book_path) d' tr
    ∧ processed tr = [book_path].
Proof. eexists _, _. split; [vm_compute; reflexivity|]. reflexivity. Qed.

Lemma main_prints_index_witness :
  build_html_index site (site_os_walk (main_root site ["fix_html_links.py"]))
    (main_root site ["fix_html_links.py"]) = Ok site_index
  ∧ printed_entries
      (main_trace (main id site_os_walk all_writable site site_disk
                     ["fix_html_links.py"]))
    ≡ₚ map_to_list site_index.
Proof.
  split; [apply site_index_built|].
  apply (main_prints_index id site_os_walk all_writable site site_disk
           ["fix_html_links.py"] site_index), site_index_built.
Defined.

Lemma book_only_disk_stops :
  main id site_os_walk all_writable site book_only_disk ["fix_html_links.py"; "/r"]
  = MainRaised (ReadError "/r/a/B.html")
      (main_disk (main id site_os_walk all_writable site book_only_disk
                    ["fix_html_links.py"; "/r"]))
      (main_trace (main id site_os_walk all_writable site book_only_disk
                     ["fix_html_links.py"; "/r"])).
Proof. vm_compute. reflexivity. Defined.

Lemma main_stops_at_unreadable_file_witness :
  ∃ l1 entry l2,
    html_entries (site_os_walk (main_root site ["fix_html_links.py"; "/r"]))
    = l1 ++ entry :: l2
    ∧ "/r/a/B.html" = full_path entry
    ∧ processed (main_trace (main id site_os_walk all_writable site book_only_disk
                               ["fix_html_links.py"; "/r"]))
      = map full_path (l1 ++ [entry])
    ∧ ∀ p, p ∈ map full_path l1
           ∨ main_disk (main id site_os_walk all_writable site book_only_disk
                          ["fix_html_links.py"; "/r"]) p
             = book_only_disk p.
Proof.
  apply (main_stops_at_unreadable_file id site_os_walk all_writable site
           book_only_disk ["fix_html_links.py"; "/r"] "/r/a/B.html"),
    book_only_disk_stops.
Defined.

Lemma lone_disk_ids_unique content :
  lone_disk "/r/sub/A.html" = Some content → ids_unique content.
Proof.
  change (lone_disk "/r/sub/A.html") with (Some lone_link).
  intros [= <-]. apply lone_link_ids_unique.
Defined.

Lemma lone_link_raises :
  fix_links_in_html_on_disk id all_writable site "/r/sub/A.html" "/r"
    broken_index lone_disk
  = PassRaised (Exn IndexError) lone_disk
      [PrintTargetNotFound "/r/sub/A.html" "y/B.html"].
Proof. vm_compute. reflexivity. Defined.

Lemma fix_links_in_html_raises_at_witness :
  (∀ ev, ev ∈ [PrintTargetNotFound "/r/sub/A.html" "y/B.html"] →
     is_report ev = false)
  ∧ (∀ p, p ≠ "/r/sub/A.html" → lone_disk p = lone_disk p)
  ∧ lone_disk = lone_disk
  ∧ ∃ content i attrs href,
      lone_disk "/r/sub/A.html" = Some content
      ∧ TagInfo i "a" attrs ∈ tags content
      ∧ attrs !! "href" = Some href
      ∧ is_skipped_href href = false
      ∧ (find_target_path site href broken_index "/r").2 = Raise IndexError.
Proof.
  apply (fix_links_in_html_raises_at id all_writable site "/r/sub/A.html" "/r"
           broken_index lone_disk (Exn IndexError) lone_disk
           [PrintTargetNotFound "/r/sub/A.html" "y/B.html"]
           lone_disk_ids_unique lone_link_raises).
Defined.

(** The two other ways: a file that cannot be read, and a changed document
    that cannot be written. *)
Example unreadable_file_raises :
  fix_links_in_html_on_disk id all_writable site "/r/a/B.html" "/r" site_index
    book_only_disk
  = PassRaised (ReadError "/r/a/B.html") book_only_disk [].
Proof. reflexivity. Qed.

Example read_only_file_raises :
  ∃ d' out,
    fix_links_in_html_on_disk id read_only site "/r/sub/A.html" "/r" site_index
      site_disk
    = PassRaised (WriteError "/r/sub/A.html") d' out
    ∧ d' "/r/sub/A.html" = Some page
    ∧ mutations out
      = [SetAttr 1 "href" "../x/B.html"; SetAttr 2 "src" "../Assets/Foo@2x.png"]
    ∧ existsb is_report out = false.
Proof. eexists _, _. split; [vm_compute; reflexivity|]. by vm_compute. Qed.

(** C9 as stated fails: the text of a paragraph is the one it has once the
    citations are removed, and a paragraph leaves with the one around it. Of
    the three paragraphs of [book_braces], the first reads [{1}] and is
    removed; the second reads [{}] and is kept; the third reads [{}] and is
    removed with the paragraph inside it, which reads [}]. *)
Lemma paragraphs_judged_after_citations :
  posixpath.basename book_path = book
  ∧ Str.remove_ws (text_content brace_around_citation) = "{1}"
  ∧ is_unwanted_paragraph brace_around_citation = false
  ∧ Str.remove_ws (text_content brace_in_citation) = "{}"
  ∧ is_unwanted_paragraph brace_in_citation = true
  ∧ is_unwanted_paragraph (Tag 5 "p" ∅ [Text "}"]) = false
  ∧ is_done (fix_links_in_html site book_path "/r" site_index book_braces) = true
  ∧ soup (final (fix_links_in_html site book_path "/r" site_index book_braces))
    = [Tag 2 "p" ∅ [Text "{"]].
Proof. repeat split; vm_compute; reflexivity. Qed.
